(** * The emotion reaction pipeline of LeLamp

    A shallow embedding of [lelamp/service/emotion/emotion_service.py]:
    the [Emotion] enumeration, the [EmotionService] object with its cooldown
    state, and the three methods [analyze_emotion],
    [map_emotion_to_recording] and [trigger_reaction].

    The service talks to four collaborators that live outside the file: the
    wall clock ([time.time]), the generative model
    ([self.model.generate_content]), the recording store
    ([lelamp.user_data.get_recording_path]) and the animation service
    ([lelamp.globals.animation_service] with its [dispatch] method).  They
    are modelled as an environment of state transformers over an opaque
    world; every call to one of them is recorded, with its outcome, in the
    list of events a method returns.  Python exceptions are explicit: a
    computation ends in [Ret v] or in [Raise e].  Logging and printing are
    left out: they do not take part in any decision. *)

From Stdlib Require Import Bool List String Ascii PeanoNat Lia.
From Stdlib Require Import QArith Lqa.
From Stdlib Require Import PrimFloat.
From Stdlib Require SpecFloat FloatOps FloatAxioms.
Import ListNotations.
Set Warnings "-register-all".
Local Open Scope string_scope.
Local Open Scope list_scope.

(** ** Python floats

    Timestamps, the cooldown and confidences are Python floats.  The code
    subtracts and compares them and nothing else, so the model is written
    against this small interface.  [binary64] instantiates it with the
    IEEE 754 double precision numbers of the kernel, which is what CPython
    computes with; [exactQ] instantiates it with the rationals. *)

Class FloatOps (F : Type) : Type := {
  fzero : F;                    (* 0.0 *)
  fone : F;                     (* 1.0 *)
  fsub : F -> F -> F;           (* x - y *)
  fltb : F -> F -> bool;        (* x < y *)
  fleb : F -> F -> bool;        (* x <= y *)
  feqb : F -> F -> bool         (* x == y *)
}.

#[export] Instance binary64 : FloatOps float := {
  fzero := PrimFloat.zero;
  fone := PrimFloat.one;
  fsub := PrimFloat.sub;
  fltb := PrimFloat.ltb;
  fleb := PrimFloat.leb;
  feqb := PrimFloat.eqb
}.

#[export] Instance exactQ : FloatOps Q := {
  fzero := 0%Q;
  fone := 1%Q;
  fsub := Qminus;
  fltb := fun x y => negb (Qle_bool y x);
  fleb := Qle_bool;
  feqb := Qeq_bool
}.

(** [x == x]: true of every float but NaN. *)
Definition is_number {F : Type} `{FloatOps F} (x : F) : bool := feqb x x.

(** The order facts the monotonicity argument rests on, for the floats
    that are numbers.  They are proved below of binary64, from the
    specification of its operations, and of the rationals.  The last one
    says that a subtraction never turns a negative difference into one
    that is not negative: with gradual underflow, [now - last] is below
    zero whenever [now] is below [last]. *)
Class FloatLaws (F : Type) `{FloatOps F} : Prop := {
  fleb_refl : forall x : F, is_number x = true -> fleb x x = true;
  fleb_trans : forall x y z : F,
    fleb x y = true -> fleb y z = true -> fleb x z = true;
  fsub_not_lt : forall now last cooldown : F,
    is_number now = true ->
    is_number last = true ->
    fleb fzero cooldown = true ->
    fltb (fsub now last) cooldown = false ->
    fleb last now = true
}.

(** The sign of a float of the specification: negative and not zero. *)
Definition sf_negative (x : SpecFloat.spec_float) : bool :=
  match x with
  | SpecFloat.S754_infinity true => true
  | SpecFloat.S754_finite true _ _ => true
  | _ => false
  end.

Definition sf_is_nan (x : SpecFloat.spec_float) : bool :=
  match x with SpecFloat.S754_nan => true | _ => false end.

(** ** Strings

    A Python [str] is modelled by its UTF-8 encoding, one [ascii] per
    byte.  Every key of the tables below is ASCII. *)

Definition dq : string := String (ascii_of_nat 34%nat) EmptyString.
Definition nl : string := String (ascii_of_nat 10%nat) EmptyString.

(** The byte [n] of an encoding, and the test for it. *)
Definition byte (n : nat) : ascii := ascii_of_nat n.

Definition is_byte (n : nat) (c : ascii) : bool := (nat_of_ascii c =? n)%nat.

Definition lower_ascii (c : ascii) : ascii :=
  let n := nat_of_ascii c in
  if ((65 <=? n) && (n <=? 90))%nat then ascii_of_nat (n + 32)%nat else c.

(** [str.lower].  The letters A-Z become a-z.  Two characters outside
    ASCII have a lower case that holds an ASCII letter: the dotted capital
    I, U+0130 (bytes C4 B0), becomes [i] followed by the combining dot
    U+0307 (bytes CC 87), and the Kelvin sign, U+212A (bytes E2 84 AA),
    becomes [k].  Python maps every other character outside ASCII to
    characters outside ASCII; their bytes are kept here.  The result
    therefore has the ASCII characters of Python's result at the places
    where Python has them, which is what a comparison with an ASCII key
    and a search for one depend on. *)
Fixpoint lower (s : string) : string :=
  match s with
  | EmptyString => EmptyString
  | String c1 s1 =>
      match s1 with
      | EmptyString => String (lower_ascii c1) EmptyString
      | String c2 s2 =>
          if is_byte 196 c1 && is_byte 176 c2
          then String "i" (String (byte 204) (String (byte 135) (lower s2)))
          else
            match s2 with
            | EmptyString => String (lower_ascii c1) (lower s1)
            | String c3 s3 =>
                if is_byte 226 c1 && is_byte 132 c2 && is_byte 170 c3
                then String "k" (lower s3)
                else String (lower_ascii c1) (lower s1)
            end
      end
  end.

(** The white space of [str.strip] and [str.isspace], by the length of
    its encoding.  One byte: U+0009 to U+000D, U+001C to U+0020.  Two
    bytes: U+0085 (C2 85) and U+00A0 (C2 A0).  Three bytes: U+1680
    (E1 9A 80), U+2000 to U+200A (E2 80 80 to E2 80 8A), U+2028 and U+2029
    (E2 80 A8, E2 80 A9), U+202F (E2 80 AF), U+205F (E2 81 9F) and U+3000
    (E3 80 80). *)
Definition is_space (c : ascii) : bool :=
  let n := nat_of_ascii c in
  (((9 <=? n) && (n <=? 13)) || ((28 <=? n) && (n <=? 32)))%nat.

Definition is_space2 (c1 c2 : ascii) : bool :=
  is_byte 194 c1 && (is_byte 133 c2 || is_byte 160 c2).

Definition is_space3 (c1 c2 c3 : ascii) : bool :=
  let n := nat_of_ascii c3 in
  (is_byte 225 c1 && is_byte 154 c2 && is_byte 128 c3)
  || (is_byte 226 c1 && is_byte 128 c2
      && (((128 <=? n) && (n <=? 138)) || (n =? 168) || (n =? 169)
          || (n =? 175))%nat)
  || (is_byte 226 c1 && is_byte 129 c2 && is_byte 159 c3)
  || (is_byte 227 c1 && is_byte 128 c2 && is_byte 128 c3).

(** [str.lstrip] on the bytes. *)
Fixpoint lstrip_chars (l : list ascii) : list ascii :=
  match l with
  | [] => []
  | c1 :: r1 =>
      if is_space c1 then lstrip_chars r1
      else
        match r1 with
        | [] => l
        | c2 :: r2 =>
            if is_space2 c1 c2 then lstrip_chars r2
            else
              match r2 with
              | [] => l
              | c3 :: r3 =>
                  if is_space3 c1 c2 c3 then lstrip_chars r3 else l
              end
        end
  end.

(** [str.rstrip] on the bytes read from the end: the bytes of a character
    come last byte first. *)
Fixpoint rstrip_chars (l : list ascii) : list ascii :=
  match l with
  | [] => []
  | c1 :: r1 =>
      if is_space c1 then rstrip_chars r1
      else
        match r1 with
        | [] => l
        | c2 :: r2 =>
            if is_space2 c2 c1 then rstrip_chars r2
            else
              match r2 with
              | [] => l
              | c3 :: r3 =>
                  if is_space3 c3 c2 c1 then rstrip_chars r3 else l
              end
        end
  end.

Definition strip (s : string) : string :=
  string_of_list_ascii
    (rev (rstrip_chars (rev (lstrip_chars (list_ascii_of_string s))))).

(** Every character is white space (the empty string included). *)
Fixpoint isspace_chars (l : list ascii) : bool :=
  match l with
  | [] => true
  | c1 :: r1 =>
      if is_space c1 then isspace_chars r1
      else
        match r1 with
        | [] => false
        | c2 :: r2 =>
            if is_space2 c1 c2 then isspace_chars r2
            else
              match r2 with
              | [] => false
              | c3 :: r3 => is_space3 c1 c2 c3 && isspace_chars r3
              end
        end
  end.

Definition blank (text : string) : bool :=
  isspace_chars (list_ascii_of_string text).

(** Truth value of a [str]: the empty string is false. *)
Definition str_truthy (s : string) : bool :=
  match s with EmptyString => false | _ => true end.

(** ** Dictionaries

    The dictionaries of the code are small literal tables with distinct
    keys; [dict_get d k default] is [d.get(k, default)]. *)

Fixpoint dict_lookup {K V : Type} (eqb : K -> K -> bool)
    (d : list (K * V)) (k : K) : option V :=
  match d with
  | [] => None
  | (k', v) :: rest => if eqb k' k then Some v else dict_lookup eqb rest k
  end.

Definition dict_get {K V : Type} (eqb : K -> K -> bool)
    (d : list (K * V)) (k : K) (default : V) : V :=
  match dict_lookup eqb d k with
  | Some v => v
  | None => default
  end.

(** ** class Emotion(Enum) *)

Inductive Emotion : Type :=
| HAPPY | EXCITED | SAD | CURIOUS | THOUGHTFUL | ANGRY | SURPRISED | NEUTRAL.

Definition value (e : Emotion) : string :=
  match e with
  | HAPPY => "happy"
  | EXCITED => "excited"
  | SAD => "sad"
  | CURIOUS => "curious"
  | THOUGHTFUL => "thoughtful"
  | ANGRY => "angry"
  | SURPRISED => "surprised"
  | NEUTRAL => "neutral"
  end.

Definition Emotion_eqb (a b : Emotion) : bool :=
  match a, b with
  | HAPPY, HAPPY | EXCITED, EXCITED | SAD, SAD | CURIOUS, CURIOUS
  | THOUGHTFUL, THOUGHTFUL | ANGRY, ANGRY | SURPRISED, SURPRISED
  | NEUTRAL, NEUTRAL => true
  | _, _ => false
  end.

(** ** JSON values, as [json.loads] returns them

    A number stands for the float that [float()] makes of it. *)

Inductive json (F : Type) : Type :=
| JNull
| JBool (b : bool)
| JNum (x : F)
| JStr (s : string)
| JArr (items : list (json F))
| JObj (fields : list (string * json F)).

Arguments JNull {F}.
Arguments JBool {F} b.
Arguments JNum {F} x.
Arguments JStr {F} s.
Arguments JArr {F} items.
Arguments JObj {F} fields.

(** Result of [json.loads]: a value, [json.JSONDecodeError], or another
    exception (such as [RecursionError]). *)
Inductive loads_result (F : Type) : Type :=
| Loaded (v : json F)
| JSONDecodeError
| OtherError.

Arguments Loaded {F} v.
Arguments JSONDecodeError {F}.
Arguments OtherError {F}.

(** The library functions [analyze_emotion] calls on the response text:
    the two [re.search] patterns (the first returns [group(1)], the second
    [group(0)]), [json.loads], and [float] applied to a [str]. *)
Record PyLib (F : Type) : Type := {
  search_fenced : string -> option string;
  search_braces : string -> option string;
  json_loads : string -> loads_result F;
  float_of_str : string -> option F
}.

Arguments search_fenced {F} _ _.
Arguments search_braces {F} _ _.
Arguments json_loads {F} _ _.
Arguments float_of_str {F} _ _.

(** ** Exceptions, outcomes and events *)

(** An instance of [Exception], by its message. *)
Inductive exn : Type := Exception (msg : string).

Inductive outcome (A : Type) : Type :=
| Ret (a : A)
| Raise (e : exn).

Arguments Ret {A} a.
Arguments Raise {A} e.

(** One call to a collaborator, with what came back. *)
Inductive event : Type :=
| Generate (prompt : string) (r : outcome string)
| Lookup (name : string) (r : outcome (option string))
| Dispatch (command name : string) (r : outcome unit).

Definition is_dispatch (e : event) : bool :=
  match e with Dispatch _ _ _ => true | _ => false end.

Definition is_generate (e : event) : bool :=
  match e with Generate _ _ => true | _ => false end.

(** The dispatches among the events, and the number of classifier calls. *)
Definition dispatches (evs : list event) : list event := filter is_dispatch evs.
Definition classifier_calls (evs : list event) : nat :=
  List.length (filter is_generate evs).

(** ** The collaborators

    [W] is the state of everything outside the service.  [time_time] reads
    the clock; the three calls return an outcome and the world they leave
    behind (time has passed, the store may have changed);
    [animation_service] is the truth value of the global of that name. *)
Record Env (F W : Type) : Type := {
  time_time : W -> F;
  generate_content : string -> W -> outcome string * W;
  get_recording_path : string -> W -> outcome (option string) * W;
  animation_service : W -> bool;
  dispatch : string -> string -> W -> outcome unit * W
}.

Arguments time_time {F W} _ _.
Arguments generate_content {F W} _ _ _.
Arguments get_recording_path {F W} _ _ _.
Arguments animation_service {F W} _ _.
Arguments dispatch {F W} _ _ _ _.

(** ** class EmotionService

    The attributes [trigger_reaction] and its helpers read.  [provider],
    [model_name], [model] and [logger] take no part in a decision; the
    lock is left out because calls are run one after the other here. *)
Record EmotionService (F : Type) : Type := {
  auto_react : bool;
  min_confidence : F;
  cooldown_seconds : F;
  _last_reaction_time : F;
  _emotion_to_recording : list (Emotion * list string)
}.

Arguments auto_react {F} _.
Arguments min_confidence {F} _.
Arguments cooldown_seconds {F} _.
Arguments _last_reaction_time {F} _.
Arguments _emotion_to_recording {F} _.

(** The table [__init__] installs. *)
Definition default_emotion_to_recording : list (Emotion * list string) :=
  [ (HAPPY, ["happy_wiggle"; "excited"]);
    (EXCITED, ["excited"; "luxo_excited"; "happy_wiggle"]);
    (SAD, ["sad"; "luxo_sad"; "head_down"]);
    (CURIOUS, ["curious"; "luxo_curious"]);
    (THOUGHTFUL, ["thinking"; "thoughtful"]);
    (ANGRY, ["luxo_sad"; "head_down"; "sad"]);
    (SURPRISED, ["luxo_excited"; "excited"]);
    (NEUTRAL, ["idle"]) ].

(** [EmotionService.__init__], once the package and the API key are
    there: the attributes it sets from its arguments. *)
Definition init {F : Type} `{FloatOps F}
    (auto_react : bool) (min_confidence cooldown_seconds : F)
    : EmotionService F :=
  {| auto_react := auto_react;
     min_confidence := min_confidence;
     cooldown_seconds := cooldown_seconds;
     _last_reaction_time := fzero;
     _emotion_to_recording := default_emotion_to_recording |}.

(** [self._last_reaction_time = t] *)
Definition set_last_reaction_time {F : Type} (self : EmotionService F) (t : F)
    : EmotionService F :=
  {| auto_react := auto_react self;
     min_confidence := min_confidence self;
     cooldown_seconds := cooldown_seconds self;
     _last_reaction_time := t;
     _emotion_to_recording := _emotion_to_recording self |}.

(** The dictionary [analyze_emotion] returns. *)
Record Analysis (F : Type) : Type := {
  emotion : Emotion;
  emotion_str : string;
  confidence : F;
  reasoning : json F;
  raw_response : string
}.

Arguments emotion {F} _.
Arguments emotion_str {F} _.
Arguments confidence {F} _.
Arguments reasoning {F} _.
Arguments raw_response {F} _.

(** The state a method runs in: the service object and the world. *)
Record State (F W : Type) : Type := {
  self : EmotionService F;
  world : W
}.

Arguments self {F W} _.
Arguments world {F W} _.

(** ** Running a method

    A method is a function from the state it starts in to its outcome, the
    state it leaves and the calls it made, in order.  A raised exception
    keeps the state reached when it was raised, as in Python. *)
Definition M (F W A : Type) : Type :=
  State F W -> outcome A * State F W * list event.

Definition ret {F W A : Type} (a : A) : M F W A :=
  fun st => (Ret a, st, []).

Definition bind {F W A B : Type} (m : M F W A) (k : A -> M F W B) : M F W B :=
  fun st =>
    match m st with
    | (Ret a, st1, evs1) =>
        let '(r, st2, evs2) := k a st1 in (r, st2, evs1 ++ evs2)
    | (Raise e, st1, evs1) => (Raise e, st1, evs1)
    end.

(** [try: body  except Exception as e: handler e] *)
Definition try_except {F W A : Type} (body : M F W A) (handler : exn -> M F W A)
    : M F W A :=
  fun st =>
    match body st with
    | (Raise e, st1, evs1) =>
        let '(r, st2, evs2) := handler e st1 in (r, st2, evs1 ++ evs2)
    | (Ret a, st1, evs1) => (Ret a, st1, evs1)
    end.

Declare Scope method_scope.
Delimit Scope method_scope with method.
Notation "x <- m ;; k" := (bind m (fun x => k))
  (at level 61, m at next level, right associativity) : method_scope.
Notation "m ;; k" := (bind m (fun _ => k))
  (at level 61, right associativity) : method_scope.
Local Open Scope method_scope.

Section Methods.

Context {F W : Type} `{FloatOps F} (lib : PyLib F) (env : Env F W).

(** *** Reading the state and calling the collaborators *)

Definition get_self : M F W (EmotionService F) :=
  fun st => (Ret (self st), st, []).

Definition put_last_reaction_time (t : F) : M F W unit :=
  fun st =>
    (Ret tt, {| self := set_last_reaction_time (self st) t;
                world := world st |}, []).

(** [time.time()] *)
Definition call_time : M F W F :=
  fun st => (Ret (time_time env (world st)), st, []).

(** truth value of [g.animation_service] *)
Definition read_animation_service : M F W bool :=
  fun st => (Ret (animation_service env (world st)), st, []).

(** [self.model.generate_content(prompt, ...).text] *)
Definition call_generate_content (prompt : string) : M F W string :=
  fun st =>
    let '(r, w) := generate_content env prompt (world st) in
    (r, {| self := self st; world := w |}, [Generate prompt r]).

(** [get_recording_path(name)] *)
Definition call_get_recording_path (name : string) : M F W (option string) :=
  fun st =>
    let '(r, w) := get_recording_path env name (world st) in
    (r, {| self := self st; world := w |}, [Lookup name r]).

(** [g.animation_service.dispatch(command, name)] *)
Definition call_dispatch (command name : string) : M F W unit :=
  fun st =>
    let '(r, w) := dispatch env command name (world st) in
    (r, {| self := self st; world := w |}, [Dispatch command name r]).

(** *** analyze_emotion *)

(** The prompt of lines 150-159. *)
Definition prompt (text : string) : string :=
  String.concat nl
    [ "Analyze the following text for emotion. Respond with ONLY a JSON object in this exact format:";
      "{";
      String.concat dq
        ["    "; "emotion"; ": ";
         "happy|excited|sad|curious|thoughtful|angry|surprised|neutral"; ","];
      String.concat dq ["    "; "confidence"; ": 0.0-1.0,"];
      String.concat dq ["    "; "reasoning"; ": "; "brief explanation"; EmptyString];
      "}";
      EmptyString;
      String.concat dq ["Text to analyze: "; text; EmptyString];
      EmptyString;
      "JSON response:" ].

(** Truth value of a JSON value, as [if not result] tests it. *)
Definition truthy (v : json F) : bool :=
  match v with
  | JNull => false
  | JBool b => b
  | JNum x => negb (feqb x fzero)
  | JStr s => str_truthy s
  | JArr items => match items with [] => false | _ => true end
  | JObj fields => match fields with [] => false | _ => true end
  end.

(** [not result], for the variable [result] that starts as [None]. *)
Definition not_result (result : option (json F)) : bool :=
  match result with
  | None => true
  | Some v => negb (truthy v)
  end.

(** [try: result = json.loads(json_str)  except json.JSONDecodeError: pass].
    [None] stands for an exception that leaves for the handler of line
    255, which makes [analyze_emotion] return [None]. *)
Definition try_loads (json_str : string) (result : option (json F))
    : option (option (json F)) :=
  match json_loads lib json_str with
  | Loaded v => Some (Some v)
  | JSONDecodeError => Some result
  | OtherError => None
  end.

(** Lines 176-206: the three attempts at finding a JSON value in the
    response.  [None] means that [analyze_emotion] returns [None]. *)
Definition extract_json (response_text : string) : option (json F) :=
  let fenced :=
    match search_fenced lib response_text with
    | Some json_str => try_loads json_str None
    | None => Some None
    end in
  match fenced with
  | None => None
  | Some result =>
      let braces :=
        if not_result result then
          match search_braces lib response_text with
          | Some json_str => try_loads json_str result
          | None => Some result
          end
        else Some result in
      match braces with
      | None => None
      | Some result =>
          let whole :=
            if not_result result then
              match json_loads lib response_text with
              | Loaded v => Some (Some v)
              | JSONDecodeError => None
              | OtherError => None
              end
            else Some result in
          match whole with
          | None => None
          | Some result => if not_result result then None else result
          end
      end
  end.

(** [v.lower()]: only a [str] has the method. *)
Definition py_lower (v : json F) : option string :=
  match v with
  | JStr s => Some (lower s)
  | _ => None
  end.

(** [float(v)]: [None] stands for [TypeError] or [ValueError]. *)
Definition py_float (v : json F) : option F :=
  match v with
  | JNum x => Some x
  | JBool b => Some (if b then fone else fzero)
  | JStr s => float_of_str lib s
  | JNull => None
  | JArr _ => None
  | JObj _ => None
  end.

(** [reasoning[:100] if reasoning else 'N/A'] in the log message: a
    true value that cannot be sliced raises. *)
Definition loggable (reasoning : json F) : bool :=
  match reasoning with
  | JStr _ => true
  | JArr _ => true
  | _ => negb (truthy reasoning)
  end.

(** The table of lines 214-234. *)
Definition emotion_map : list (string * Emotion) :=
  [ ("happy", HAPPY);
    ("excited", EXCITED);
    ("joy", EXCITED);
    ("sad", SAD);
    ("disappointed", SAD);
    ("upset", SAD);
    ("curious", CURIOUS);
    ("interested", CURIOUS);
    ("wondering", CURIOUS);
    ("thoughtful", THOUGHTFUL);
    ("thinking", THOUGHTFUL);
    ("contemplating", THOUGHTFUL);
    ("angry", ANGRY);
    ("frustrated", ANGRY);
    ("annoyed", ANGRY);
    ("surprised", SURPRISED);
    ("shocked", SURPRISED);
    ("neutral", NEUTRAL);
    ("calm", NEUTRAL) ].

(** Lines 208-253: from the parsed value to the returned dictionary.
    [None] stands for an exception caught at line 255 ([.get] on a value
    that is not a dictionary, [.lower] on one that is not a string,
    [float] on one it rejects, a slice of a reasoning that has none). *)
Definition build_analysis (result : json F) (response_text : string)
    : option (Analysis F) :=
  match result with
  | JObj fields =>
      match py_lower (dict_get String.eqb fields "emotion" (JStr EmptyString)) with
      | None => None
      | Some emotion_str =>
          match py_float (dict_get String.eqb fields "confidence" (JNum fzero)) with
          | None => None
          | Some confidence =>
              let reasoning := dict_get String.eqb fields "reasoning" (JStr EmptyString) in
              let emotion := dict_get String.eqb emotion_map emotion_str NEUTRAL in
              if loggable reasoning then
                Some {| emotion := emotion;
                        emotion_str := value emotion;
                        confidence := confidence;
                        reasoning := reasoning;
                        raw_response := response_text |}
              else None
          end
      end
  | _ => None
  end.

Definition analyze_emotion (text : string) : M F W (option (Analysis F)) :=
  if negb (str_truthy text) || negb (str_truthy (strip text)) then ret None
  else
    try_except
      (response <- call_generate_content (prompt text) ;;
       let response_text := strip response in
       match extract_json response_text with
       | None => ret None
       | Some result => ret (build_analysis result response_text)
       end)
      (fun _ => ret None).

(** *** map_emotion_to_recording *)

(** The loop of lines 275-277; [None] when it runs to its end. *)
Fixpoint first_existing (recordings : list string) : M F W (option string) :=
  match recordings with
  | [] => ret None
  | recording_name :: rest =>
      path <- call_get_recording_path recording_name ;;
      match path with
      | Some _ => ret (Some recording_name)
      | None => first_existing rest
      end
  end.

Definition map_emotion_to_recording (emotion : Emotion)
    : M F W (option string) :=
  self <- get_self ;;
  let recordings :=
    dict_get Emotion_eqb (_emotion_to_recording self) emotion [] in
  match recordings with
  | [] => ret None
  | first :: _ =>
      found <- first_existing recordings ;;
      match found with
      | Some recording_name => ret (Some recording_name)
      | None => ret (Some first)
      end
  end.

(** *** trigger_reaction *)

Definition trigger_reaction (text : string) : M F W bool :=
  self <- get_self ;;
  if negb (auto_react self) then ret false
  else
    current_time <- call_time ;;
    if fltb (fsub current_time (_last_reaction_time self))
            (cooldown_seconds self)
    then ret false
    else
      result <- analyze_emotion text ;;
      match result with
      | None => ret false
      | Some result =>
          let emotion := emotion result in
          let confidence := confidence result in
          if fltb confidence (min_confidence self) then ret false
          else if Emotion_eqb emotion NEUTRAL then ret false
          else
            recording_name <- map_emotion_to_recording emotion ;;
            match recording_name with
            | None => ret false
            | Some recording_name =>
                if negb (str_truthy recording_name) then ret false
                else
                  available <- read_animation_service ;;
                  if negb available then ret false
                  else
                    path <- call_get_recording_path recording_name ;;
                    match path with
                    | None => ret false
                    | Some _ =>
                        try_except
                          (call_dispatch "play" recording_name ;;
                           put_last_reaction_time current_time ;;
                           ret true)
                          (fun _ => ret false)
                    end
            end
      end.

End Methods.

(** ** Sequences of calls

    [calls lib env st st']: some calls to [trigger_reaction], one after the
    other, lead from [st] to [st'].  Between two calls the world moves on
    as it likes (time passes, the store and the animation service change);
    the service object is touched by [trigger_reaction] only. *)
Inductive calls {F W : Type} `{FloatOps F} (lib : PyLib F) (env : Env F W)
    : State F W -> State F W -> Prop :=
| calls_done (st : State F W) : calls lib env st st
| calls_next (st st1 st2 : State F W) (text : string) (r : outcome bool)
    (evs : list event) (w : W) :
    trigger_reaction lib env text st = (r, st1, evs) ->
    calls lib env {| self := self st1; world := w |} st2 ->
    calls lib env st st2.

(** ** What the claims speak of *)

Definition is_lookup (e : event) : bool :=
  match e with Lookup _ _ => true | _ => false end.

(** A dispatch that raised is among the events. *)
Definition dispatch_raised (evs : list event) : Prop :=
  exists command name e, In (Dispatch command name (Raise e)) evs.

(** A dispatch that returned is among the events. *)
Definition dispatch_succeeded (evs : list event) : Prop :=
  exists command name, In (Dispatch command name (Ret tt)) evs.

(** The recording store answers every lookup: it returns a path or [None]
    and raises nothing. *)
Definition store_answers {F W : Type} (env : Env F W) : Prop :=
  forall name w, exists path w', get_recording_path env name w = (Ret path, w').

(** The recording store holds exactly the names [present] accepts. *)
Definition store_holds {F W : Type} (env : Env F W) (present : string -> bool)
    : Prop :=
  forall name w,
    exists path w',
      get_recording_path env name w = (Ret path, w') /\
      (if present name then path <> None else path = None).

(** The first candidate the store confirms, and the first candidate when
    it confirms none: section 4.3 of the specification. *)
Definition first_confirmed (present : string -> bool)
    (candidates : list string) : option string :=
  match find present candidates with
  | Some name => Some name
  | None => head candidates
  end.

(** Projections of what a method returns. *)
Definition result_of {A B C : Type} (x : A * B * C) : A := fst (fst x).
Definition state_of {A B C : Type} (x : A * B * C) : B := snd (fst x).
Definition events_of {A B C : Type} (x : A * B * C) : C := snd x.

(** ** A laboratory

    Concrete collaborators to run the methods with.  The world is a clock:
    the time it shows and the times it will show after each remote call.
    A [Lab] fixes how the collaborators behave: the reply of the model,
    the names the store holds, and switches for the failures. *)
Record Clock (F : Type) : Type := {
  clock_now : F;
  clock_next : list F
}.

Arguments clock_now {F} _.
Arguments clock_next {F} _.

Record Lab : Type := {
  lab_reply : outcome string;
  lab_store : list string;
  lab_store_raises : bool;
  lab_service : bool;
  lab_dispatch_raises : bool
}.

(** A remote call has returned: the clock shows its next value. *)
Definition tick {F : Type} (w : Clock F) : Clock F :=
  match clock_next w with
  | [] => w
  | t :: rest => {| clock_now := t; clock_next := rest |}
  end.

Definition lab_env {F : Type} (lab : Lab) : Env F (Clock F) :=
  {| time_time := fun w => clock_now w;
     generate_content := fun _ w => (lab_reply lab, tick w);
     get_recording_path := fun name w =>
       if lab_store_raises lab
       then (Raise (Exception "store unavailable"), w)
       else if existsb (String.eqb name) (lab_store lab)
            then (Ret (Some ("recordings/" ++ name)%string), w)
            else (Ret None, w);
     animation_service := fun _ => lab_service lab;
     dispatch := fun _ _ w =>
       if lab_dispatch_raises lab
       then (Raise (Exception "dispatch failed"), tick w)
       else (Ret tt, tick w) |}.

(** The library on the replies of the laboratory: each reply is one flat
    JSON object without a fence, so the first pattern finds nothing, the
    second finds the whole text, and [json.loads] returns the value the
    table gives for it.  [float] of a string follows its own table. *)
Definition lab_lib {F : Type} (replies : list (string * json F))
    (floats : list (string * F)) : PyLib F :=
  {| search_fenced := fun _ => None;
     search_braces := fun s =>
       match dict_lookup String.eqb replies s with
       | Some _ => Some s
       | None => None
       end;
     json_loads := fun s =>
       match dict_lookup String.eqb replies s with
       | Some v => Loaded v
       | None => JSONDecodeError
       end;
     float_of_str := fun s => dict_lookup String.eqb floats s |}.

Definition quoted (s : string) : string := (dq ++ s ++ dq)%string.

(** [{"emotion": "<e>", "confidence": <c>, "reasoning": "because"}] *)
Definition reply_text (e c : string) : string :=
  ("{" ++ quoted "emotion" ++ ": " ++ quoted e ++ ", "
       ++ quoted "confidence" ++ ": " ++ c ++ ", "
       ++ quoted "reasoning" ++ ": " ++ quoted "because" ++ "}")%string.

Definition reply_value {F : Type} (e : string) (c : json F) : json F :=
  JObj [("emotion", JStr e); ("confidence", c); ("reasoning", JStr "because")].

(** [{"confidence": 0.9, "reasoning": "because"}] *)
Definition reply_without_emotion : string :=
  ("{" ++ quoted "confidence" ++ ": 0.9, "
       ++ quoted "reasoning" ++ ": " ++ quoted "because" ++ "}")%string.

(** [{"emotion": "happy", "reasoning": "because"}] *)
Definition reply_without_confidence : string :=
  ("{" ++ quoted "emotion" ++ ": " ++ quoted "happy" ++ ", "
       ++ quoted "reasoning" ++ ": " ++ quoted "because" ++ "}")%string.

Definition lab_replies {F : Type} (c085 c09 c099 : F)
    : list (string * json F) :=
  [ (reply_text "happy" "0.85", reply_value "happy" (JNum c085));
    (reply_text "Joy" "0.9", reply_value "Joy" (JNum c09));
    (reply_text "neutral" "0.99", reply_value "neutral" (JNum c099));
    (reply_text "happy" "null", reply_value "happy" JNull);
    (reply_text "happy" (quoted "high"), reply_value "happy" (JStr "high"));
    (reply_without_emotion,
      JObj [("confidence", JNum c09); ("reasoning", JStr "because")]);
    (reply_without_confidence,
      JObj [("emotion", JStr "happy"); ("reasoning", JStr "because")]) ].

Set Warnings "-inexact-float".

Definition lib64 : PyLib float :=
  lab_lib (lab_replies 0.85%float 0.9%float 0.99%float) [].

Definition libQ : PyLib Q :=
  lab_lib (lab_replies (85 # 100) (9 # 10) (99 # 100)) [].

(** A service as [init_emotion_service] builds it from an empty
    configuration: reactions on, threshold 0.7, cooldown 2 seconds. *)
Definition service64 : EmotionService float := init true 0.7%float 2%float.
Definition serviceQ : EmotionService Q := init true (7 # 10) (2 # 1).

(** A laboratory in which everything works: the model answers [reply],
    the store holds [store], the animation service is there. *)
Definition working (reply : string) (store : list string) : Lab :=
  {| lab_reply := Ret reply;
     lab_store := store;
     lab_store_raises := false;
     lab_service := true;
     lab_dispatch_raises := false |}.

Definition with_store_raising (lab : Lab) : Lab :=
  {| lab_reply := lab_reply lab;
     lab_store := lab_store lab;
     lab_store_raises := true;
     lab_service := lab_service lab;
     lab_dispatch_raises := lab_dispatch_raises lab |}.

Definition with_dispatch_raising (lab : Lab) : Lab :=
  {| lab_reply := lab_reply lab;
     lab_store := lab_store lab;
     lab_store_raises := lab_store_raises lab;
     lab_service := lab_service lab;
     lab_dispatch_raises := true |}.

Definition without_animation_service (lab : Lab) : Lab :=
  {| lab_reply := lab_reply lab;
     lab_store := lab_store lab;
     lab_store_raises := lab_store_raises lab;
     lab_service := false;
     lab_dispatch_raises := lab_dispatch_raises lab |}.

(** The scenario of the specification: the model finds "happy" with
    confidence 0.85, the store holds "happy_wiggle", the service has not
    reacted yet, and the clock reads 100 seconds at the cooldown check, 101.5
    when the model has answered and 101.75 when the dispatch has returned. *)
Definition happy_lab : Lab :=
  working (reply_text "happy" "0.85") ["happy_wiggle"].

Definition at_100 : State float (Clock float) :=
  {| self := service64;
     world := {| clock_now := 100%float;
                 clock_next := [101.5%float; 101.75%float] |} |}.

(** One second after a reaction at 100 seconds. *)
Definition cooling_down : State float (Clock float) :=
  {| self := set_last_reaction_time service64 100%float;
     world := {| clock_now := 101%float;
                 clock_next := [102.5%float; 102.75%float] |} |}.

(** The same scenario over the rationals, and the world 105 seconds in. *)
Definition at_100_Q : State Q (Clock Q) :=
  {| self := serviceQ;
     world := {| clock_now := 100 # 1;
                 clock_next := [203 # 2; 407 # 4] |} |}.

Definition clock_105_Q : Clock Q :=
  {| clock_now := 105 # 1; clock_next := [213 # 2; 427 # 4] |}.

(** After two reactions, at 100 and at 105 seconds. *)
Definition after_two_Q : State Q (Clock Q) :=
  {| self := set_last_reaction_time serviceQ (105 # 1);
     world := {| clock_now := 427 # 4; clock_next := [] |} |}.

(** The model finds "neutral" with confidence 0.99. *)
Definition neutral_lab : Lab :=
  working (reply_text "neutral" "0.99") ["idle"; "happy_wiggle"].

(** The model answers with a confidence of [null], and with the string
    "high". *)
Definition null_confidence_lab : Lab :=
  working (reply_text "happy" "null") ["happy_wiggle"].

Definition high_confidence_lab : Lab :=
  working (reply_text "happy" (quoted "high")) ["happy_wiggle"].

(** Of the candidates of excited, the store holds "happy_wiggle" only. *)
Definition only_happy_wiggle (name : string) : bool :=
  existsb (String.eqb name) ["happy_wiggle"].

(** ** Runs of the laboratory *)

(** The scenario of the specification: one dispatch of
    [("play", "happy_wiggle")], the result [True], the timestamp set. *)
Example run_happy :
  trigger_reaction lib64 (lab_env happy_lab) "what a lovely day" at_100
  = (Ret true,
     {| self := set_last_reaction_time service64 100%float;
        world := {| clock_now := 101.75%float; clock_next := [] |} |},
     [ Generate (prompt "what a lovely day") (Ret (reply_text "happy" "0.85"));
       Lookup "happy_wiggle" (Ret (Some "recordings/happy_wiggle"));
       Lookup "happy_wiggle" (Ret (Some "recordings/happy_wiggle"));
       Dispatch "play" "happy_wiggle" (Ret tt) ]).
Proof. vm_compute. reflexivity. Qed.

(** A service with a threshold of 0.9, one second before its cooldown ends
    and long after it. *)
Definition strict_service64 : EmotionService float :=
  init true 0.9%float 2%float.

Definition strict_at_100 : State float (Clock float) :=
  {| self := strict_service64;
     world := {| clock_now := 100%float;
                 clock_next := [101.5%float; 101.75%float] |} |}.

(** The store holds none of the candidates of happy. *)
Definition empty_store_lab : Lab :=
  working (reply_text "happy" "0.85") [].

(** The model cannot be reached. *)
Definition unreachable_model_lab : Lab :=
  {| lab_reply := Raise (Exception "deadline exceeded");
     lab_store := ["happy_wiggle"];
     lab_store_raises := false;
     lab_service := true;
     lab_dispatch_raises := false |}.

(** The reply of the model inside a fenced block, with words around it,
    and the library on it: the first pattern finds the object between the
    fences. *)
Definition fenced_reply : string :=
  ("Here you go:" ++ nl ++ "```json" ++ nl
     ++ reply_text "happy" "0.85" ++ nl ++ "```")%string.

Definition fenced_lib64 : PyLib float :=
  {| search_fenced := fun s =>
       if String.eqb s fenced_reply then Some (reply_text "happy" "0.85")
       else None;
     search_braces := fun s =>
       if String.eqb s fenced_reply then Some (reply_text "happy" "0.85")
       else search_braces lib64 s;
     json_loads := json_loads lib64;
     float_of_str := float_of_str lib64 |}.

(** One second after the cooldown check of [at_100]. *)
Definition clock_101 : Clock float :=
  {| clock_now := 101%float; clock_next := [102.5%float; 102.75%float] |}.

(** ** Building the service: [__init__], [init_emotion_service],
    [get_emotion_service]

    What the constructor finds around it: whether [google.generativeai]
    could be imported, the environment variable [GOOGLE_API_KEY], and what
    [genai.configure] and [genai.GenerativeModel] do.  Configurations carry
    values of the types the code expects; a key may be missing. *)
Record Process : Type := {
  GEMINI_AVAILABLE : bool;
  GOOGLE_API_KEY : option string;
  genai_setup : outcome unit
}.

(** The dictionary [config["emotion"]], key by key. *)
Record EmotionConfig : Type := {
  cfg_enabled : option bool;
  cfg_auto_react : option bool;
  cfg_min_confidence : option float;
  cfg_cooldown_seconds : option float
}.

(** [{}], the default of [config.get("emotion", {})]. *)
Definition empty_config : EmotionConfig :=
  {| cfg_enabled := None;
     cfg_auto_react := None;
     cfg_min_confidence := None;
     cfg_cooldown_seconds := None |}.

(** [d.get(key, default)] for a key that is there or not. *)
Definition get_or {A : Type} (v : option A) (default : A) : A :=
  match v with
  | Some a => a
  | None => default
  end.

(** [EmotionService.__init__], lines 82-133. *)
Definition EmotionService_init (process : Process) (auto_react : bool)
    (min_confidence cooldown_seconds : float)
    : outcome (EmotionService float) :=
  if negb (GEMINI_AVAILABLE process)
  then Raise (Exception "google-generativeai package not installed")
  else
    match GOOGLE_API_KEY process with
    | None => Raise (Exception "GOOGLE_API_KEY environment variable not set")
    | Some api_key =>
        if negb (str_truthy api_key)
        then Raise (Exception "GOOGLE_API_KEY environment variable not set")
        else
          match genai_setup process with
          | Raise e => Raise e
          | Ret _ => Ret (init auto_react min_confidence cooldown_seconds)
          end
    end.

(** [init_emotion_service(config)], lines 49-71: from the global
    [_emotion_service] before the call to the returned value and the global
    after it.  [config] is [None] when the configuration has no "emotion"
    key. *)
Definition init_emotion_service (process : Process)
    (config : option EmotionConfig)
    (_emotion_service : option (EmotionService float))
    : option (EmotionService float) * option (EmotionService float) :=
  let emotion_config := get_or config empty_config in
  if negb (get_or (cfg_enabled emotion_config) false)
  then (None, _emotion_service)
  else
    match EmotionService_init process
            (get_or (cfg_auto_react emotion_config) true)
            (get_or (cfg_min_confidence emotion_config) 0.7%float)
            (get_or (cfg_cooldown_seconds emotion_config) 2%float) with
    | Ret service => (Some service, Some service)
    | Raise _ => (None, None)
    end.

(** [get_emotion_service()], lines 44-46. *)
Definition get_emotion_service
    (_emotion_service : option (EmotionService float))
    : option (EmotionService float) :=
  _emotion_service.

(** A process in which the constructor succeeds, and an enabled
    configuration that leaves every other key out. *)
Definition ready_process : Process :=
  {| GEMINI_AVAILABLE := true;
     GOOGLE_API_KEY := Some "a-key";
     genai_setup := Ret tt |}.

Definition enabled_config : EmotionConfig :=
  {| cfg_enabled := Some true;
     cfg_auto_react := None;
     cfg_min_confidence := None;
     cfg_cooldown_seconds := None |}.

(** ** Procedural animations: class LuxoAnimations

    [motor_service] is the global of [lelamp.globals]: [None], or an object
    whose [move_to(servo, position, duration)] acts on the world and may
    raise.  A [motion] is an awaited call, in the order of the awaits. *)
Inductive motion : Type :=
| MoveTo (servo : string) (position : Z) (duration : float) (r : outcome unit)
| Sleep (seconds : float).

(** A line of an animation: [await motor_service.move_to(...)] or
    [await asyncio.sleep(...)]. *)
Inductive step : Type :=
| Move (servo : string) (position : Z) (duration : float)
| Wait (seconds : float).

Definition Motor (W : Type) : Type :=
  string -> Z -> float -> W -> outcome unit * W.

(** The lines run one after the other; an exception of [move_to] ends the
    animation and is passed on. *)
Fixpoint run_steps {W : Type} (move_to : Motor W) (steps : list step) (w : W)
    : outcome unit * W * list motion :=
  match steps with
  | [] => (Ret tt, w, [])
  | Move servo position duration :: rest =>
      match move_to servo position duration w with
      | (Ret _, w1) =>
          let '(r, w2, motions) := run_steps move_to rest w1 in
          (r, w2, MoveTo servo position duration (Ret tt) :: motions)
      | (Raise e, w1) =>
          (Raise e, w1, [MoveTo servo position duration (Raise e)])
      end
  | Wait seconds :: rest =>
      let '(r, w2, motions) := run_steps move_to rest w in
      (r, w2, Sleep seconds :: motions)
  end.

(** [if not motor_service: return], then the lines. *)
Definition play {W : Type} (steps : list step)
    (motor_service : option (Motor W)) (w : W)
    : outcome unit * W * list motion :=
  match motor_service with
  | None => (Ret tt, w, [])
  | Some move_to => run_steps move_to steps w
  end.

(** [play_nod], lines 23-37. *)
Definition nod_steps : list step :=
  [ Move "head_servo" 1800 0.15; Wait 0.15;
    Move "head_servo" 2300 0.15; Wait 0.15;
    Move "head_servo" 1900 0.15; Wait 0.15;
    Move "head_servo" 2048 0.15; Wait 0.15 ]%float.

(** [play_curious], lines 39-55. *)
Definition curious_steps : list step :=
  [ Move "head_servo" 2300 0.6; Wait 0.4;
    Move "neck_servo" 2200 0.6; Wait 0.6;
    Move "head_servo" 2048 0.8;
    Move "neck_servo" 2048 0.8; Wait 0.8 ]%float.

(** [play_excited], lines 57-76: three hops, then the settling. *)
Definition hop_steps : list step :=
  [ Move "neck_servo" 1800 0.1;
    Move "head_servo" 1900 0.1; Wait 0.1;
    Move "neck_servo" 2300 0.1;
    Move "head_servo" 2200 0.1; Wait 0.1 ]%float.

Definition excited_steps : list step :=
  List.concat (repeat hop_steps 3%nat)
  ++ [ Move "neck_servo" 2048 0.3;
       Move "head_servo" 2048 0.3; Wait 0.3 ]%float.

(** [play_sad], lines 78-92. *)
Definition sad_steps : list step :=
  [ Move "head_servo" 1400 1.5; Wait 0.5;
    Move "neck_servo" 1400 1.5; Wait 1.5;
    Move "head_servo" 1500 0.4; Wait 0.4;
    Move "head_servo" 1300 0.6; Wait 0.6 ]%float.

Definition play_nod {W : Type} := @play W nod_steps.
Definition play_curious {W : Type} := @play W curious_steps.
Definition play_excited {W : Type} := @play W excited_steps.
Definition play_sad {W : Type} := @play W sad_steps.

(** The dictionary of [play_animation], lines 102-107. *)
Definition anim_map {W : Type}
    : list (string * (option (Motor W) -> W -> outcome unit * W * list motion)) :=
  [ ("nod", play_nod);
    ("curious", play_curious);
    ("excited", play_excited);
    ("sad", play_sad) ].

(** [play_animation], lines 95-114. *)
Definition play_animation {W : Type} (motor_service : option (Motor W))
    (animation_type : string) (w : W) : outcome string * W * list motion :=
  match dict_lookup String.eqb anim_map (lower animation_type) with
  | Some action =>
      match action motor_service w with
      | (Ret _, w1, motions) =>
          (Ret ("Played animation: " ++ animation_type)%string, w1, motions)
      | (Raise e, w1, motions) => (Raise e, w1, motions)
      end
  | None =>
      (Ret ("Unknown animation type: " ++ animation_type
            ++ ". Available: ['nod', 'curious', 'excited', 'sad']")%string,
       w, [])
  end.

(** The position a servo was last sent to. *)
Fixpoint last_position (servo : string) (motions : list motion) : option Z :=
  match motions with
  | [] => None
  | MoveTo s position _ (Ret _) :: rest =>
      match last_position servo rest with
      | Some p => Some p
      | None => if String.eqb s servo then Some position else None
      end
  | _ :: rest => last_position servo rest
  end.

(** A motor that follows every command and counts them. *)
Definition obedient_motor : Motor nat :=
  fun _ _ _ n => (Ret tt, S n).

(** ** class AnimationFunctions

    The attributes of the agent the tools read.  [motors_enabled] and the
    animation service may be missing ([getattr] with a default); the
    animation service carries the flag [manual_control_override], which may
    be missing too, and the methods the tools call. *)
Inductive dance_event : Type :=
| GetModifier (name : string) (found : outcome bool)
| SetAmplitude (amplitude : float) (r : outcome unit)
| SetBeatDivisor (divisor : float) (r : outcome unit).

(** The music modifier [get_modifier("music")] returns. *)
Record Modifier (W : Type) : Type := {
  set_amplitude : float -> W -> outcome unit * W;
  set_beat_divisor : float -> W -> outcome unit * W
}.

Arguments set_amplitude {W} _ _ _.
Arguments set_beat_divisor {W} _ _ _.

Record AnimationService (W : Type) : Type := {
  manual_control_override : option bool;
  service_dispatch : string -> string -> W -> outcome unit * W;
  get_modifier : string -> W -> outcome (option (Modifier W)) * W
}.

Arguments manual_control_override {W} _.
Arguments service_dispatch {W} _ _ _ _.
Arguments get_modifier {W} _ _ _.

Record Agent (W : Type) : Type := {
  motors_enabled : option bool;
  agent_animation_service : option (AnimationService W);
  is_sleeping : bool
}.

Arguments motors_enabled {W} _.
Arguments agent_animation_service {W} _.
Arguments is_sleeping {W} _.

(** [str(e)] *)
Definition str_of_exn (e : exn) : string :=
  match e with Exception msg => msg end.

(** [_check_animation_enabled], lines 120-126. *)
Definition _check_animation_enabled {W : Type} (agent : Agent W)
    : option string :=
  if negb (get_or (motors_enabled agent) true)
  then Some "Movement is not available - running in headless mode without motor hardware."
  else
    match agent_animation_service agent with
    | None =>
        Some "Animation is not available - animation service not initialized."
    | Some _ => None
    end.

(** [play_recording], lines 163-202.  After the check the animation
    service is there; the call on a missing one would raise inside the
    [try] block. *)
Definition play_recording {W : Type} (agent : Agent W)
    (recording_name : string) (w : W) : string * W * list event :=
  match _check_animation_enabled agent with
  | Some error => (error, w, [])
  | None =>
      if match agent_animation_service agent with
         | Some service => get_or (manual_control_override service) false
         | None => false
         end
      then (EmptyString, w, [])
      else if is_sleeping agent && negb (String.eqb recording_name "sleep")
      then (EmptyString, w, [])
      else
        match agent_animation_service agent with
        | Some service =>
            match service_dispatch service "play" recording_name w with
            | (Ret u, w1) =>
                (("Started playing recording: " ++ recording_name)%string,
                 w1, [Dispatch "play" recording_name (Ret u)])
            | (Raise e, w1) =>
                (("Error playing recording " ++ recording_name ++ ": "
                  ++ str_of_exn e)%string,
                 w1, [Dispatch "play" recording_name (Raise e)])
            end
        | None =>
            (("Error playing recording " ++ recording_name ++ ": "
              ++ "'NoneType' object has no attribute 'dispatch'")%string,
             w, [])
        end
  end.

(** The gates of [play_recording]: the motors are not switched off, the
    animation service is there without the manual override, and the lamp
    is awake or the recording is "sleep". *)
Definition may_play {W : Type} (agent : Agent W) (recording_name : string)
    : bool :=
  get_or (motors_enabled agent) true
  && match agent_animation_service agent with
     | Some service => negb (get_or (manual_control_override service) false)
     | None => false
     end
  && (negb (is_sleeping agent) || String.eqb recording_name "sleep").

(** The amplitude, the beat divisor and the answer of an intensity, lines
    274-289. *)
Definition intensity_settings (intensity_lower : string)
    : option (float * float * string) :=
  if String.eqb intensity_lower "subtle"
  then Some (5%float, 2%float, "Okay, keeping it subtle and chill.")
  else if String.eqb intensity_lower "normal"
  then Some (10%float, 1%float, "Back to normal vibes!")
  else if String.eqb intensity_lower "energetic"
  then Some (15%float, 1%float, "Feeling energetic! Let's go!")
  else if String.eqb intensity_lower "crazy"
  then Some (20%float, 0.5%float, "PARTY MODE ACTIVATED!")
  else None.

(** [set_dance_intensity], lines 250-293. *)
Definition set_dance_intensity {W : Type} (agent : Agent W)
    (intensity : string) (w : W) : string * W * list dance_event :=
  let failed (e : exn) : string :=
    ("Error setting dance intensity: " ++ str_of_exn e)%string in
  match _check_animation_enabled agent with
  | Some error => (error, w, [])
  | None =>
      let intensity_lower := lower intensity in
      match agent_animation_service agent with
      | None =>
          (failed (Exception "'NoneType' object has no attribute 'get_modifier'"),
           w, [])
      | Some service =>
          match get_modifier service "music" w with
          | (Raise e, w1) => (failed e, w1, [GetModifier "music" (Raise e)])
          | (Ret None, w1) =>
              ("Dance mode not available", w1,
               [GetModifier "music" (Ret false)])
          | (Ret (Some music_mod), w1) =>
              match intensity_settings intensity_lower with
              | None =>
                  (("Unknown intensity '" ++ intensity
                    ++ "'. Try: subtle, normal, energetic, or crazy")%string,
                   w1, [GetModifier "music" (Ret true)])
              | Some (amplitude, divisor, answer) =>
                  match set_amplitude music_mod amplitude w1 with
                  | (Raise e, w2) =>
                      (failed e, w2,
                       [GetModifier "music" (Ret true);
                        SetAmplitude amplitude (Raise e)])
                  | (Ret u, w2) =>
                      match set_beat_divisor music_mod divisor w2 with
                      | (Raise e, w3) =>
                          (failed e, w3,
                           [GetModifier "music" (Ret true);
                            SetAmplitude amplitude (Ret u);
                            SetBeatDivisor divisor (Raise e)])
                      | (Ret u', w3) =>
                          (answer, w3,
                           [GetModifier "music" (Ret true);
                            SetAmplitude amplitude (Ret u);
                            SetBeatDivisor divisor (Ret u')])
                      end
                  end
              end
          end
      end
  end.

(** An agent with working motors and animation service, awake or asleep,
    over a world that counts the calls. *)
Definition counting_modifier : Modifier nat :=
  {| set_amplitude := fun _ n => (Ret tt, S n);
     set_beat_divisor := fun _ n => (Ret tt, S n) |}.

Definition counting_service : AnimationService nat :=
  {| manual_control_override := None;
     service_dispatch := fun _ _ n => (Ret tt, S n);
     get_modifier := fun _ n => (Ret (Some counting_modifier), n) |}.

Definition lamp (sleeping : bool) : Agent nat :=
  {| motors_enabled := Some true;
     agent_animation_service := Some counting_service;
     is_sleeping := sleeping |}.

(** ** The party tools: workflows/party_it_up/tools.py *)

(** [s.startswith(key)] *)
Fixpoint startswith (key s : string) : bool :=
  match key with
  | EmptyString => true
  | String a key' =>
      match s with
      | EmptyString => false
      | String b s' => Ascii.eqb a b && startswith key' s'
      end
  end.

(** [key in s] for strings: [key] occurs somewhere in [s]. *)
Fixpoint contains (key s : string) : bool :=
  startswith key s
  || match s with
     | EmptyString => false
     | String _ s' => contains key s'
     end.

(** The dictionary of lines 26-68, in its order. *)
Definition search_queries : list (string * string) :=
  [ ("birthday", "birthday party hits");
    ("kids birthday", "kids party music");
    ("christmas", "christmas party hits");
    ("new year", "new years eve party");
    ("new years eve", "new years eve party");
    ("halloween", "halloween party music");
    ("thanksgiving", "thanksgiving dinner music");
    ("valentine", "valentines day party");
    ("st patrick", "st patricks day party");
    ("easter", "easter celebration");
    ("fourth of july", "4th of july bbq hits");
    ("graduation", "graduation party hits");
    ("wedding", "wedding reception music");
    ("baby shower", "baby shower music");
    ("retirement", "celebration hits");
    ("casual", "chill party vibes");
    ("bbq", "summer bbq hits");
    ("pool party", "pool party mix");
    ("dinner party", "dinner party jazz");
    ("game night", "fun background music");
    ("dance", "dance party hits");
    ("disco", "disco party classics");
    ("80s", "80s party hits");
    ("90s", "90s party mix");
    ("tropical", "tropical party vibes");
    ("beach", "beach party hits");
    ("karaoke", "karaoke party hits");
    ("rock", "rock party anthems");
    ("country", "country party hits");
    ("latin", "latin party reggaeton") ].

(** The loop of lines 71-75: the entry of the first key that occurs in the
    lower-cased theme. *)
Definition matching_entry (theme_lower : string) : option (string * string) :=
  find (fun entry => contains (fst entry) theme_lower) search_queries.

(** Lines 23-79: the search query for a theme. *)
Definition search_query_for (party_theme : string) : string :=
  let theme_lower := lower party_theme in
  let search_query :=
    match matching_entry theme_lower with
    | Some (_, query) => Some query
    | None => None
    end in
  match search_query with
  | Some query =>
      if str_truthy query then query
      else (party_theme ++ " party music")%string
  | None => (party_theme ++ " party music")%string
  end.

(** The dictionary [get_current_track] returns, by the two keys read. *)
Record Track : Type := {
  track_name : option string;
  track_artist : option string
}.

(** [self.spotify_service]: whether it has the attribute [_sp], and the
    two methods called.  [get_current_track] returns [None] for [None] and
    for an empty dictionary. *)
Record Spotify (W : Type) : Type := {
  has_sp : bool;
  play_search : string -> W -> outcome bool * W;
  get_current_track : W -> outcome (option Track) * W
}.

Arguments has_sp {W} _.
Arguments play_search {W} _ _ _.
Arguments get_current_track {W} _ _.

(** What [play_party_music] reads of the agent. *)
Record PartyAgent (W : Type) : Type := {
  play_party_music_internal : option (string -> W -> outcome string * W);
  spotify_service : option (Spotify W)
}.

Arguments play_party_music_internal {W} _.
Arguments spotify_service {W} _.

Inductive party_event : Type :=
| Internal (party_theme : string)
| PlaySearch (search_query : string) (r : outcome bool)
| SleepOneSecond
| GetCurrentTrack.

(** [play_party_music], lines 6-98. *)
Definition play_party_music {W : Type} (agent : PartyAgent W)
    (party_theme : string) (w : W) : outcome string * W * list party_event :=
  match play_party_music_internal agent with
  | Some internal =>
      let '(r, w1) := internal party_theme w in
      (r, w1, [Internal party_theme])
  | None =>
      let search_query := search_query_for party_theme in
      let failed (e : exn) : outcome string :=
        Ret ("Error playing party music: " ++ str_of_exn e)%string in
      match spotify_service agent with
      | Some spotify =>
          if has_sp spotify then
            match play_search spotify search_query w with
            | (Raise e, w1) =>
                (failed e, w1, [PlaySearch search_query (Raise e)])
            | (Ret false, w1) =>
                (Ret ("Couldn't find party music for '" ++ party_theme
                      ++ "'. Try asking me to play specific music.")%string,
                 w1, [PlaySearch search_query (Ret false)])
            | (Ret true, w1) =>
                let evs := [PlaySearch search_query (Ret true);
                            SleepOneSecond; GetCurrentTrack] in
                match get_current_track spotify w1 with
                | (Raise e, w2) => (failed e, w2, evs)
                | (Ret None, w2) =>
                    (Ret ("Party music started! Playing " ++ search_query)%string,
                     w2, evs)
                | (Ret (Some track), w2) =>
                    match track_name track, track_artist track with
                    | Some name, Some artist =>
                        (Ret ("Party music started! Now playing: " ++ name
                              ++ " by " ++ artist)%string, w2, evs)
                    | None, _ => (failed (Exception "'name'"), w2, evs)
                    | Some _, None => (failed (Exception "'artist'"), w2, evs)
                    end
                end
            end
          else
            (Ret "Spotify is not connected. Please set up Spotify first to play party music.",
             w, [])
      | None =>
          (Ret "Spotify is not connected. Please set up Spotify first to play party music.",
           w, [])
      end
  end.

(** The animation, the colour and the opening of the answer for a theme:
    the chain of lines 118-161. *)
Definition rgb_plan (theme_lower : string) : string * Z * Z * Z * string :=
  if contains "birthday" theme_lower || contains "celebration" theme_lower
  then ("party", 255, 100, 200,
        "Party lights activated! Colorful celebration mode with rainbow animations! ")%Z
  else if contains "christmas" theme_lower || contains "xmas" theme_lower
  then ("pulse", 255, 0, 0,
        "Christmas party lights activated! Festive red and green colors! ")%Z
  else if contains "halloween" theme_lower
  then ("ripple", 255, 100, 0,
        "Halloween party lights activated! Spooky orange and purple vibes! ")%Z
  else if contains "new year" theme_lower
  then ("burst", 255, 215, 0,
        "New Year's party lights activated! Sparkling gold celebration mode! ")%Z
  else if contains "valentine" theme_lower
  then ("pulse", 255, 20, 60,
        "Valentine's party lights activated! Romantic red and pink glow! ")%Z
  else if contains "st patrick" theme_lower || contains "irish" theme_lower
  then ("wave", 0, 255, 0,
        "St. Patrick's party lights activated! Lucky green vibes! ")%Z
  else if contains "tropical" theme_lower || contains "beach" theme_lower
          || contains "pool" theme_lower
  then ("wave", 0, 200, 255,
        "Tropical party lights activated! Cool ocean blue waves! ")%Z
  else if contains "dance" theme_lower || contains "disco" theme_lower
  then ("party", 255, 0, 255,
        "Dance party lights activated! Strobing multi-color disco vibes! ")%Z
  else ("party", 255, 150, 0,
        "Party lights activated! Energetic multi-color party mode! ")%Z.

Inductive rgb_event : Type :=
| PlayRgbAnimation (animation : string) (red green blue : Z)
    (r : outcome string).

(** [party_rgb_animation], lines 102-161, over the [play_rgb_animation] of
    the agent. *)
Definition party_rgb_animation {W : Type}
    (play_rgb_animation : string -> Z -> Z -> Z -> W -> outcome string * W)
    (party_theme : string) (w : W) : outcome string * W * list rgb_event :=
  let theme_lower := lower party_theme in
  let '(animation, red, green, blue, opening) := rgb_plan theme_lower in
  match play_rgb_animation animation red green blue w with
  | (Ret result, w1) =>
      (Ret (opening ++ result)%string, w1,
       [PlayRgbAnimation animation red green blue (Ret result)])
  | (Raise e, w1) =>
      (Raise e, w1, [PlayRgbAnimation animation red green blue (Raise e)])
  end.

(** An agent with Spotify connected: every search succeeds and a track by
    "The Band" is playing. *)
Definition connected_agent : PartyAgent nat :=
  {| play_party_music_internal := None;
     spotify_service :=
       Some {| has_sp := true;
               play_search := fun _ n => (Ret true, S n);
               get_current_track := fun n =>
                 (Ret (Some {| track_name := Some "Celebration";
                               track_artist := Some "The Band" |}), n) |} |}.

(** ** Rock, paper, scissors: functions/vision_functions.py *)

(** Lines 83-89: the number of fingers whose tip lies above its middle
    joint, from the vertical coordinates of the hand landmarks (the
    coordinate grows downwards). *)
Definition finger_tips : list nat := [8; 12; 16; 20]%nat.
Definition finger_pips : list nat := [6; 10; 14; 18]%nat.

Definition extended_fingers (landmark_y : nat -> float) : nat :=
  List.length
    (filter (fun joints : nat * nat =>
               PrimFloat.ltb (landmark_y (fst joints)) (landmark_y (snd joints)))
            (combine finger_tips finger_pips)).

(** Lines 94-106: the move read off the number of extended fingers. *)
Definition user_move_of (extended : nat) : string :=
  let user_move := "Unknown" in
  if (4 <=? extended)%nat then "Paper"
  else if (extended =? 2)%nat then "Scissors"
  else if (extended <=? 1)%nat then "Rock"
  else "Rock".

(** The list [random.choice] draws from, and the draw for an index. *)
Definition moves : list string := ["Rock"; "Paper"; "Scissors"].

Definition choice (index : nat) : string :=
  nth (index mod 3) moves "Rock".

(** The dictionary of lines 115-119. *)
Definition rps_anim_map : list (string * string) :=
  [ ("Rock", "head_down"); ("Paper", "wake_up"); ("Scissors", "happy_wiggle") ].

(** Lines 122-130: who wins. *)
Definition judge (user_move bot_move : string) : string :=
  if String.eqb user_move bot_move then "It's a Tie!"
  else if (String.eqb user_move "Rock" && String.eqb bot_move "Scissors")
          || (String.eqb user_move "Paper" && String.eqb bot_move "Rock")
          || (String.eqb user_move "Scissors" && String.eqb bot_move "Paper")
  then "You Win!"
  else "I Win!".

(** What the game calls: the camera, the hand detector, the random
    generator and the animation service. *)
Inductive camera_event : Type :=
| VideoCapture (r : outcome unit)
| IsOpened (opened : bool)
| Hands (r : outcome unit)
| Read (r : outcome bool)
| CvtColor (r : outcome unit)
| HandsProcess (r : outcome bool)
| Choice (bot_move : string)
| Play (name : string) (r : outcome unit)
| Release (r : outcome unit).

Record Vision (W : Type) : Type := {
  import_animation_service : W -> outcome unit * W;
  solutions_hands : W -> outcome unit * W;
  video_capture : W -> outcome unit * W;
  is_opened : W -> outcome bool * W;
  hands_enter : W -> outcome unit * W;
  cap_read : W -> outcome bool * W;
  cvt_color : W -> outcome unit * W;
  hands_process : W -> outcome (option (nat -> float)) * W;
  random_index : W -> nat * W;
  rps_animation_service : option (string -> string -> W -> outcome unit * W);
  cap_release : W -> outcome unit * W
}.

Arguments import_animation_service {W} _ _.
Arguments solutions_hands {W} _ _.
Arguments video_capture {W} _ _.
Arguments is_opened {W} _ _.
Arguments hands_enter {W} _ _.
Arguments cap_read {W} _ _.
Arguments cvt_color {W} _ _.
Arguments hands_process {W} _ _.
Arguments random_index {W} _ _.
Arguments rps_animation_service {W} _.
Arguments cap_release {W} _ _.

(** Lines 58-61: up to [n] reads, stopping at the first that fails; the
    value of [ret] after the loop. *)
Fixpoint read_frames {W : Type} (vision : Vision W) (n : nat) (w : W)
    : outcome bool * W * list camera_event :=
  match n with
  | O => (Ret true, w, [])
  | S n' =>
      match cap_read vision w with
      | (Raise e, w1) => (Raise e, w1, [Read (Raise e)])
      | (Ret false, w1) => (Ret false, w1, [Read (Ret false)])
      | (Ret true, w1) =>
          let '(r, w2, evs) := read_frames vision n' w1 in
          (r, w2, Read (Ret true) :: evs)
      end
  end.

(** Lines 108-136: once the hand is seen. *)
Definition play_round {W : Type} (vision : Vision W)
    (landmark_y : nat -> float) (w : W)
    : outcome string * W * list camera_event :=
  let user_move := user_move_of (extended_fingers landmark_y) in
  let '(index, w1) := random_index vision w in
  let bot_move := choice index in
  let action := dict_get String.eqb rps_anim_map bot_move EmptyString in
  let result := judge user_move bot_move in
  let answer :=
    ("You showed " ++ user_move ++ ". I chose " ++ bot_move ++ " ("
     ++ action ++ " action). " ++ result)%string in
  match rps_animation_service vision with
  | None => (Ret answer, w1, [Choice bot_move])
  | Some service_dispatch =>
      match service_dispatch "play" action w1 with
      | (Ret u, w2) =>
          (Ret answer, w2, [Choice bot_move; Play action (Ret u)])
      | (Raise e, w2) =>
          (Raise e, w2, [Choice bot_move; Play action (Raise e)])
      end
  end.

(** Lines 51-136: the body of the [try] block. *)
Definition look_and_play {W : Type} (vision : Vision W) (w : W)
    : outcome string * W * list camera_event :=
  match hands_enter vision w with
  | (Raise e, w1) => (Raise e, w1, [Hands (Raise e)])
  | (Ret u, w1) =>
      let '(ret, w2, reads) := read_frames vision 5 w1 in
      match ret with
      | Raise e => (Raise e, w2, Hands (Ret u) :: reads)
      | Ret false =>
          (Ret "I tried to look, but I couldn't see anything (camera error).",
           w2, Hands (Ret u) :: reads)
      | Ret true =>
          match cvt_color vision w2 with
          | (Raise e, w3) =>
              (Raise e, w3, Hands (Ret u) :: reads ++ [CvtColor (Raise e)])
          | (Ret u', w3) =>
              match hands_process vision w3 with
              | (Raise e, w4) =>
                  (Raise e, w4,
                   Hands (Ret u) :: reads
                   ++ [CvtColor (Ret u'); HandsProcess (Raise e)])
              | (Ret None, w4) =>
                  (Ret "I didn't see your hand! Make sure it's in front of my camera.",
                   w4,
                   Hands (Ret u) :: reads
                   ++ [CvtColor (Ret u'); HandsProcess (Ret false)])
              | (Ret (Some landmark_y), w4) =>
                  let '(r, w5, evs) := play_round vision landmark_y w4 in
                  (r, w5,
                   Hands (Ret u) :: reads
                   ++ [CvtColor (Ret u'); HandsProcess (Ret true)] ++ evs)
              end
          end
      end
  end.

(** [play_rock_paper_scissors], lines 21-142.  Four statements stand
    before the [try] block and can raise: the import of line 35, the
    lookup [mp.solutions.hands] of line 43, [cv2.VideoCapture(0)] and
    [cap.isOpened()].  The import and the lookup are no calls on the
    camera and leave no event. *)
Definition play_rock_paper_scissors {W : Type} (vision : Vision W)
    (sleeping : bool) (w : W) : outcome string * W * list camera_event :=
  match import_animation_service vision w with
  | (Raise e, w0) => (Raise e, w0, [])
  | (Ret _, w0) =>
      if sleeping
      then (Ret "I'm sleeping right now. Wake me up to play!", w0, [])
      else
        match solutions_hands vision w0 with
        | (Raise e, w1) => (Raise e, w1, [])
        | (Ret _, w1) =>
            match video_capture vision w1 with
            | (Raise e, w2) => (Raise e, w2, [VideoCapture (Raise e)])
            | (Ret u, w2) =>
                match is_opened vision w2 with
                | (Raise e, w3) => (Raise e, w3, [VideoCapture (Ret u)])
                | (Ret false, w3) =>
                    (Ret "I couldn't open my eyes (camera) to see your hand. Maybe I'm already using them for something else?",
                     w3, [VideoCapture (Ret u); IsOpened false])
                | (Ret true, w3) =>
                    let '(r, w4, evs) := look_and_play vision w3 in
                    let answer :=
                      match r with
                      | Ret s => Ret s
                      | Raise e =>
                          Ret ("Oops, something went wrong while playing: "
                               ++ str_of_exn e)%string
                      end in
                    match cap_release vision w4 with
                    | (Ret u', w5) =>
                        (answer, w5,
                         VideoCapture (Ret u) :: IsOpened true :: evs
                         ++ [Release (Ret u')])
                    | (Raise e, w5) =>
                        (Raise e, w5,
                         VideoCapture (Ret u) :: IsOpened true :: evs
                         ++ [Release (Raise e)])
                    end
                end
            end
        end
  end.

(** The exception of a call inside the [try] block that raised. *)
Definition failure (ev : camera_event) : option exn :=
  match ev with
  | Hands (Raise e) | Read (Raise e) | CvtColor (Raise e)
  | HandsProcess (Raise e) | Play _ (Raise e) => Some e
  | _ => None
  end.

Definition is_release (ev : camera_event) : bool :=
  match ev with Release _ => true | _ => false end.

Definition is_play (ev : camera_event) : bool :=
  match ev with Play _ _ => true | _ => false end.

(** A camera that works and sees a hand with the given landmarks; the
    random generator draws the index it is given. *)
Definition seeing {W : Type} (landmark_y : nat -> float) (index : nat)
    : Vision W :=
  {| import_animation_service := fun w => (Ret tt, w);
     solutions_hands := fun w => (Ret tt, w);
     video_capture := fun w => (Ret tt, w);
     is_opened := fun w => (Ret true, w);
     hands_enter := fun w => (Ret tt, w);
     cap_read := fun w => (Ret true, w);
     cvt_color := fun w => (Ret tt, w);
     hands_process := fun w => (Ret (Some landmark_y), w);
     random_index := fun w => (index, w);
     rps_animation_service := Some (fun _ _ w => (Ret tt, w));
     cap_release := fun w => (Ret tt, w) |}.

(** Index and middle finger up, ring finger and little finger down. *)
Definition victory_sign (i : nat) : float :=
  match i with
  | 8%nat | 12%nat => 0.2%float
  | _ => 0.5%float
  end.

(** The camera of [seeing] with another [isOpened], hand detector and
    release. *)
Definition with_camera {W : Type} (vision : Vision W)
    (opened : W -> outcome bool * W) (enter release : W -> outcome unit * W)
    : Vision W :=
  {| import_animation_service := import_animation_service vision;
     solutions_hands := solutions_hands vision;
     video_capture := video_capture vision;
     is_opened := opened;
     hands_enter := enter;
     cap_read := cap_read vision;
     cvt_color := cvt_color vision;
     hands_process := hands_process vision;
     random_index := random_index vision;
     rps_animation_service := rps_animation_service vision;
     cap_release := release |}.

(** A camera whose [isOpened] raises, and one that opens but has no model
    for the hands. *)
Definition busy_camera : Vision nat :=
  with_camera (seeing victory_sign 1)
    (fun w => (Raise (Exception "camera busy"), w))
    (fun w => (Ret tt, w))
    (fun w => (Ret tt, S w)).

Definition camera_without_model : Vision nat :=
  with_camera (seeing victory_sign 1)
    (fun w => (Ret true, w))
    (fun w => (Raise (Exception "no model"), w))
    (fun w => (Ret tt, S w)).

(** The events of the game between opening and releasing the camera. *)
Definition inside_the_game (ev : camera_event) : bool :=
  match ev with
  | VideoCapture _ | IsOpened _ | Release _ => false
  | _ => true
  end.

(** A line that stays in the safe range: the head or the neck servo, a
    position between 1000 and 3000, and a positive duration. *)
Definition safe_step (st : step) : bool :=
  match st with
  | Move servo position duration =>
      (String.eqb servo "head_servo" || String.eqb servo "neck_servo")
      && (1000 <=? position)%Z && (position <=? 3000)%Z
      && PrimFloat.ltb 0%float duration
  | Wait seconds => PrimFloat.ltb 0%float seconds
  end.

(** The motions of a run in which every command is followed. *)
Definition followed (st : step) : motion :=
  match st with
  | Move servo position duration => MoveTo servo position duration (Ret tt)
  | Wait seconds => Sleep seconds
  end.

(** ** Text outside ASCII

    The no-break space U+00A0, the file separator U+001C, the ideographic
    space U+3000 and the Kelvin sign U+212A in their encodings. *)
Definition no_break_space : string :=
  String (byte 194) (String (byte 160) EmptyString).

Definition file_separator : string := String (byte 28) EmptyString.

Definition ideographic_space : string :=
  String (byte 227) (String (byte 128) (String (byte 128) EmptyString)).

Definition kelvin_sign : string :=
  String (byte 226) (String (byte 132) (String (byte 170) EmptyString)).

(** A text of five white space characters, three of them outside the
    ASCII blanks. *)
Definition wide_blank : string :=
  (" " ++ no_break_space ++ file_separator ++ ideographic_space ++ nl)%string.

(** ** A laboratory with a timetable

    The world is the number of remote calls that have returned, and the
    clock shows the entry of the timetable at that position (the last
    entry for ever after): 100 seconds at the first cooldown check, 105 at
    the second. *)
Definition timetable_clock (w : nat) : float :=
  nth w [100%float; 101.5%float; 101.75%float;
         105%float; 106.5%float; 106.75%float] 106.75%float.

Definition timetable_env (lab : Lab) : Env float nat :=
  {| time_time := timetable_clock;
     generate_content := fun _ w => (lab_reply lab, S w);
     get_recording_path := fun name w =>
       if lab_store_raises lab
       then (Raise (Exception "store unavailable"), w)
       else if existsb (String.eqb name) (lab_store lab)
            then (Ret (Some ("recordings/" ++ name)%string), w)
            else (Ret None, w);
     animation_service := fun _ => lab_service lab;
     dispatch := fun _ _ w =>
       if lab_dispatch_raises lab
       then (Raise (Exception "dispatch failed"), S w)
       else (Ret tt, S w) |}.

Definition timetable_start : State float nat :=
  {| self := service64; world := 0%nat |}.

(** After two reactions, at 100 and at 105 seconds. *)
Definition timetable_after_two : State float nat :=
  {| self := set_last_reaction_time service64 105%float; world := 5%nat |}.

(** ** Replies with an odd emotion

    [{"emotion": null, "confidence": 0.9, "reasoning": "because"}], and
    replies the model words as "SHOCKED" with the Kelvin sign for its K,
    and as "bored". *)
Definition reply_with_null_emotion : string :=
  ("{" ++ quoted "emotion" ++ ": null, "
       ++ quoted "confidence" ++ ": 0.9, "
       ++ quoted "reasoning" ++ ": " ++ quoted "because" ++ "}")%string.

Definition null_emotion_fields : list (string * json float) :=
  [("emotion", JNull); ("confidence", JNum 0.9%float);
   ("reasoning", JStr "because")].

Definition shocked_with_kelvin : string :=
  ("SHOC" ++ kelvin_sign ++ "ED")%string.

Definition odd_lib64 : PyLib float :=
  lab_lib
    [ (reply_with_null_emotion, JObj null_emotion_fields);
      (reply_text shocked_with_kelvin "0.9",
       reply_value shocked_with_kelvin (JNum 0.9%float));
      (reply_text "bored" "0.9", reply_value "bored" (JNum 0.9%float)) ]
    [].

Definition null_emotion_lab : Lab :=
  working reply_with_null_emotion ["idle"; "happy_wiggle"].

(** * Properties *)

(** ** The rationals satisfy the order laws *)

#[export] Instance exactQ_laws : FloatLaws Q.
Proof.
  split; cbn.
  - intros x _. apply Qle_bool_iff. apply Qle_refl.
  - intros x y z Hxy Hyz. apply Qle_bool_iff.
    apply Qle_bool_iff in Hxy. apply Qle_bool_iff in Hyz.
    eapply Qle_trans; eassumption.
  - intros now last cooldown _ _ Hc Hlt.
    apply negb_false_iff in Hlt.
    apply Qle_bool_iff in Hc. apply Qle_bool_iff in Hlt.
    apply Qle_bool_iff. lra.
Qed.

(** ** binary64 satisfies the order laws

    The operations of the kernel's floats are specified on [spec_float]:
    a sign, a mantissa and an exponent.  The facts are proved there, for
    every precision, and carried over to [float]. *)

Section SpecFloatOrder.
Import SpecFloat.
Variables prec emax : Z.
Hypothesis prec_pos : (0 < prec)%Z.
Local Open Scope Z_scope.

Lemma digits2_pos_bounds (m : positive) :
  2 ^ (Zpos (digits2_pos m) - 1) <= Zpos m < 2 ^ Zpos (digits2_pos m).
Proof.
  induction m as [p IH|p IH|]; simpl digits2_pos.
  - rewrite Pos2Z.inj_succ, Z.pow_succ_r by lia.
    replace (Z.succ (Zpos (digits2_pos p)) - 1)
      with (Z.succ (Zpos (digits2_pos p) - 1)) by lia.
    rewrite Z.pow_succ_r by lia. lia.
  - rewrite Pos2Z.inj_succ, Z.pow_succ_r by lia.
    replace (Z.succ (Zpos (digits2_pos p)) - 1)
      with (Z.succ (Zpos (digits2_pos p) - 1)) by lia.
    rewrite Z.pow_succ_r by lia. lia.
  - simpl. lia.
Qed.

Lemma iter_xO_spec (m d : positive) :
  Zpos (Pos.iter xO m d) = Zpos m * 2 ^ Zpos d.
Proof.
  induction d as [|d IH] using Pos.peano_ind.
  - simpl. lia.
  - rewrite Pos.iter_succ, Pos2Z.inj_succ, Z.pow_succ_r by lia.
    rewrite Pos2Z.inj_xO, IH. lia.
Qed.

Lemma shl_align_fst (m : positive) (e e' : Z) :
  e' <= e -> Zpos (fst (shl_align m e e')) = Zpos m * 2 ^ (e - e').
Proof.
  intros Hle. unfold shl_align.
  destruct (e' - e) as [|d|d] eqn:Ed; simpl fst.
  - replace (e - e') with 0 by lia. simpl. lia.
  - lia.
  - rewrite iter_xO_spec. replace (e - e') with (Zpos d) by lia. reflexivity.
Qed.

Lemma bounded_facts (m : positive) (e : Z) :
  bounded prec emax m e = true ->
  Zpos (digits2_pos m) <= prec /\ emin prec emax <= e /\
  (emin prec emax < e -> Zpos (digits2_pos m) = prec).
Proof.
  unfold bounded, canonical_mantissa, fexp.
  rewrite andb_true_iff, Z.eqb_eq. lia.
Qed.

(** The mantissa of the larger exponent, aligned, exceeds the other one. *)
Lemma aligned_lt (m1 m2 : positive) (e1 e2 : Z) :
  bounded prec emax m1 e1 = true -> bounded prec emax m2 e2 = true ->
  e1 < e2 ->
  Zpos (fst (shl_align m1 e1 (Z.min e1 e2)))
  < Zpos (fst (shl_align m2 e2 (Z.min e1 e2))).
Proof.
  intros H1 H2 Hlt.
  apply bounded_facts in H1. apply bounded_facts in H2.
  destruct H1 as (Hd1 & Hm1 & _). destruct H2 as (_ & _ & Hd2).
  specialize (Hd2 ltac:(lia)).
  rewrite !shl_align_fst by lia.
  rewrite Z.min_l by lia. replace (e1 - e1) with 0 by lia.
  pose proof (digits2_pos_bounds m1) as [_ Hu].
  pose proof (digits2_pos_bounds m2) as [Hl _].
  rewrite Hd2 in Hl.
  assert (Hp : 2 ^ Zpos (digits2_pos m1) <= 2 ^ prec)
    by (apply Z.pow_le_mono_r; lia).
  assert (Hk : 2 ^ 1 <= 2 ^ (e2 - e1)) by (apply Z.pow_le_mono_r; lia).
  assert (Hs : 2 ^ prec = 2 ^ (prec - 1) * 2 ^ 1)
    by (rewrite <- Z.pow_add_r by lia; f_equal; lia).
  simpl (2 ^ 0). 
  assert (0 < 2 ^ (prec - 1)) by (apply Z.pow_pos_nonneg; lia).
  nia.
Qed.

Lemma aligned_same (m : positive) (e : Z) :
  fst (shl_align m e (Z.min e e)) = m.
Proof.
  unfold shl_align. rewrite Z.min_id, Z.sub_diag. reflexivity.
Qed.

(** *** Rounding keeps a mantissa that is not zero *)

Lemma shr_1_nonneg (s : shr_record) : 0 <= shr_m s -> 0 <= shr_m (shr_1 s).
Proof. destruct s as [[|[p|p|]|p] r s]; simpl; lia. Qed.

Lemma shr_1_digits (s : shr_record) :
  Zdigits2 (shr_m (shr_1 s)) = Z.max 0 (Zdigits2 (shr_m s) - 1).
Proof.
  destruct s as [[|[p|p|]|[p|p|]] r s];
    unfold shr_1, shr_m, Zdigits2; cbn [digits2_pos]; lia.
Qed.

Lemma iter_shr_1_nonneg (p : positive) : forall s : shr_record,
  0 <= shr_m s -> 0 <= shr_m (iter_pos shr_1 p s).
Proof.
  induction p as [p IH|p IH|]; intros s Hs; simpl.
  - apply IH, IH, shr_1_nonneg, Hs.
  - apply IH, IH, Hs.
  - apply shr_1_nonneg, Hs.
Qed.

Lemma iter_shr_1_digits (p : positive) : forall s : shr_record,
  Zdigits2 (shr_m (iter_pos shr_1 p s))
  = Z.max 0 (Zdigits2 (shr_m s) - Zpos p).
Proof.
  induction p as [p IH|p IH|]; intros s; simpl iter_pos.
  - rewrite !IH, shr_1_digits. lia.
  - rewrite !IH. lia.
  - apply shr_1_digits.
Qed.

Lemma positive_of_digits (z : Z) : 0 <= z -> 0 < Zdigits2 z ->
  exists m, z = Zpos m.
Proof. destruct z as [|m|m]; simpl; intros; try lia. now exists m. Qed.

Lemma shr_positive (mrs : shr_record) (e n : Z) (m : positive) :
  shr_m mrs = Zpos m -> n < Zpos (digits2_pos m) ->
  exists m', shr_m (fst (shr mrs e n)) = Zpos m' /\
             snd (shr mrs e n) = e + Z.max n 0.
Proof.
  intros Hm Hn. unfold shr. destruct n as [|p|p]; simpl fst; simpl snd.
  - exists m. split; [exact Hm | lia].
  - destruct (positive_of_digits (shr_m (iter_pos shr_1 p mrs))) as [m' Hm'].
    + apply iter_shr_1_nonneg. rewrite Hm. lia.
    + rewrite iter_shr_1_digits, Hm. simpl Zdigits2. lia.
    + exists m'. split; [exact Hm' | lia].
  - exists m. split; [exact Hm | lia].
Qed.

Lemma shr_m_of_loc (m : Z) (l : location) : shr_m (shr_record_of_loc m l) = m.
Proof. destruct l as [|[| |]]; reflexivity. Qed.

Lemma shr_fexp_positive (m : positive) (e : Z) (l : location) :
  emin prec emax < Zpos (digits2_pos m) + e ->
  exists m' e', shr_fexp prec emax (Zpos m) e l = (m', e') /\
    (exists p, shr_m m' = Zpos p) /\ emin prec emax <= e'.
Proof.
  intros He. unfold shr_fexp. simpl Zdigits2.
  set (n := fexp prec emax (Zpos (digits2_pos m) + e) - e).
  destruct (shr_positive (shr_record_of_loc (Zpos m) l) e n m) as (p & Hp & Hs).
  - apply shr_m_of_loc.
  - unfold n, fexp. lia.
  - destruct (shr (shr_record_of_loc (Zpos m) l) e n) as [m' e'] eqn:E.
    simpl in Hp, Hs. exists m', e'. split; [reflexivity|]. split.
    + now exists p.
    + rewrite Hs. unfold n, fexp. lia.
Qed.

Lemma round_nearest_even_positive (m : positive) (l : location) :
  exists p, round_nearest_even (Zpos m) l = Zpos p.
Proof.
  destruct l as [|[| |]]; unfold round_nearest_even.
  - now exists m.
  - destruct (Z.even (Zpos m)); [now exists m | now exists (m + 1)%positive].
  - now exists m.
  - now exists (m + 1)%positive.
Qed.

Lemma binary_round_aux_sign (sx : bool) (m : positive) (e : Z) (l : location) :
  emin prec emax < Zpos (digits2_pos m) + e ->
  (exists m' e', binary_round_aux prec emax sx (Zpos m) e l = S754_finite sx m' e')
  \/ binary_round_aux prec emax sx (Zpos m) e l = S754_infinity sx.
Proof.
  intros He. unfold binary_round_aux.
  destruct (shr_fexp_positive m e l He) as (m1 & e1 & E1 & [p1 Hp1] & He1).
  rewrite E1, Hp1.
  destruct (round_nearest_even_positive p1 (loc_of_shr_record m1)) as [p2 Hp2].
  rewrite Hp2.
  destruct (shr_fexp_positive p2 e1 loc_Exact) as (m3 & e3 & E3 & [p3 Hp3] & He3).
  { lia. }
  rewrite E3, Hp3.
  destruct (e3 <=? emax - prec); [left; now eexists _, _ | now right].
Qed.

Lemma binary_round_sign (sx : bool) (m : positive) (e : Z) :
  emin prec emax <= e ->
  (exists m' e', binary_round prec emax sx m e = S754_finite sx m' e')
  \/ binary_round prec emax sx m e = S754_infinity sx.
Proof.
  intros He. unfold binary_round.
  destruct (shl_align m e (fexp prec emax (Zpos (digits2_pos m) + e)))
    as [mz ez] eqn:Ez.
  apply binary_round_aux_sign.
  unfold shl_align in Ez.
  destruct (fexp prec emax (Zpos (digits2_pos m) + e) - e) eqn:Ed;
    injection Ez as <- <-; unfold fexp in *; lia.
Qed.

Lemma binary_normalize_negative (d : Z) (e : Z) (sz : bool) :
  d < 0 -> emin prec emax <= e ->
  sf_negative (binary_normalize prec emax d e sz) = true.
Proof.
  intros Hd He. destruct d as [|p|p]; try lia. simpl.
  destruct (binary_round_sign true p e He) as [(m' & e' & ->)| ->]; reflexivity.
Qed.

(** *** Subtracting a larger number gives a negative one *)

Lemma SFsub_negative (x y : spec_float) :
  valid_binary prec emax x = true -> valid_binary prec emax y = true ->
  SFcompare x y = Some Lt ->
  sf_negative (SFsub prec emax x y) = true.
Proof.
  intros Vx Vy Hlt.
  destruct x as [sx|sx| |sx mx ex], y as [sy|sy| |sy my ey];
    simpl in Hlt; try discriminate;
    try (destruct sx; try discriminate); try (destruct sy; try discriminate);
    try reflexivity; simpl in Hlt; try discriminate.
  - (* both negative *)
    simpl in Vx, Vy. unfold SFsub.
    pose proof (bounded_facts _ _ Vx) as (_ & Hex & _).
    pose proof (bounded_facts _ _ Vy) as (_ & Hey & _).
    apply binary_normalize_negative; [|lia]. simpl cond_Zopp.
    destruct (Z.compare_spec ex ey) as [->|Hc|Hc]; try discriminate.
    + rewrite !aligned_same.
      injection Hlt as Hlt. apply (f_equal CompOpp) in Hlt.
      rewrite CompOpp_involutive in Hlt. simpl in Hlt.
      change (Pos.compare_cont Eq mx my) with (Pos.compare mx my) in Hlt.
      apply Pos.compare_gt_iff in Hlt. lia.
    + pose proof (aligned_lt my mx ey ex Vy Vx ltac:(lia)) as Ha.
      rewrite (Z.min_comm ey ex) in Ha. lia.
  - (* negative, positive *)
    simpl in Vx, Vy. unfold SFsub.
    pose proof (bounded_facts _ _ Vx) as (_ & Hex & _).
    pose proof (bounded_facts _ _ Vy) as (_ & Hey & _).
    apply binary_normalize_negative; [|lia]. simpl cond_Zopp. lia.
  - (* both positive *)
    simpl in Vx, Vy. unfold SFsub.
    pose proof (bounded_facts _ _ Vx) as (_ & Hex & _).
    pose proof (bounded_facts _ _ Vy) as (_ & Hey & _).
    apply binary_normalize_negative; [|lia]. simpl cond_Zopp.
    destruct (Z.compare_spec ex ey) as [->|Hc|Hc]; try discriminate.
    + rewrite !aligned_same.
      injection Hlt as Hlt.
      change (Pos.compare_cont Eq mx my) with (Pos.compare mx my) in Hlt.
      change (mx < my)%positive in Hlt. lia.
    + pose proof (aligned_lt mx my ex ey Vx Vy Hc) as Ha. lia.
Qed.

Lemma negative_below_nonnegative (z c : spec_float) :
  sf_negative z = true -> SFleb (S754_zero false) c = true ->
  SFltb z c = true.
Proof.
  destruct z as [s|[|]| |[|] m e]; try discriminate;
    destruct c as [sc|[|]| |[|] mc ec]; try discriminate; reflexivity.
Qed.

Lemma SFcompare_refl (x : spec_float) :
  sf_is_nan x = false -> SFcompare x x = Some Eq.
Proof.
  destruct x as [s|[|]| |[|] m e]; try discriminate; try reflexivity;
    intros _; simpl; rewrite Z.compare_refl;
    change (Pos.compare_cont Eq m m) with (Pos.compare m m);
    now rewrite Pos.compare_refl.
Qed.

Lemma SFleb_total (x y : spec_float) :
  sf_is_nan x = false -> sf_is_nan y = false ->
  SFleb x y = false -> SFcompare y x = Some Lt.
Proof.
  unfold SFleb.
  destruct x as [sx|[|]| |[|] mx ex]; try discriminate;
    destruct y as [sy|[|]| |[|] my ey]; try discriminate;
    intros _ _; simpl; try discriminate; try reflexivity;
    try (destruct sx; discriminate); try (destruct sy; discriminate).
  all: destruct (Z.compare_spec ex ey) as [->|Hc|Hc];
    try discriminate; rewrite ?Z.compare_refl;
    try (apply Z.compare_lt_iff in Hc as Hc'; rewrite ?Hc');
    try (apply Z.compare_gt_iff in Hc as Hc'; rewrite ?Hc'); try reflexivity.
  all: try (rewrite (proj2 (Z.compare_gt_iff _ _) Hc); reflexivity).
  all: try (rewrite (proj2 (Z.compare_lt_iff _ _) Hc); reflexivity).
  all: change (Pos.compare_cont Eq mx my) with (Pos.compare mx my);
    change (Pos.compare_cont Eq my mx) with (Pos.compare my mx);
    rewrite (Pos.compare_antisym mx my);
    destruct (Pos.compare mx my); simpl; try discriminate; reflexivity.
Qed.

Lemma SFleb_trans (x y z : spec_float) :
  SFleb x y = true -> SFleb y z = true -> SFleb x z = true.
Proof.
  unfold SFleb.
  destruct x as [sx|[|]| |[|] mx ex]; try discriminate;
    destruct y as [sy|[|]| |[|] my ey]; try discriminate;
    destruct z as [sz|[|]| |[|] mz ez]; try discriminate;
    simpl; try reflexivity; try discriminate; try (intros _ _; reflexivity);
    try (intros; discriminate).
  all: change (Pos.compare_cont Eq mx my) with (Pos.compare mx my);
    change (Pos.compare_cont Eq my mz) with (Pos.compare my mz);
    change (Pos.compare_cont Eq mx mz) with (Pos.compare mx mz).
  all: destruct (Z.compare_spec ex ey) as [?|?|?]; try discriminate;
    destruct (Z.compare_spec ey ez) as [?|?|?]; try discriminate;
    destruct (Z.compare_spec ex ez) as [?|?|?]; try lia; try reflexivity.
  all: destruct (Pos.compare_spec mx my) as [?|?|?]; try discriminate;
    destruct (Pos.compare_spec my mz) as [?|?|?]; try discriminate;
    destruct (Pos.compare_spec mx mz) as [?|?|?]; try lia; reflexivity.
Qed.

End SpecFloatOrder.

(** *** From the specification to the floats of the kernel *)

Lemma binary64_number (x : float) :
  PrimFloat.eqb x x = true -> sf_is_nan (FloatOps.Prim2SF x) = false.
Proof.
  rewrite FloatAxioms.eqb_spec. now destruct (FloatOps.Prim2SF x).
Qed.

#[export] Instance binary64_laws : FloatLaws float.
Proof.
  split; cbn; unfold is_number; cbn.
  - intros x Hx. rewrite FloatAxioms.leb_spec. unfold SpecFloat.SFleb.
    now rewrite SFcompare_refl by now apply binary64_number.
  - intros x y z. rewrite !FloatAxioms.leb_spec. apply SFleb_trans.
  - intros now last cooldown Hn Hl Hc Hlt.
    destruct (PrimFloat.leb last now) eqn:Hle; [reflexivity|].
    rewrite FloatAxioms.leb_spec in Hle, Hc.
    rewrite FloatAxioms.ltb_spec, FloatAxioms.sub_spec in Hlt.
    apply SFleb_total in Hle; try now apply binary64_number.
    rewrite (negative_below_nonnegative _ _
               (SFsub_negative FloatOps.prec FloatOps.emax eq_refl _ _
                  (FloatAxioms.Prim2SF_valid now)
                  (FloatAxioms.Prim2SF_valid last) Hle))
      in Hlt; [discriminate|].
    exact Hc.
Qed.

(** ** Events *)

Lemma dispatches_app (evs1 evs2 : list event) :
  dispatches (evs1 ++ evs2) = dispatches evs1 ++ dispatches evs2.
Proof. unfold dispatches. apply filter_app. Qed.

Lemma classifier_calls_app (evs1 evs2 : list event) :
  classifier_calls (evs1 ++ evs2)
  = (classifier_calls evs1 + classifier_calls evs2)%nat.
Proof.
  unfold classifier_calls. rewrite filter_app. apply length_app.
Qed.

Lemma lookups_dispatch_nothing (evs : list event) :
  forallb is_lookup evs = true -> dispatches evs = [].
Proof.
  induction evs as [|e evs IH]; simpl; intros Hl.
  - reflexivity.
  - apply andb_true_iff in Hl. destruct Hl as [He Hl].
    destruct e; simpl in *; try discriminate. now apply IH.
Qed.

Lemma lookups_call_no_classifier (evs : list event) :
  forallb is_lookup evs = true -> classifier_calls evs = 0%nat.
Proof.
  induction evs as [|e evs IH]; simpl; intros Hl.
  - reflexivity.
  - apply andb_true_iff in Hl. destruct Hl as [He Hl].
    destruct e; simpl in *; try discriminate. now apply IH.
Qed.

Lemma in_dispatches (evs : list event) (e : event) :
  In e (dispatches evs) <-> In e evs /\ is_dispatch e = true.
Proof. unfold dispatches. apply filter_In. Qed.

Section Facts.

Context {F W : Type} `{FloatOps F} (lib : PyLib F) (env : Env F W).

(** ** analyze_emotion absorbs every exception and calls the model at most
    once *)
Lemma analyze_emotion_spec (text : string) (st : State F W) :
  exists a w evs,
    analyze_emotion lib env text st
    = (Ret a, {| self := self st; world := w |}, evs)
    /\ (evs = []
        \/ exists r, evs = [Generate (prompt text) r]
             /\ generate_content env (prompt text) (world st) = (r, w)).
Proof.
  destruct st as [s w]. unfold analyze_emotion.
  destruct (negb (str_truthy text) || negb (str_truthy (strip text))).
  - exists None, w, []. split; [reflexivity | now left].
  - unfold try_except, bind, call_generate_content, ret; simpl.
    destruct (generate_content env (prompt text) w) as [[response|e] w1] eqn:Eg.
    + destruct (extract_json lib (strip response)) as [result|]; simpl;
        eexists; exists w1; eexists; (split; [reflexivity|]);
        right; eexists; split; reflexivity.
    + simpl. exists None, w1. eexists. split; [reflexivity|].
      right. eexists; split; reflexivity.
Qed.

(** ** The loop over the candidates only looks names up *)
Lemma first_existing_spec (recordings : list string) (st : State F W) :
  exists r w evs,
    first_existing env recordings st
    = (r, {| self := self st; world := w |}, evs)
    /\ forallb is_lookup evs = true
    /\ (forall e, r = Raise e -> exists name, In (Lookup name (Raise e)) evs).
Proof.
  destruct st as [s w]. revert w.
  induction recordings as [|name rest IH]; intros w; simpl.
  - exists (Ret None), w, []. repeat split; intros; discriminate.
  - unfold bind, call_get_recording_path; simpl.
    destruct (get_recording_path env name w) as [[[path|]|e] w1] eqn:El; simpl.
    + eexists; exists w1; eexists. split; [reflexivity|]. split; [reflexivity|].
      intros; discriminate.
    + destruct (IH w1) as (r & w2 & evs & E & Hl & Hr). rewrite E.
      exists r, w2. eexists. split; [reflexivity|]. split; [exact Hl|].
      intros e He. destruct (Hr e He) as [n Hn]. exists n. now right.
    + eexists; exists w1; eexists. split; [reflexivity|]. split; [reflexivity|].
      intros e' He. inversion He; subst. exists name. now left.
Qed.

Lemma map_emotion_to_recording_spec (emotion : Emotion) (st : State F W) :
  exists r w evs,
    map_emotion_to_recording env emotion st
    = (r, {| self := self st; world := w |}, evs)
    /\ forallb is_lookup evs = true
    /\ (forall e, r = Raise e -> exists name, In (Lookup name (Raise e)) evs).
Proof.
  destruct st as [s w]. unfold map_emotion_to_recording, bind, get_self; simpl.
  destruct (dict_get Emotion_eqb (_emotion_to_recording s) emotion [])
    as [|first rest] eqn:Ed; simpl.
  - exists (Ret None), w, []. repeat split; intros; discriminate.
  - destruct (first_existing_spec (first :: rest) {| self := s; world := w |})
      as (r & w1 & evs & E & Hl & Hr).
    simpl in E. rewrite E. simpl.
    destruct r as [[name|]|e]; simpl.
    + eexists; exists w1; eexists. split; [reflexivity|].
      rewrite app_nil_r. split; [exact Hl|]. intros; discriminate.
    + eexists; exists w1; eexists. split; [reflexivity|].
      rewrite app_nil_r. split; [exact Hl|]. intros; discriminate.
    + eexists; exists w1; eexists. split; [reflexivity|].
      split; [exact Hl|]. exact Hr.
Qed.

End Facts.

Section Reaction.

Context {F W : Type} `{FloatOps F} (lib : PyLib F) (env : Env F W).

(** ** The three ways a call to trigger_reaction ends

    Without a dispatch (the result is then [False] or an exception of the
    recording store), with a dispatch that raised, or with a dispatch that
    returned. *)
Lemma trigger_reaction_cases (text : string) (st st' : State F W)
    (r : outcome bool) (evs : list event) :
  trigger_reaction lib env text st = (r, st', evs) ->
  (self st' = self st /\ dispatches evs = [] /\ r <> Ret true
   /\ forall e, r = Raise e -> exists name, In (Lookup name (Raise e)) evs)
  \/ (exists name e,
        self st' = self st
        /\ dispatches evs = [Dispatch "play" name (Raise e)]
        /\ r = Ret false)
  \/ (exists name,
        self st' = set_last_reaction_time (self st) (time_time env (world st))
        /\ dispatches evs = [Dispatch "play" name (Ret tt)]
        /\ r = Ret true
        /\ fltb (fsub (time_time env (world st)) (_last_reaction_time (self st)))
                (cooldown_seconds (self st)) = false).
Proof.
  destruct st as [s w]. unfold trigger_reaction, bind, get_self; simpl.
  assert (Hquiet : forall (st1 : State F W) evs1,
            self st1 = s -> dispatches evs1 = [] ->
            (Ret false, st1, evs1) = (r, st', evs) ->
            self st' = s /\ dispatches evs = [] /\ r <> Ret true
            /\ forall e, r = Raise e ->
                 exists name, In (Lookup name (Raise e)) evs).
  { intros st1 evs1 Hs Hd E. inversion E; subst.
    repeat split; try assumption; intros; discriminate. }
  destruct (auto_react s); simpl.
  2:{ intros E. left. eapply Hquiet; [| |exact E]; reflexivity. }
  destruct (fltb (fsub (time_time env w) (_last_reaction_time s))
                 (cooldown_seconds s)) eqn:Hcool; simpl.
  { intros E. left. eapply Hquiet; [| |exact E]; reflexivity. }
  destruct (analyze_emotion_spec lib env text {| self := s; world := w |})
    as (a & w1 & evs1 & Ea & Hevs1).
  simpl in Ea. rewrite Ea.
  assert (Hd1 : dispatches evs1 = []).
  { destruct Hevs1 as [->|(r1 & -> & _)]; reflexivity. }
  destruct a as [a|]; simpl.
  2:{ intros E. left. eapply Hquiet; [| |exact E]; simpl; [reflexivity|].
      now rewrite app_nil_r. }
  destruct (fltb (confidence a) (min_confidence s)); simpl.
  { intros E. left. eapply Hquiet; [| |exact E]; simpl; [reflexivity|].
    now rewrite app_nil_r. }
  destruct (Emotion_eqb (emotion a) NEUTRAL); simpl.
  { intros E. left. eapply Hquiet; [| |exact E]; simpl; [reflexivity|].
    now rewrite app_nil_r. }
  destruct (map_emotion_to_recording_spec env (emotion a)
              {| self := s; world := w1 |})
    as (rm & w2 & evs2 & Em & Hl2 & Hr2).
  simpl in Em. rewrite Em.
  pose proof (lookups_dispatch_nothing _ Hl2) as Hd2.
  destruct rm as [[name|]|e]; simpl.
  3:{ intros E. inversion E; subst. left.
      rewrite dispatches_app, Hd1, Hd2. repeat split; try discriminate.
      intros e' He'. inversion He'; subst.
      destruct (Hr2 e' eq_refl) as [n Hn]. exists n.
      apply in_or_app. now right. }
  2:{ intros E. left. eapply Hquiet; [| |exact E]; simpl; [reflexivity|].
      now rewrite !dispatches_app, Hd1, Hd2. }
  destruct (str_truthy name); simpl.
  2:{ intros E. left. eapply Hquiet; [| |exact E]; simpl; [reflexivity|].
      now rewrite !dispatches_app, Hd1, Hd2. }
  unfold read_animation_service; simpl.
  destruct (animation_service env w2); simpl.
  2:{ intros E. left. eapply Hquiet; [| |exact E]; simpl; [reflexivity|].
      now rewrite !dispatches_app, Hd1, Hd2. }
  unfold call_get_recording_path; simpl.
  destruct (get_recording_path env name w2) as [[[path|]|e] w3]; simpl.
  3:{ intros E. inversion E; subst. left.
      rewrite !dispatches_app, Hd1, Hd2. repeat split; try discriminate.
      intros e' He'. inversion He'; subst. exists name.
      rewrite !in_app_iff. simpl. tauto. }
  2:{ intros E. left. eapply Hquiet; [| |exact E]; simpl; [reflexivity|].
      now rewrite !dispatches_app, Hd1, Hd2. }
  unfold try_except, bind, call_dispatch, put_last_reaction_time, ret; simpl.
  destruct (dispatch env "play" name w3) as [[[]|e] w4]; simpl.
  - intros E. inversion E; subst. right; right. exists name.
    rewrite !dispatches_app, Hd1, Hd2. repeat split.
  - intros E. inversion E; subst. right; left. exists name, e.
    rewrite !dispatches_app, Hd1, Hd2. repeat split.
Qed.

End Reaction.

Section Claims.

Context {F W : Type} `{FloatOps F} (lib : PyLib F) (env : Env F W).

(** ** A neutral or absent analysis ends the call

    Shared by the gates on the classification: when [analyze_emotion]
    returns [None] or a neutral emotion, the call returns [False] and has
    asked nothing of the store or of the animation service. *)
Lemma neutral_analysis_rejects (text : string) (st st1 : State F W)
    (a : option (Analysis F)) (evs1 : list event) :
  analyze_emotion lib env text st = (Ret a, st1, evs1) ->
  match a with
  | None => True
  | Some a => emotion a = NEUTRAL \/ fltb (confidence a) (min_confidence (self st)) = true
  end ->
  exists st' evs,
    trigger_reaction lib env text st = (Ret false, st', evs)
    /\ dispatches evs = []
    /\ forallb is_generate evs = true.
Proof.
  intros Ea Ha. destruct st as [s w].
  pose proof (analyze_emotion_spec lib env text {| self := s; world := w |})
    as (a' & w1 & evs1' & Ea' & Hevs).
  rewrite Ea in Ea'. inversion Ea'; subst a' st1 evs1'. clear Ea'.
  assert (Hg : forallb is_generate evs1 = true).
  { destruct Hevs as [->|(r1 & -> & _)]; reflexivity. }
  assert (Hd : dispatches evs1 = []).
  { destruct Hevs as [->|(r1 & -> & _)]; reflexivity. }
  unfold trigger_reaction, bind, get_self, call_time, ret; simpl.
  destruct (auto_react s); simpl.
  2:{ eexists; eexists; repeat split. }
  destruct (fltb (fsub (time_time env w) (_last_reaction_time s))
                 (cooldown_seconds s)); simpl.
  { eexists; eexists; repeat split. }
  rewrite Ea.
  destruct a as [a|]; simpl.
  2:{ eexists; eexists. split; [reflexivity|]. now rewrite app_nil_r. }
  simpl in Ha.
  destruct (fltb (confidence a) (min_confidence s)) eqn:Hc; simpl.
  { eexists; eexists. split; [reflexivity|]. now rewrite app_nil_r. }
  destruct Ha as [Hn|Hn]; [|discriminate].
  rewrite Hn. simpl.
  eexists; eexists. split; [reflexivity|]. now rewrite app_nil_r.
Qed.

(** C1.  A call made while [now - last_reaction_time < cooldown_seconds]
    returns [False], leaves the service and the world as they were, and
    calls no collaborator: the classifier is not invoked and nothing is
    dispatched. *)
Theorem cooldown_rejects_before_classifying (text : string) (st : State F W) :
  fltb (fsub (time_time env (world st)) (_last_reaction_time (self st)))
       (cooldown_seconds (self st)) = true ->
  trigger_reaction lib env text st = (Ret false, st, [])
  /\ classifier_calls (events_of (trigger_reaction lib env text st)) = 0%nat
  /\ dispatches (events_of (trigger_reaction lib env text st)) = [].
Proof.
  intros Hcool.
  assert (E : trigger_reaction lib env text st = (Ret false, st, [])).
  { unfold trigger_reaction, bind, get_self, call_time, ret.
    destruct (auto_react (self st)); simpl; [|reflexivity].
    rewrite Hcool. reflexivity. }
  rewrite E. repeat split.
Qed.

(** C2.  When the dispatch raises, the call returns [False] and
    [_last_reaction_time] (with the rest of the service) keeps the value it
    had before the call. *)
Theorem dispatch_failure_keeps_cooldown (text : string) (st st' : State F W)
    (r : outcome bool) (evs : list event) :
  trigger_reaction lib env text st = (r, st', evs) ->
  dispatch_raised evs ->
  r = Ret false
  /\ _last_reaction_time (self st') = _last_reaction_time (self st).
Proof.
  intros E (command & name & e & Hin).
  assert (Hd : In (Dispatch command name (Raise e)) (dispatches evs)).
  { apply in_dispatches. split; [exact Hin | reflexivity]. }
  destruct (trigger_reaction_cases lib env text st st' r evs E)
    as [(_ & Hno & _) | [(n & e' & Hs & _ & Hr) | (n & _ & Hone & _)]].
  - rewrite Hno in Hd. destruct Hd.
  - split; [exact Hr | now rewrite Hs].
  - rewrite Hone in Hd. destruct Hd as [Hd|[]]. discriminate.
Qed.

(** C3, as amended.  When the call returns [True], [_last_reaction_time]
    is the clock reading taken for the cooldown check at the start of the
    call, before the classifier and the dispatcher were called; a dispatch
    returned during the call. *)
Theorem success_records_time_of_cooldown_check (text : string)
    (st st' : State F W) (evs : list event) :
  trigger_reaction lib env text st = (Ret true, st', evs) ->
  _last_reaction_time (self st') = time_time env (world st)
  /\ dispatch_succeeded evs.
Proof.
  intros E.
  destruct (trigger_reaction_cases lib env text st st' (Ret true) evs E)
    as [(_ & _ & Hr & _) | [(n & e' & _ & _ & Hr) | (n & Hs & Hone & _)]].
  - now elim Hr.
  - discriminate.
  - split; [now rewrite Hs|].
    exists "play", n. apply (in_dispatches evs). rewrite Hone. now left.
Qed.


(** C5.  When the classification yields [NEUTRAL], the call returns
    [False] and dispatches nothing, whatever the confidence. *)
Theorem neutral_never_dispatches (text : string) (st st1 : State F W)
    (a : Analysis F) (evs1 : list event) :
  analyze_emotion lib env text st = (Ret (Some a), st1, evs1) ->
  emotion a = NEUTRAL ->
  exists st' evs,
    trigger_reaction lib env text st = (Ret false, st', evs)
    /\ dispatches evs = [].
Proof.
  intros Ea Hn.
  destruct (neutral_analysis_rejects text st st1 (Some a) evs1 Ea)
    as (st' & evs & E & Hd & _).
  - now left.
  - now exists st', evs.
Qed.

(** ** From the parsed response to the analysis *)

Lemma dict_lookup_absent {V : Type} (d : list (string * V)) (k : string) :
  (forall v, ~ In (k, v) d) -> dict_lookup String.eqb d k = None.
Proof.
  induction d as [|[k' v'] d IH]; simpl; intros Hk.
  - reflexivity.
  - destruct (String.eqb k' k) eqn:Ek.
    + apply String.eqb_eq in Ek. subst k'. elim (Hk v'). now left.
    + apply IH. intros v Hin. apply (Hk v). now right.
Qed.

(** The emotion of a returned analysis is the table's entry for the
    lower-cased emotion string, and [NEUTRAL] without one. *)
Lemma build_analysis_emotion (fields : list (string * json F))
    (raw : string) (a : Analysis F) :
  build_analysis lib (JObj fields) raw = Some a ->
  exists s,
    py_lower (dict_get String.eqb fields "emotion" (JStr EmptyString)) = Some s
    /\ emotion a = dict_get String.eqb emotion_map s NEUTRAL.
Proof.
  unfold build_analysis.
  destruct (py_lower (dict_get String.eqb fields "emotion" (JStr EmptyString)))
    as [s|]; [|discriminate].
  destruct (py_float lib (dict_get String.eqb fields "confidence" (JNum fzero)))
    as [c|]; [|discriminate].
  destruct (loggable (dict_get String.eqb fields "reasoning" (JStr EmptyString)));
    [|discriminate].
  intros E. inversion E; subst. exists s. split; reflexivity.
Qed.

(** The confidence of a returned analysis is [float] of the confidence
    field, and 0.0 without one. *)
Lemma build_analysis_confidence (fields : list (string * json F))
    (raw : string) (a : Analysis F) :
  build_analysis lib (JObj fields) raw = Some a ->
  py_float lib (dict_get String.eqb fields "confidence" (JNum fzero))
  = Some (confidence a).
Proof.
  unfold build_analysis.
  destruct (py_lower (dict_get String.eqb fields "emotion" (JStr EmptyString)))
    as [s|]; [|discriminate].
  destruct (py_float lib (dict_get String.eqb fields "confidence" (JNum fzero)))
    as [c|]; [|discriminate].
  destruct (loggable (dict_get String.eqb fields "reasoning" (JStr EmptyString)));
    [|discriminate].
  intros E. inversion E; subst. reflexivity.
Qed.

(** What [analyze_emotion] returns when the model answers [response]. *)
Lemma analyze_emotion_of_response (text response : string) (st : State F W)
    (w1 : W) :
  generate_content env (prompt text) (world st) = (Ret response, w1) ->
  analyze_emotion lib env text st = (Ret None, st, [])
  \/ analyze_emotion lib env text st
     = (Ret match extract_json lib (strip response) with
            | Some result => build_analysis lib result (strip response)
            | None => None
            end,
        {| self := self st; world := w1 |},
        [Generate (prompt text) (Ret response)]).
Proof.
  intros Eg. unfold analyze_emotion.
  destruct (negb (str_truthy text) || negb (str_truthy (strip text))).
  - now left.
  - right. unfold try_except, bind, call_generate_content, ret.
    rewrite Eg.
    destruct (extract_json lib (strip response)); reflexivity.
Qed.



(** ** The loop over the candidates, for a store that answers *)

Lemma first_existing_finds (present : string -> bool)
    (recordings : list string) (st : State F W) :
  store_holds env present ->
  exists w evs,
    first_existing env recordings st
    = (Ret (find present recordings), {| self := self st; world := w |}, evs)
    /\ forallb is_lookup evs = true.
Proof.
  intros Hstore. destruct st as [s w]. revert w.
  induction recordings as [|name rest IH]; intros w; simpl.
  - exists w, []. split; reflexivity.
  - unfold bind, call_get_recording_path; simpl.
    destruct (Hstore name w) as (path & w1 & El & Hp). rewrite El.
    destruct (present name).
    + destruct path as [path|]; [|now elim Hp].
      simpl. exists w1. eexists. split; reflexivity.
    + subst path. destruct (IH w1) as (w2 & evs & E & Hl). rewrite E.
      exists w2. eexists. split; [reflexivity | exact Hl].
Qed.

(** C8.  With a store that holds the names [present] accepts,
    [map_emotion_to_recording] asks the store about the candidates of the
    emotion in their order and returns the first one the store confirms,
    and the first candidate when it confirms none.  With the table of
    [__init__] and a store that holds "happy_wiggle" but neither "excited"
    nor "luxo_excited", excited maps to "happy_wiggle". *)
Theorem mapping_returns_first_confirmed (present : string -> bool) :
  store_holds env present ->
  (forall emotion st,
     exists st' evs,
       map_emotion_to_recording env emotion st
       = (Ret (first_confirmed present
                 (dict_get Emotion_eqb (_emotion_to_recording (self st))
                    emotion [])),
          st', evs)
       /\ forallb is_lookup evs = true)
  /\ (forall st,
        _emotion_to_recording (self st) = default_emotion_to_recording ->
        present "excited" = false ->
        present "luxo_excited" = false ->
        present "happy_wiggle" = true ->
        dict_get Emotion_eqb (_emotion_to_recording (self st)) EXCITED []
        = ["excited"; "luxo_excited"; "happy_wiggle"]
        /\ exists st' evs,
             map_emotion_to_recording env EXCITED st
             = (Ret (Some "happy_wiggle"), st', evs)).
Proof.
  intros Hstore.
  assert (Hmap : forall emotion st,
     exists st' evs,
       map_emotion_to_recording env emotion st
       = (Ret (first_confirmed present
                 (dict_get Emotion_eqb (_emotion_to_recording (self st))
                    emotion [])),
          st', evs)
       /\ forallb is_lookup evs = true).
  { intros emotion st. destruct st as [s w].
    unfold map_emotion_to_recording, bind, get_self; simpl.
    destruct (dict_get Emotion_eqb (_emotion_to_recording s) emotion [])
      as [|first rest] eqn:Ed.
    - exists {| self := s; world := w |}, []. split; reflexivity.
    - destruct (first_existing_finds present (first :: rest)
                  {| self := s; world := w |} Hstore)
        as (w1 & evs & E & Hl).
      rewrite E. unfold first_confirmed.
      destruct (find present (first :: rest)) as [name|]; simpl;
        eexists; eexists; (split; [reflexivity|]);
        now rewrite app_nil_r. }
  split; [exact Hmap|].
  intros st Htable Hex Hluxo Hwiggle.
  assert (Hc : dict_get Emotion_eqb (_emotion_to_recording (self st)) EXCITED []
               = ["excited"; "luxo_excited"; "happy_wiggle"]).
  { rewrite Htable. reflexivity. }
  split; [exact Hc|].
  destruct (Hmap EXCITED st) as (st' & evs & E & _).
  rewrite Hc in E. unfold first_confirmed in E. simpl in E.
  rewrite Hex, Hluxo, Hwiggle in E.
  now exists st', evs.
Qed.

(** ** One call and the cooldown timestamp *)

Lemma trigger_reaction_keeps_configuration (text : string)
    (st st' : State F W) (r : outcome bool) (evs : list event) :
  trigger_reaction lib env text st = (r, st', evs) ->
  cooldown_seconds (self st') = cooldown_seconds (self st).
Proof.
  intros E.
  destruct (trigger_reaction_cases lib env text st st' r evs E)
    as [(Hs & _) | [(n & e' & Hs & _) | (n & Hs & _)]];
    now rewrite Hs.
Qed.

(** After a call the timestamp is the one before it or the reading of
    the clock at the start of the call. *)
Lemma trigger_reaction_stamps_a_reading (text : string)
    (st st' : State F W) (r : outcome bool) (evs : list event) :
  trigger_reaction lib env text st = (r, st', evs) ->
  _last_reaction_time (self st') = _last_reaction_time (self st)
  \/ _last_reaction_time (self st') = time_time env (world st).
Proof.
  intros E.
  destruct (trigger_reaction_cases lib env text st st' r evs E)
    as [(Hs & _) | [(n & e' & Hs & _) | (n & Hs & _)]];
    rewrite Hs; [now left | now left | now right].
Qed.

Lemma trigger_reaction_never_goes_back `{!FloatLaws F} (text : string)
    (st st' : State F W) (r : outcome bool) (evs : list event) :
  trigger_reaction lib env text st = (r, st', evs) ->
  is_number (time_time env (world st)) = true ->
  is_number (_last_reaction_time (self st)) = true ->
  fleb fzero (cooldown_seconds (self st)) = true ->
  fleb (_last_reaction_time (self st)) (_last_reaction_time (self st')) = true.
Proof.
  intros E Hnow Hlast Hcool.
  destruct (trigger_reaction_cases lib env text st st' r evs E)
    as [(Hs & _) | [(n & e' & Hs & _) | (n & Hs & _ & _ & Hpass)]].
  - rewrite Hs. now apply fleb_refl.
  - rewrite Hs. now apply fleb_refl.
  - rewrite Hs. simpl. eapply fsub_not_lt; eassumption.
Qed.


(** C10.  When the global animation service is not set, a call dispatches
    nothing and leaves the service as it was, and it returns [False]
    whenever the recording store has answered the lookups of the mapping:
    with every other gate passed, the result is [False] all the same. *)
Theorem no_animation_service_no_reaction (text : string) (st st' : State F W)
    (r : outcome bool) (evs : list event) :
  (forall w, animation_service env w = false) ->
  trigger_reaction lib env text st = (r, st', evs) ->
  dispatches evs = []
  /\ self st' = self st
  /\ ((forall name e, ~ In (Lookup name (Raise e)) evs) -> r = Ret false).
Proof.
  intros Hnone. destruct st as [s w].
  unfold trigger_reaction, bind, get_self, call_time; simpl.
  destruct (auto_react s); simpl.
  2:{ intros E. inversion E. repeat split. }
  destruct (fltb (fsub (time_time env w) (_last_reaction_time s))
                 (cooldown_seconds s)); simpl.
  { intros E. inversion E. repeat split. }
  destruct (analyze_emotion_spec lib env text {| self := s; world := w |})
    as (a & w1 & evs1 & Ea & Hevs1).
  simpl in Ea. rewrite Ea.
  assert (Hd1 : dispatches evs1 = []).
  { destruct Hevs1 as [->|(r1 & -> & _)]; reflexivity. }
  destruct a as [a|]; simpl.
  2:{ intros E. inversion E. rewrite app_nil_r. repeat split. exact Hd1. }
  destruct (fltb (confidence a) (min_confidence s)); simpl.
  { intros E. inversion E. rewrite app_nil_r. repeat split. exact Hd1. }
  destruct (Emotion_eqb (emotion a) NEUTRAL); simpl.
  { intros E. inversion E. rewrite app_nil_r. repeat split. exact Hd1. }
  destruct (map_emotion_to_recording_spec env (emotion a)
              {| self := s; world := w1 |})
    as (rm & w2 & evs2 & Em & Hl2 & Hr2).
  simpl in Em. rewrite Em.
  pose proof (lookups_dispatch_nothing _ Hl2) as Hd2.
  destruct rm as [[name|]|e]; simpl.
  3:{ intros E. inversion E; subst.
      rewrite dispatches_app, Hd1, Hd2. repeat split.
      intros Hstore. destruct (Hr2 e eq_refl) as [n Hn].
      elim (Hstore n e). apply in_or_app. now right. }
  2:{ intros E. inversion E.
      rewrite !dispatches_app, Hd1, Hd2. repeat split. }
  destruct (str_truthy name); simpl.
  2:{ intros E. inversion E.
      rewrite !dispatches_app, Hd1, Hd2. repeat split. }
  unfold read_animation_service; simpl. rewrite Hnone. simpl.
  intros E. inversion E.
  rewrite !dispatches_app, Hd1, Hd2. repeat split.
Qed.

End Claims.

(** * The claims at work in the laboratory *)

(** C1 at work: one second after a reaction, with a cooldown of two
    seconds, the call is rejected and nothing is called. *)
Lemma cooldown_rejects_before_classifying_witness :
  fltb (fsub (time_time (lab_env happy_lab) (world cooling_down))
             (_last_reaction_time (self cooling_down)))
       (cooldown_seconds (self cooling_down)) = true
  /\ trigger_reaction lib64 (lab_env happy_lab) "what a lovely day"
       cooling_down
     = (Ret false, cooling_down, []).
Proof.
  assert (Hcool :
    fltb (fsub (time_time (lab_env happy_lab) (world cooling_down))
               (_last_reaction_time (self cooling_down)))
         (cooldown_seconds (self cooling_down)) = true)
    by (vm_compute; reflexivity).
  split; [exact Hcool|].
  exact (proj1 (cooldown_rejects_before_classifying lib64 (lab_env happy_lab)
                  "what a lovely day" cooling_down Hcool)).
Defined.

(** C2 at work: every gate passes and the dispatcher raises. *)
Lemma dispatch_failure_keeps_cooldown_witness :
  dispatch_raised
    (events_of (trigger_reaction lib64 (lab_env (with_dispatch_raising happy_lab))
                  "what a lovely day" at_100))
  /\ result_of (trigger_reaction lib64 (lab_env (with_dispatch_raising happy_lab))
                  "what a lovely day" at_100) = Ret false
  /\ _last_reaction_time
       (self (state_of (trigger_reaction lib64
                          (lab_env (with_dispatch_raising happy_lab))
                          "what a lovely day" at_100)))
     = _last_reaction_time (self at_100).
Proof.
  assert (Hraised :
    dispatch_raised
      (events_of (trigger_reaction lib64
                    (lab_env (with_dispatch_raising happy_lab))
                    "what a lovely day" at_100))).
  { exists "play", "happy_wiggle", (Exception "dispatch failed").
    vm_compute. tauto. }
  split; [exact Hraised|].
  apply (dispatch_failure_keeps_cooldown lib64
           (lab_env (with_dispatch_raising happy_lab))
           "what a lovely day" at_100
           (state_of (trigger_reaction lib64
                        (lab_env (with_dispatch_raising happy_lab))
                        "what a lovely day" at_100))
           (result_of (trigger_reaction lib64
                         (lab_env (with_dispatch_raising happy_lab))
                         "what a lovely day" at_100))
           (events_of (trigger_reaction lib64
                         (lab_env (with_dispatch_raising happy_lab))
                         "what a lovely day" at_100)));
    [|exact Hraised].
  vm_compute. reflexivity.
Defined.

(** C3 as stated fails: the call returns [True] and the dispatch returns
    when the clock reads 101.75, yet [_last_reaction_time] is 100, the
    reading of the cooldown check, which is earlier. *)
Lemma success_is_stamped_before_the_remote_calls :
  result_of (trigger_reaction lib64 (lab_env happy_lab)
               "what a lovely day" at_100) = Ret true
  /\ _last_reaction_time
       (self (state_of (trigger_reaction lib64 (lab_env happy_lab)
                          "what a lovely day" at_100)))
     = 100%float
  /\ time_time (lab_env happy_lab)
       (world (state_of (trigger_reaction lib64 (lab_env happy_lab)
                           "what a lovely day" at_100)))
     = 101.75%float
  /\ fltb (_last_reaction_time
             (self (state_of (trigger_reaction lib64 (lab_env happy_lab)
                                "what a lovely day" at_100))))
          (time_time (lab_env happy_lab)
             (world (state_of (trigger_reaction lib64 (lab_env happy_lab)
                                 "what a lovely day" at_100))))
     = true.
Proof. vm_compute. repeat split. Qed.

(** C3 as amended, at work on the same run. *)
Lemma success_records_time_of_cooldown_check_witness :
  _last_reaction_time
    (self (state_of (trigger_reaction lib64 (lab_env happy_lab)
                       "what a lovely day" at_100)))
  = time_time (lab_env happy_lab) (world at_100)
  /\ dispatch_succeeded
       (events_of (trigger_reaction lib64 (lab_env happy_lab)
                     "what a lovely day" at_100)).
Proof.
  apply (success_records_time_of_cooldown_check lib64 (lab_env happy_lab)
           "what a lovely day" at_100
           (state_of (trigger_reaction lib64 (lab_env happy_lab)
                        "what a lovely day" at_100))
           (events_of (trigger_reaction lib64 (lab_env happy_lab)
                         "what a lovely day" at_100))).
  vm_compute. reflexivity.
Defined.



(** C5 at work: neutral with confidence 0.99, above the threshold 0.7. *)
Lemma neutral_never_dispatches_witness :
  (exists a,
     result_of (analyze_emotion lib64 (lab_env neutral_lab)
                  "fine, I guess" at_100) = Ret (Some a)
     /\ emotion a = NEUTRAL
     /\ confidence a = 0.99%float
     /\ fltb (confidence a) (min_confidence (self at_100)) = false)
  /\ exists st' evs,
       trigger_reaction lib64 (lab_env neutral_lab) "fine, I guess" at_100
       = (Ret false, st', evs)
       /\ dispatches evs = [].
Proof.
  split.
  - eexists. vm_compute. repeat split.
  - eapply (neutral_never_dispatches lib64 (lab_env neutral_lab)
              "fine, I guess" at_100).
    + vm_compute. reflexivity.
    + reflexivity.
Defined.




(** A reply without the confidence field is analysed, with confidence
    0.0. *)
Example missing_confidence_is_zero :
  exists a,
    result_of (analyze_emotion lib64
                 (lab_env (working reply_without_confidence ["happy_wiggle"]))
                 "what a lovely day" at_100) = Ret (Some a)
    /\ emotion a = HAPPY
    /\ confidence a = 0%float.
Proof. eexists. vm_compute. repeat split. Qed.

(** "Joy" is lower-cased and read as excited. *)
Example joy_plays_excited :
  trigger_reaction lib64
    (lab_env (working (reply_text "Joy" "0.9") ["excited"]))
    "we won!" at_100
  = (Ret true,
     {| self := set_last_reaction_time service64 100%float;
        world := {| clock_now := 101.75%float; clock_next := [] |} |},
     [ Generate (prompt "we won!") (Ret (reply_text "Joy" "0.9"));
       Lookup "excited" (Ret (Some "recordings/excited"));
       Lookup "excited" (Ret (Some "recordings/excited"));
       Dispatch "play" "excited" (Ret tt) ]).
Proof. vm_compute. reflexivity. Qed.

(** A reply without the emotion field: neutral, hence no lookup and no
    dispatch. *)
Example missing_emotion_is_rejected :
  trigger_reaction lib64
    (lab_env (working reply_without_emotion ["idle"; "happy_wiggle"]))
    "what a lovely day" at_100
  = (Ret false,
     {| self := service64;
        world := {| clock_now := 101.5%float;
                    clock_next := [101.75%float] |} |},
     [ Generate (prompt "what a lovely day") (Ret reply_without_emotion) ]).
Proof. vm_compute. reflexivity. Qed.

(** A laboratory store that does not raise holds the names of its list. *)
Lemma lab_store_holds (F : Type) (lab : Lab) :
  lab_store_raises lab = false ->
  store_holds (@lab_env F lab)
    (fun name => existsb (String.eqb name) (lab_store lab)).
Proof.
  intros Hok name w. simpl. rewrite Hok.
  destruct (existsb (String.eqb name) (lab_store lab)).
  - eexists; eexists. split; [reflexivity | discriminate].
  - eexists; eexists. split; reflexivity.
Defined.

(** C8 at work: the example of the specification. *)
Lemma mapping_returns_first_confirmed_witness :
  store_holds (@lab_env float happy_lab) only_happy_wiggle
  /\ exists st' evs,
       map_emotion_to_recording (lab_env happy_lab) EXCITED at_100
       = (Ret (Some "happy_wiggle"), st', evs).
Proof.
  assert (Hstore : store_holds (@lab_env float happy_lab) only_happy_wiggle)
    by exact (lab_store_holds float happy_lab eq_refl).
  split; [exact Hstore|].
  exact (proj2 (proj2 (mapping_returns_first_confirmed (lab_env happy_lab)
                         only_happy_wiggle Hstore)
                  at_100 eq_refl eq_refl eq_refl eq_refl)).
Defined.

Lemma timetable_reads_numbers (w : nat) :
  is_number (time_time (timetable_env happy_lab) w) = true.
Proof.
  do 7 (destruct w as [|w]; [reflexivity|]). reflexivity.
Qed.


(** The same two reactions over the rationals. *)
Example two_reactions_on_the_rationals :
  calls libQ (lab_env happy_lab) at_100_Q after_two_Q
  /\ fleb (_last_reaction_time (self at_100_Q))
          (_last_reaction_time (self after_two_Q)) = true.
Proof.
  split; [|reflexivity].
  eapply (calls_next libQ (lab_env happy_lab) at_100_Q _ _
            "what a lovely day" _ _ clock_105_Q).
  - vm_compute. reflexivity.
  - eapply (calls_next libQ (lab_env happy_lab) _ _ _
              "what a lovely day" _ _ (world after_two_Q)).
    + vm_compute. reflexivity.
    + apply calls_done.
Qed.

(** C10 at work: the run that returns [True] with the animation service
    returns [False] without it. *)
Lemma no_animation_service_no_reaction_witness :
  result_of (trigger_reaction lib64 (lab_env happy_lab)
               "what a lovely day" at_100) = Ret true
  /\ result_of (trigger_reaction lib64
                  (lab_env (without_animation_service happy_lab))
                  "what a lovely day" at_100) = Ret false
  /\ dispatches
       (events_of (trigger_reaction lib64
                     (lab_env (without_animation_service happy_lab))
                     "what a lovely day" at_100)) = [].
Proof.
  split; [vm_compute; reflexivity|].
  destruct (no_animation_service_no_reaction lib64
              (lab_env (without_animation_service happy_lab))
              "what a lovely day" at_100
              (state_of (trigger_reaction lib64
                           (lab_env (without_animation_service happy_lab))
                           "what a lovely day" at_100))
              (result_of (trigger_reaction lib64
                            (lab_env (without_animation_service happy_lab))
                            "what a lovely day" at_100))
              (events_of (trigger_reaction lib64
                            (lab_env (without_animation_service happy_lab))
                            "what a lovely day" at_100))
              (fun _ => eq_refl))
    as (Hd & _ & Hr).
  - vm_compute. reflexivity.
  - split; [|exact Hd].
    apply Hr. intros name e Hin. vm_compute in Hin.
    repeat (destruct Hin as [Hin|Hin]; [discriminate|]). exact Hin.
Defined.

(** * Further properties of the emotion service *)

Lemma Emotion_eqb_eq (a b : Emotion) : Emotion_eqb a b = true <-> a = b.
Proof. destruct a, b; simpl; split; intros E; congruence. Qed.

Lemma isspace_lstrip_upto (n : nat) : forall l : list ascii,
  (List.length l <= n)%nat -> isspace_chars l = true -> lstrip_chars l = [].
Proof.
  induction n as [|n IH]; intros l Hlen.
  { destruct l; [reflexivity | simpl in Hlen; lia]. }
  destruct l as [|c1 r1]; [reflexivity|]. simpl in Hlen. cbn [isspace_chars lstrip_chars].
  destruct (is_space c1); [apply IH; lia|].
  destruct r1 as [|c2 r2]; [discriminate|]. simpl in Hlen.
  destruct (is_space2 c1 c2); [apply IH; lia|].
  destruct r2 as [|c3 r3]; [discriminate|]. simpl in Hlen.
  destruct (is_space3 c1 c2 c3); [apply IH; lia | discriminate].
Qed.

Lemma blank_strips_to_nothing (text : string) :
  blank text = true -> strip text = EmptyString.
Proof.
  intros Hb. unfold strip.
  now rewrite (isspace_lstrip_upto _ _ (Nat.le_refl _) Hb).
Qed.

Section MoreOfTheService.

Context {F W : Type} `{FloatOps F} (lib : PyLib F) (env : Env F W).

(** ** One run of analyze_emotion

    Either the text is blank and nothing is called, or the model is called
    once with the prompt of the text, and the analysis is read off its
    answer; an exception of the model gives [None]. *)
Lemma analyze_emotion_run (text : string) (st : State F W) :
  analyze_emotion lib env text st = (Ret None, st, [])
  \/ exists r w1 a,
       generate_content env (prompt text) (world st) = (r, w1)
       /\ analyze_emotion lib env text st
          = (Ret a, {| self := self st; world := w1 |},
             [Generate (prompt text) r])
       /\ match r with
          | Raise _ => a = None
          | Ret response =>
              a = match extract_json lib (strip response) with
                  | Some result => build_analysis lib result (strip response)
                  | None => None
                  end
          end.
Proof.
  unfold analyze_emotion.
  destruct (negb (str_truthy text) || negb (str_truthy (strip text))).
  - now left.
  - right. unfold try_except, bind, call_generate_content, ret.
    destruct (generate_content env (prompt text) (world st))
      as [[response|e] w1] eqn:Eg.
    + exists (Ret response), w1. eexists. split; [reflexivity|].
      split; [|reflexivity].
      destruct (extract_json lib (strip response)); reflexivity.
    + exists (Raise e), w1, None. repeat split.
Qed.

(** The candidate the loop returns is one of the candidates. *)
Lemma first_existing_member (recordings : list string) (st st' : State F W)
    (name : string) (evs : list event) :
  first_existing env recordings st = (Ret (Some name), st', evs) ->
  In name recordings.
Proof.
  revert st evs. induction recordings as [|n rest IH]; intros st evs; simpl.
  - unfold ret. intros E. discriminate.
  - unfold bind, call_get_recording_path.
    destruct (get_recording_path env n (world st)) as [[[path|]|e] w1].
    + simpl. intros E. inversion E. now left.
    + destruct (first_existing env rest {| self := self st; world := w1 |})
        as [[r st2] evs2] eqn:Er.
      intros E. inversion E; subst. right. eapply IH. exact Er.
    + intros E. discriminate.
Qed.

(** ** The shape of a call that reaches the dispatcher

    Every gate was passed, the model was called once, the mapping looked
    names up, the store confirmed the chosen name, and the dispatch of
    [("play", name)] is the last event. *)
Lemma trigger_reaction_dispatch_shape (text : string) (st st' : State F W)
    (r : outcome bool) (evs : list event) :
  trigger_reaction lib env text st = (r, st', evs) ->
  dispatches evs <> [] ->
  exists response w1 a evs2 w2 name path w3 rd,
    generate_content env (prompt text) (world st) = (Ret response, w1)
    /\ analyze_emotion lib env text st
       = (Ret (Some a), {| self := self st; world := w1 |},
          [Generate (prompt text) (Ret response)])
    /\ map_emotion_to_recording env (emotion a)
         {| self := self st; world := w1 |}
       = (Ret (Some name), {| self := self st; world := w2 |}, evs2)
    /\ forallb is_lookup evs2 = true
    /\ get_recording_path env name w2 = (Ret (Some path), w3)
    /\ dispatch env "play" name w3 = (rd, world st')
    /\ evs = Generate (prompt text) (Ret response)
             :: evs2 ++ [Lookup name (Ret (Some path));
                         Dispatch "play" name rd]
    /\ auto_react (self st) = true
    /\ fltb (confidence a) (min_confidence (self st)) = false
    /\ emotion a <> NEUTRAL
    /\ animation_service env w2 = true
    /\ r = match rd with Ret _ => Ret true | Raise _ => Ret false end.
Proof.
  destruct st as [s w]. unfold trigger_reaction, bind, get_self; simpl.
  destruct (auto_react s); simpl.
  2:{ intros E Hd. inversion E; subst. now elim Hd. }
  destruct (fltb (fsub (time_time env w) (_last_reaction_time s))
                 (cooldown_seconds s)); simpl.
  { intros E Hd. inversion E; subst. now elim Hd. }
  destruct (analyze_emotion_run text {| self := s; world := w |})
    as [Ea | (rg & w1 & a & Eg & Ea & Ha)]; simpl in *.
  { rewrite Ea. simpl. intros E Hd. inversion E; subst. now elim Hd. }
  rewrite Ea.
  destruct a as [a|]; simpl.
  2:{ intros E Hd. inversion E; subst. now elim Hd. }
  destruct rg as [response|e]; [|discriminate].
  destruct (fltb (confidence a) (min_confidence s)) eqn:Hconf; simpl.
  { intros E Hd. inversion E; subst. now elim Hd. }
  destruct (Emotion_eqb (emotion a) NEUTRAL) eqn:Hneutral; simpl.
  { intros E Hd. inversion E; subst. now elim Hd. }
  destruct (map_emotion_to_recording_spec env (emotion a)
              {| self := s; world := w1 |})
    as (rm & w2 & evs2 & Em & Hl2 & Hr2).
  simpl in Em. rewrite Em.
  pose proof (lookups_dispatch_nothing _ Hl2) as Hd2.
  destruct rm as [[name|]|e]; simpl.
  3:{ intros E Hd. inversion E; subst. simpl in Hd. now elim Hd. }
  2:{ intros E Hd. inversion E; subst. simpl in Hd.
      rewrite dispatches_app, Hd2 in Hd. now elim Hd. }
  destruct (str_truthy name); simpl.
  2:{ intros E Hd. inversion E; subst. simpl in Hd.
      rewrite !dispatches_app, Hd2 in Hd. now elim Hd. }
  unfold read_animation_service; simpl.
  destruct (animation_service env w2) eqn:Hservice; simpl.
  2:{ intros E Hd. inversion E; subst. simpl in Hd.
      rewrite !dispatches_app, Hd2 in Hd. now elim Hd. }
  unfold call_get_recording_path; simpl.
  destruct (get_recording_path env name w2) as [[[path|]|e] w3] eqn:El; simpl.
  3:{ intros E Hd. inversion E; subst. simpl in Hd.
      rewrite !dispatches_app, Hd2 in Hd. now elim Hd. }
  2:{ intros E Hd. inversion E; subst. simpl in Hd.
      rewrite !dispatches_app, Hd2 in Hd. now elim Hd. }
  unfold try_except, bind, call_dispatch, put_last_reaction_time, ret; simpl.
  assert (Hne : emotion a <> NEUTRAL).
  { intros Hn. apply Emotion_eqb_eq in Hn. congruence. }
  destruct (dispatch env "play" name w3) as [[[]|e] w4] eqn:Edisp; simpl;
    intros E _; inversion E; subst; simpl;
    exists response, w1, a, evs2, w2, name, path, w3;
    eexists; repeat split; try eassumption; try reflexivity.
Qed.

(** The cooldown gate on its own: a call made inside the window returns
    at once. *)
Lemma cooldown_gate (text : string) (st : State F W) :
  fltb (fsub (time_time env (world st)) (_last_reaction_time (self st)))
       (cooldown_seconds (self st)) = true ->
  trigger_reaction lib env text st = (Ret false, st, []).
Proof.
  intros Hcool. unfold trigger_reaction, bind, get_self, call_time, ret.
  destruct (auto_react (self st)); simpl; [|reflexivity].
  now rewrite Hcool.
Qed.

(** The mapping under a store that holds the names [present] accepts. *)
Lemma map_emotion_to_recording_finds (present : string -> bool)
    (emotion : Emotion) (st : State F W) :
  store_holds env present ->
  exists w evs,
    map_emotion_to_recording env emotion st
    = (Ret (first_confirmed present
              (dict_get Emotion_eqb (_emotion_to_recording (self st))
                 emotion [])),
       {| self := self st; world := w |}, evs)
    /\ forallb is_lookup evs = true.
Proof.
  intros Hstore. destruct st as [s w].
  unfold map_emotion_to_recording, bind, get_self; simpl.
  destruct (dict_get Emotion_eqb (_emotion_to_recording s) emotion [])
    as [|first rest] eqn:Ed.
  - exists w, []. split; reflexivity.
  - destruct (first_existing_finds env present (first :: rest)
                {| self := s; world := w |} Hstore)
      as (w1 & evs & E & Hl).
    rewrite E. unfold first_confirmed.
    destruct (find present (first :: rest)) as [name|]; simpl;
      exists w1; eexists; (split; [reflexivity|]);
      now rewrite app_nil_r.
Qed.

(** The mapping returns one of the candidates of the emotion. *)
Lemma map_emotion_to_recording_member (emotion : Emotion)
    (st st' : State F W) (name : string) (evs : list event) :
  map_emotion_to_recording env emotion st = (Ret (Some name), st', evs) ->
  In name (dict_get Emotion_eqb (_emotion_to_recording (self st)) emotion []).
Proof.
  unfold map_emotion_to_recording, bind, get_self; simpl.
  destruct (dict_get Emotion_eqb (_emotion_to_recording (self st)) emotion [])
    as [|first rest] eqn:Ed.
  - unfold ret. intros E. discriminate.
  - destruct (first_existing env (first :: rest) st) as [[r st1] evs1] eqn:Ef.
    destruct r as [[found|]|e]; simpl; intros E; inversion E; subst.
    + exact (first_existing_member (first :: rest) _ _ _ _ Ef).
    + now left.
Qed.

(** With a store that answers, the loop over the candidates returns. *)
Lemma first_existing_answers (recordings : list string) (st : State F W) :
  store_answers env ->
  exists found st' evs,
    first_existing env recordings st = (Ret found, st', evs).
Proof.
  intros Hstore. revert st.
  induction recordings as [|n rest IH]; intros st; simpl.
  - exists None, st, []. reflexivity.
  - unfold bind, call_get_recording_path.
    destruct (Hstore n (world st)) as (path & w1 & El). rewrite El.
    destruct path as [path|]; simpl.
    + eexists; eexists; eexists. reflexivity.
    + destruct (IH {| self := self st; world := w1 |})
        as (found & st' & evs & E).
      rewrite E. eexists; eexists; eexists. reflexivity.
Qed.

(** X1.  An analysis whose confidence is below [min_confidence] ends the
    call: it returns [False], the service is as before, and apart from
    the model nothing was called, neither the store nor the dispatcher. *)
Theorem low_confidence_rejects (text : string) (st st1 : State F W)
    (a : Analysis F) (evs1 : list event) :
  analyze_emotion lib env text st = (Ret (Some a), st1, evs1) ->
  fltb (confidence a) (min_confidence (self st)) = true ->
  exists st' evs,
    trigger_reaction lib env text st = (Ret false, st', evs)
    /\ self st' = self st
    /\ dispatches evs = []
    /\ forallb is_generate evs = true.
Proof.
  intros Ea Hlow.
  destruct (neutral_analysis_rejects lib env text st st1 (Some a) evs1 Ea)
    as (st' & evs & E & Hd & Hg).
  - now right.
  - exists st', evs. split; [exact E|]. split; [|now split].
    destruct (trigger_reaction_cases lib env text st st' (Ret false) evs E)
      as [(Hs & _) | [(n & e' & Hs & _) | (n & _ & _ & Hr & _)]];
      [exact Hs | exact Hs | discriminate].
Qed.

(** X2.  When every gate passes, the reaction is issued: reactions are on,
    the cooldown has elapsed, the analysis is confident and not neutral,
    the store holds the first confirmed candidate, the animation service
    is there and its dispatch returns.  Then the call returns [True],
    dispatches [("play", name)] exactly once, and stores the clock reading
    of the cooldown check. *)
Theorem reaction_when_every_gate_passes (present : string -> bool)
    (text name : string) (st st1 : State F W) (a : Analysis F)
    (evs1 : list event) :
  auto_react (self st) = true ->
  fltb (fsub (time_time env (world st)) (_last_reaction_time (self st)))
       (cooldown_seconds (self st)) = false ->
  analyze_emotion lib env text st = (Ret (Some a), st1, evs1) ->
  fltb (confidence a) (min_confidence (self st)) = false ->
  emotion a <> NEUTRAL ->
  store_holds env present ->
  first_confirmed present
    (dict_get Emotion_eqb (_emotion_to_recording (self st)) (emotion a) [])
  = Some name ->
  present name = true ->
  str_truthy name = true ->
  (forall w, animation_service env w = true) ->
  (forall w, exists w', dispatch env "play" name w = (Ret tt, w')) ->
  exists st' evs,
    trigger_reaction lib env text st = (Ret true, st', evs)
    /\ dispatches evs = [Dispatch "play" name (Ret tt)]
    /\ self st' = set_last_reaction_time (self st) (time_time env (world st)).
Proof.
  intros Hauto Hcool Ea Hconf Hne Hstore Hname Hpresent Htruthy Hservice
    Hdispatch.
  destruct st as [s w]. simpl in *.
  destruct (analyze_emotion_spec lib env text {| self := s; world := w |})
    as (a' & w1 & evs1' & Ea' & Hevs1).
  rewrite Ea in Ea'. inversion Ea'; subst a' st1 evs1'. clear Ea'.
  assert (Hd1 : dispatches evs1 = []).
  { destruct Hevs1 as [->|(r1 & -> & _)]; reflexivity. }
  unfold trigger_reaction, bind, get_self, call_time; simpl.
  rewrite Hauto. simpl. rewrite Hcool. simpl. rewrite Ea. simpl.
  rewrite Hconf. simpl.
  destruct (Emotion_eqb (emotion a) NEUTRAL) eqn:Hn.
  { apply Emotion_eqb_eq in Hn. now elim Hne. }
  simpl.
  destruct (map_emotion_to_recording_finds present (emotion a)
              {| self := s; world := w1 |} Hstore)
    as (w2 & evs2 & Em & Hl2).
  simpl in Em. rewrite Em, Hname. simpl. rewrite Htruthy. simpl.
  unfold read_animation_service. simpl. rewrite Hservice. simpl.
  unfold call_get_recording_path. simpl.
  destruct (Hstore name w2) as (path & w3 & El & Hp). rewrite El.
  rewrite Hpresent in Hp. destruct path as [path|]; [|now elim Hp].
  simpl. unfold try_except, bind, call_dispatch, put_last_reaction_time, ret.
  simpl. destruct (Hdispatch w3) as (w4 & Ed). rewrite Ed. simpl.
  eexists; eexists. split; [reflexivity|]. split; [|reflexivity].
  rewrite !dispatches_app, Hd1, (lookups_dispatch_nothing _ Hl2).
  reflexivity.
Qed.

(** X3.  After a call that returned [True], every call made while the
    clock is less than [cooldown_seconds] past the reading of that call's
    cooldown check returns [False], changes nothing and calls nothing:
    two calls in rapid succession give one reaction. *)
Theorem second_call_in_the_window_is_rejected (text text2 : string)
    (st st1 : State F W) (evs : list event) (w2 : W) :
  trigger_reaction lib env text st = (Ret true, st1, evs) ->
  fltb (fsub (time_time env w2) (time_time env (world st)))
       (cooldown_seconds (self st)) = true ->
  trigger_reaction lib env text2 {| self := self st1; world := w2 |}
  = (Ret false, {| self := self st1; world := w2 |}, []).
Proof.
  intros E Hwindow.
  destruct (trigger_reaction_cases lib env text st st1 (Ret true) evs E)
    as [(_ & _ & Hr & _) | [(n & e' & _ & _ & Hr) | (n & Hs & _)]].
  - now elim Hr.
  - discriminate.
  - apply cooldown_gate. simpl. rewrite Hs. simpl. exact Hwindow.
Qed.

(** X4.  A call dispatches at most once, and what it dispatches is
    [("play", name)] for a candidate [name] of an emotion other than
    neutral that the store confirmed in the same call, after exactly one
    call to the model. *)
Theorem dispatch_is_play_of_a_confirmed_candidate (text : string)
    (st st' : State F W) (r : outcome bool) (evs : list event)
    (command name : string) (rd : outcome unit) :
  trigger_reaction lib env text st = (r, st', evs) ->
  In (Dispatch command name rd) evs ->
  command = "play"
  /\ dispatches evs = [Dispatch command name rd]
  /\ (exists path, In (Lookup name (Ret (Some path))) evs)
  /\ (exists e,
        e <> NEUTRAL
        /\ In name (dict_get Emotion_eqb (_emotion_to_recording (self st))
                      e []))
  /\ classifier_calls evs = 1%nat.
Proof.
  intros E Hin.
  assert (Hd : In (Dispatch command name rd) (dispatches evs)).
  { apply in_dispatches. split; [exact Hin | reflexivity]. }
  assert (Hne : dispatches evs <> []).
  { intros Hnil. rewrite Hnil in Hd. destruct Hd. }
  destruct (trigger_reaction_dispatch_shape text st st' r evs E Hne)
    as (response & w1 & a & evs2 & w2 & n & path & w3 & rd' & _ & _ & Em
        & Hl2 & _ & _ & Hevs & _ & _ & Hneutral & _).
  assert (Hshape : dispatches evs = [Dispatch "play" n rd']).
  { rewrite Hevs. unfold dispatches at 1. simpl.
    fold (dispatches (evs2 ++ [Lookup n (Ret (Some path));
                               Dispatch "play" n rd'])).
    now rewrite dispatches_app, (lookups_dispatch_nothing _ Hl2). }
  rewrite Hshape in Hd. destruct Hd as [Hd|[]].
  inversion Hd; subst command name rd. clear Hd.
  split; [reflexivity|]. split; [exact Hshape|]. split; [|split].
  - exists path. rewrite Hevs. right. apply in_or_app. right. now left.
  - exists (emotion a). split; [exact Hneutral|].
    exact (map_emotion_to_recording_member (emotion a) _ _ n evs2 Em).
  - rewrite Hevs. unfold classifier_calls. simpl.
    fold (classifier_calls (evs2 ++ [Lookup n (Ret (Some path));
                                     Dispatch "play" n rd'])).
    now rewrite classifier_calls_app, (lookups_call_no_classifier _ Hl2).
Qed.

(** X5.  With a store that holds the names [present] accepts, a name the
    store does not hold is never dispatched: the first candidate that
    [map_emotion_to_recording] falls back to when the store confirms none
    is stopped by the lookup of line 347. *)
Theorem unheld_name_is_never_dispatched (present : string -> bool)
    (text : string) (st st' : State F W) (r : outcome bool)
    (evs : list event) (command name : string) (rd : outcome unit) :
  store_holds env present ->
  trigger_reaction lib env text st = (r, st', evs) ->
  In (Dispatch command name rd) evs ->
  present name = true.
Proof.
  intros Hstore E Hin.
  assert (Hd : In (Dispatch command name rd) (dispatches evs)).
  { apply in_dispatches. split; [exact Hin | reflexivity]. }
  assert (Hne : dispatches evs <> []).
  { intros Hnil. rewrite Hnil in Hd. destruct Hd. }
  destruct (trigger_reaction_dispatch_shape text st st' r evs E Hne)
    as (response & w1 & a & evs2 & w2 & n & path & w3 & rd' & _ & _ & _
        & Hl2 & El & _ & Hevs & _).
  assert (Hname : name = n).
  { rewrite Hevs in Hd. unfold dispatches at 1 in Hd. simpl in Hd.
    fold (dispatches (evs2 ++ [Lookup n (Ret (Some path));
                               Dispatch "play" n rd'])) in Hd.
    rewrite dispatches_app, (lookups_dispatch_nothing _ Hl2) in Hd.
    destruct Hd as [Hd|[]]. now inversion Hd. }
  subst n. destruct (Hstore name w2) as (path' & w3' & El' & Hp).
  rewrite El in El'. inversion El'; subst path' w3'.
  destruct (present name); [reflexivity | discriminate].
Qed.

(** X6.  Whatever the store does, a name [map_emotion_to_recording]
    returns is one of the candidates of the emotion; and with the table of
    [__init__] and a store that answers, it returns a name for every
    emotion, never [None]. *)
Theorem mapping_stays_in_the_candidates :
  (forall emotion st st' name evs,
     map_emotion_to_recording env emotion st = (Ret (Some name), st', evs) ->
     In name (dict_get Emotion_eqb (_emotion_to_recording (self st))
                emotion []))
  /\ (forall emotion st,
        _emotion_to_recording (self st) = default_emotion_to_recording ->
        store_answers env ->
        exists name st' evs,
          map_emotion_to_recording env emotion st
          = (Ret (Some name), st', evs)).
Proof.
  split.
  - intros emotion st st' name evs E.
    exact (map_emotion_to_recording_member emotion st st' name evs E).
  - intros emotion st Htable Hstore.
    unfold map_emotion_to_recording, bind, get_self; simpl.
    rewrite Htable.
    destruct (dict_get Emotion_eqb default_emotion_to_recording emotion [])
      as [|first rest] eqn:Ed.
    { destruct emotion; discriminate. }
    destruct (first_existing_answers (first :: rest) st Hstore)
      as (found & st' & evs & E).
    rewrite E. destruct found as [found|]; simpl;
      eexists; eexists; eexists; reflexivity.
Qed.

(** X7.  A text that is empty or made of white space only is never sent
    to the model: [analyze_emotion] returns [None] at once, and
    [trigger_reaction] returns [False] having called nothing. *)
Theorem blank_text_is_never_sent (text : string) (st : State F W) :
  blank text = true ->
  analyze_emotion lib env text st = (Ret None, st, [])
  /\ trigger_reaction lib env text st = (Ret false, st, []).
Proof.
  intros Hblank.
  assert (Ea : analyze_emotion lib env text st = (Ret None, st, [])).
  { unfold analyze_emotion.
    rewrite (blank_strips_to_nothing text Hblank). simpl.
    now rewrite orb_true_r. }
  split; [exact Ea|].
  unfold trigger_reaction, bind, get_self, call_time, ret.
  destruct (auto_react (self st)); simpl; [|reflexivity].
  destruct (fltb (fsub (time_time env (world st))
                       (_last_reaction_time (self st)))
                 (cooldown_seconds (self st))); [reflexivity|].
  now rewrite Ea.
Qed.

(** X8.  No signal is a rejection: when the call to the model raises, or
    when no JSON value can be extracted from its answer, the call returns
    [False], and neither the store nor the dispatcher is called. *)
Theorem no_signal_is_a_rejection (text : string) (st : State F W)
    (rg : outcome string) (w1 : W) :
  generate_content env (prompt text) (world st) = (rg, w1) ->
  match rg with
  | Raise _ => True
  | Ret response => extract_json lib (strip response) = None
  end ->
  exists st' evs,
    trigger_reaction lib env text st = (Ret false, st', evs)
    /\ self st' = self st
    /\ dispatches evs = []
    /\ forallb is_generate evs = true.
Proof.
  intros Eg Hnone.
  assert (Ea : exists st1 evs1,
            analyze_emotion lib env text st = (Ret None, st1, evs1)).
  { destruct (analyze_emotion_run text st)
      as [Ea | (r & w1' & a & Eg' & Ea & Ha)].
    - eexists; eexists; exact Ea.
    - rewrite Eg in Eg'. inversion Eg'; subst r w1'.
      destruct rg as [response|e].
      + rewrite Hnone in Ha. subst a. eexists; eexists; exact Ea.
      + subst a. eexists; eexists; exact Ea. }
  destruct Ea as (st1 & evs1 & Ea).
  destruct (neutral_analysis_rejects lib env text st st1 None evs1 Ea I)
    as (st' & evs & E & Hd & Hg).
  exists st', evs. split; [exact E|]. split; [|now split].
  destruct (trigger_reaction_cases lib env text st st' (Ret false) evs E)
    as [(Hs & _) | [(n & e' & Hs & _) | (n & _ & _ & Hr & _)]];
    [exact Hs | exact Hs | discriminate].
Qed.

(** X9.  What [extract_json] returns is a true value that [json.loads]
    produced from the fenced block, from the first brace-delimited object
    or from the whole response; empty objects, empty lists, [null], zero
    and the like are never returned. *)
Theorem extracted_value_is_loaded_and_true (response_text : string)
    (v : json F) :
  extract_json lib response_text = Some v ->
  truthy v = true
  /\ exists json_str,
       json_loads lib json_str = Loaded v
       /\ (search_fenced lib response_text = Some json_str
           \/ search_braces lib response_text = Some json_str
           \/ json_str = response_text).
Proof.
  unfold extract_json, try_loads, not_result. intros E.
  repeat match type of E with
         | context [search_fenced lib ?t] =>
             destruct (search_fenced lib t) eqn:?; simpl in E
         | context [search_braces lib ?t] =>
             destruct (search_braces lib t) eqn:?; simpl in E
         | context [json_loads lib ?t] =>
             destruct (json_loads lib t) eqn:?; simpl in E
         | context [truthy ?x] => destruct (truthy x) eqn:?; simpl in E
         end;
    try discriminate;
    inversion E; subst;
    (split; [assumption|]);
    eexists; (split; [eassumption|]); auto.
Qed.

(** X10.  The fenced block comes first: when the response holds a fenced
    block whose content [json.loads] turns into a true value, that value
    is what [extract_json] returns, whatever else the response holds. *)
Theorem fenced_block_comes_first (response_text json_str : string)
    (v : json F) :
  search_fenced lib response_text = Some json_str ->
  json_loads lib json_str = Loaded v ->
  truthy v = true ->
  extract_json lib response_text = Some v.
Proof.
  intros Ef El Ht. unfold extract_json, try_loads.
  rewrite Ef, El. unfold not_result. rewrite Ht. simpl.
  rewrite Ht. simpl. rewrite Ht. reflexivity.
Qed.

(** X11.  Every emotion is recognised by its own name in any letter case:
    when the emotion string of the response lower-cases to the value of an
    emotion, the analysis carries that emotion, and its [emotion_str] is
    the lower-cased name. *)
Theorem own_name_is_recognised (e : Emotion) (s raw : string)
    (fields : list (string * json F)) (a : Analysis F) :
  dict_lookup String.eqb fields "emotion" = Some (JStr s) ->
  lower s = value e ->
  build_analysis lib (JObj fields) raw = Some a ->
  emotion a = e /\ emotion_str a = lower s.
Proof.
  intros Hf Hs Hb. unfold build_analysis in Hb.
  unfold dict_get at 1 in Hb. rewrite Hf in Hb. simpl in Hb.
  destruct (py_float lib (dict_get String.eqb fields "confidence" (JNum fzero)))
    as [c|]; [|discriminate].
  destruct (loggable (dict_get String.eqb fields "reasoning"
                        (JStr EmptyString))); [|discriminate].
  inversion Hb; subst a; simpl. rewrite Hs.
  destruct e; split; reflexivity.
Qed.

End MoreOfTheService.

(** ** The further properties at work in the laboratory *)

(** X1 at work: confidence 0.85 against a threshold of 0.9. *)
Lemma low_confidence_rejects_witness :
  exists st' evs,
    trigger_reaction lib64 (lab_env happy_lab) "what a lovely day"
      strict_at_100
    = (Ret false, st', evs)
    /\ self st' = self strict_at_100
    /\ dispatches evs = []
    /\ forallb is_generate evs = true.
Proof.
  eapply (low_confidence_rejects lib64 (lab_env happy_lab)
            "what a lovely day" strict_at_100).
  - vm_compute. reflexivity.
  - vm_compute. reflexivity.
Defined.

(** X2 at work: the scenario of the specification. *)
Lemma reaction_when_every_gate_passes_witness :
  exists st' evs,
    trigger_reaction lib64 (lab_env happy_lab) "what a lovely day" at_100
    = (Ret true, st', evs)
    /\ dispatches evs = [Dispatch "play" "happy_wiggle" (Ret tt)]
    /\ self st'
       = set_last_reaction_time (self at_100)
           (time_time (lab_env happy_lab) (world at_100)).
Proof.
  eapply (reaction_when_every_gate_passes lib64 (lab_env happy_lab)
            only_happy_wiggle "what a lovely day" "happy_wiggle" at_100).
  - reflexivity.
  - vm_compute. reflexivity.
  - vm_compute. reflexivity.
  - vm_compute. reflexivity.
  - simpl. discriminate.
  - exact (lab_store_holds float happy_lab eq_refl).
  - vm_compute. reflexivity.
  - reflexivity.
  - reflexivity.
  - intros w. reflexivity.
  - intros w. eexists. reflexivity.
Defined.

(** X3 at work: a second call one second after the first. *)
Lemma second_call_in_the_window_is_rejected_witness :
  trigger_reaction lib64 (lab_env happy_lab) "and what a lovely evening"
    {| self := self (state_of (trigger_reaction lib64 (lab_env happy_lab)
                                 "what a lovely day" at_100));
       world := clock_101 |}
  = (Ret false,
     {| self := self (state_of (trigger_reaction lib64 (lab_env happy_lab)
                                  "what a lovely day" at_100));
        world := clock_101 |},
     []).
Proof.
  apply (second_call_in_the_window_is_rejected lib64 (lab_env happy_lab)
           "what a lovely day" "and what a lovely evening" at_100
           (state_of (trigger_reaction lib64 (lab_env happy_lab)
                        "what a lovely day" at_100))
           (events_of (trigger_reaction lib64 (lab_env happy_lab)
                         "what a lovely day" at_100))
           clock_101).
  - vm_compute. reflexivity.
  - vm_compute. reflexivity.
Defined.

(** X4 at work on the run of the specification. *)
Lemma dispatch_is_play_of_a_confirmed_candidate_witness :
  dispatches (events_of (trigger_reaction lib64 (lab_env happy_lab)
                           "what a lovely day" at_100))
  = [Dispatch "play" "happy_wiggle" (Ret tt)]
  /\ classifier_calls (events_of (trigger_reaction lib64 (lab_env happy_lab)
                                    "what a lovely day" at_100)) = 1%nat.
Proof.
  destruct (dispatch_is_play_of_a_confirmed_candidate lib64
              (lab_env happy_lab) "what a lovely day" at_100
              (state_of (trigger_reaction lib64 (lab_env happy_lab)
                           "what a lovely day" at_100))
              (result_of (trigger_reaction lib64 (lab_env happy_lab)
                            "what a lovely day" at_100))
              (events_of (trigger_reaction lib64 (lab_env happy_lab)
                            "what a lovely day" at_100))
              "play" "happy_wiggle" (Ret tt))
    as (_ & Hone & _ & _ & Hcalls).
  - vm_compute. reflexivity.
  - vm_compute. tauto.
  - split; [exact Hone | exact Hcalls].
Defined.

(** X5 at work: the dispatched name is one the store holds. *)
Lemma unheld_name_is_never_dispatched_witness :
  only_happy_wiggle "happy_wiggle" = true.
Proof.
  apply (unheld_name_is_never_dispatched lib64 (lab_env happy_lab)
           only_happy_wiggle "what a lovely day" at_100
           (state_of (trigger_reaction lib64 (lab_env happy_lab)
                        "what a lovely day" at_100))
           (result_of (trigger_reaction lib64 (lab_env happy_lab)
                         "what a lovely day" at_100))
           (events_of (trigger_reaction lib64 (lab_env happy_lab)
                         "what a lovely day" at_100))
           "play" "happy_wiggle" (Ret tt)).
  - exact (lab_store_holds float happy_lab eq_refl).
  - vm_compute. reflexivity.
  - vm_compute. tauto.
Defined.

(** With a store that holds none of the candidates of happy, the mapping
    falls back to "happy_wiggle" and the call stops at the lookup. *)
Example fallback_is_not_dispatched :
  trigger_reaction lib64 (lab_env empty_store_lab) "what a lovely day" at_100
  = (Ret false,
     {| self := service64;
        world := {| clock_now := 101.5%float;
                    clock_next := [101.75%float] |} |},
     [ Generate (prompt "what a lovely day") (Ret (reply_text "happy" "0.85"));
       Lookup "happy_wiggle" (Ret None);
       Lookup "excited" (Ret None);
       Lookup "happy_wiggle" (Ret None) ]).
Proof. vm_compute. reflexivity. Qed.

(** X7 at work: a space, a no-break space, a file separator, an
    ideographic space and a line feed. *)
Lemma blank_text_is_never_sent_witness :
  analyze_emotion lib64 (lab_env happy_lab) wide_blank at_100
  = (Ret None, at_100, [])
  /\ trigger_reaction lib64 (lab_env happy_lab) wide_blank at_100
     = (Ret false, at_100, []).
Proof.
  apply (blank_text_is_never_sent lib64 (lab_env happy_lab) wide_blank at_100).
  vm_compute. reflexivity.
Defined.

(** X8 at work: the model cannot be reached. *)
Lemma no_signal_is_a_rejection_witness :
  exists st' evs,
    trigger_reaction lib64 (lab_env unreachable_model_lab)
      "what a lovely day" at_100
    = (Ret false, st', evs)
    /\ self st' = self at_100
    /\ dispatches evs = []
    /\ forallb is_generate evs = true.
Proof.
  eapply (no_signal_is_a_rejection lib64 (lab_env unreachable_model_lab)
            "what a lovely day" at_100
            (Raise (Exception "deadline exceeded"))).
  - vm_compute. reflexivity.
  - exact I.
Defined.

(** X9 at work on the reply of the specification's scenario. *)
Lemma extracted_value_is_loaded_and_true_witness :
  truthy (reply_value "happy" (JNum 0.85%float)) = true
  /\ exists json_str,
       json_loads lib64 json_str = Loaded (reply_value "happy" (JNum 0.85%float))
       /\ (search_fenced lib64 (reply_text "happy" "0.85") = Some json_str
           \/ search_braces lib64 (reply_text "happy" "0.85") = Some json_str
           \/ json_str = reply_text "happy" "0.85").
Proof.
  apply (extracted_value_is_loaded_and_true lib64).
  vm_compute. reflexivity.
Defined.

(** X10 at work: the reply inside a fenced block, with words before it. *)
Lemma fenced_block_comes_first_witness :
  extract_json fenced_lib64 fenced_reply
  = Some (reply_value "happy" (JNum 0.85%float)).
Proof.
  apply (fenced_block_comes_first fenced_lib64 fenced_reply
           (reply_text "happy" "0.85")).
  - vm_compute. reflexivity.
  - vm_compute. reflexivity.
  - reflexivity.
Defined.

(** X11 at work: "Joy" is a synonym, "SURPRISED" is a name in capitals. *)
Lemma own_name_is_recognised_witness :
  exists a,
    build_analysis lib64
      (reply_value "SURPRISED" (JNum 0.85%float)) "raw"
    = Some a
    /\ emotion a = SURPRISED
    /\ emotion_str a = lower "SURPRISED".
Proof.
  eexists. split.
  - vm_compute. reflexivity.
  - apply (own_name_is_recognised lib64 SURPRISED "SURPRISED" "raw"
             [("emotion", JStr "SURPRISED"); ("confidence", JNum 0.85%float);
              ("reasoning", JStr "because")]).
    + reflexivity.
    + reflexivity.
    + vm_compute. reflexivity.
Defined.

(** * Building the service *)

(** X12.  [init_emotion_service] and the global instance.  With a
    configuration that is disabled or has no emotion section it returns
    [None] and leaves the global as it was, so an instance installed
    earlier stays the one [get_emotion_service] returns.  With an enabled
    configuration the global afterwards is what the call returns: a fresh
    service carrying the values of the configuration (or [True], 0.7 and
    2.0), the table of [__init__] and a timestamp of 0.0 when the
    constructor succeeds, and [None] when it raises, which it does without
    the package, without a non-empty API key, or when the client set-up
    raises. *)
Theorem init_emotion_service_and_the_global (process : Process)
    (config : option EmotionConfig)
    (previous : option (EmotionService float)) :
  let emotion_config := get_or config empty_config in
  let returned := fst (init_emotion_service process config previous) in
  let installed :=
    get_emotion_service (snd (init_emotion_service process config previous)) in
  (get_or (cfg_enabled emotion_config) false = false ->
   returned = None /\ installed = previous)
  /\ (get_or (cfg_enabled emotion_config) false = true ->
      installed = returned
      /\ (returned = None
          <-> (GEMINI_AVAILABLE process = false
               \/ GOOGLE_API_KEY process = None
               \/ GOOGLE_API_KEY process = Some EmptyString
               \/ exists e, genai_setup process = Raise e))
      /\ forall service,
           returned = Some service ->
           auto_react service = get_or (cfg_auto_react emotion_config) true
           /\ min_confidence service
              = get_or (cfg_min_confidence emotion_config) 0.7%float
           /\ cooldown_seconds service
              = get_or (cfg_cooldown_seconds emotion_config) 2%float
           /\ _last_reaction_time service = 0%float
           /\ _emotion_to_recording service = default_emotion_to_recording).
Proof.
  unfold init_emotion_service, get_emotion_service. cbv zeta.
  split.
  - intros Hoff. rewrite Hoff. simpl. split; reflexivity.
  - intros Hon. rewrite Hon. simpl.
    unfold EmotionService_init.
    destruct (GEMINI_AVAILABLE process) eqn:Hg; simpl.
    2:{ split; [reflexivity|]. split.
        - split; [intros _; now left | reflexivity].
        - intros service E. discriminate. }
    destruct (GOOGLE_API_KEY process) as [key|] eqn:Hk; simpl.
    2:{ split; [reflexivity|]. split.
        - split; [intros _; right; now left | reflexivity].
        - intros service E. discriminate. }
    destruct key as [|c key]; simpl.
    { split; [reflexivity|]. split.
      - split; [intros _; right; right; now left | reflexivity].
      - intros service E. discriminate. }
    destruct (genai_setup process) as [[]|e] eqn:Hs; simpl.
    + split; [reflexivity|]. split.
      * split; [discriminate|].
        intros [Hf | [Hf | [Hf | [e Hf]]]]; discriminate.
      * intros service E. inversion E; subst service. repeat split.
    + split; [reflexivity|]. split.
      * split; [intros _; right; right; right; now exists e | reflexivity].
      * intros service E. discriminate.
Qed.

(** A disabled configuration does not remove the service installed by an
    earlier call. *)
Example disabled_config_keeps_the_service :
  let installed :=
    snd (init_emotion_service ready_process (Some enabled_config) None) in
  installed = Some service64
  /\ init_emotion_service ready_process None installed
     = (None, Some service64).
Proof. vm_compute. split; reflexivity. Qed.

(** * The procedural animations *)

Lemma lower_ascii_idempotent (c : ascii) :
  lower_ascii (lower_ascii c) = lower_ascii c.
Proof.
  destruct c as [[] [] [] [] [] [] [] []]; reflexivity.
Qed.

Lemma is_byte_spec (n : nat) (c : ascii) :
  (n < 256)%nat -> is_byte n c = true <-> c = byte n.
Proof.
  intros Hn. unfold is_byte, byte. rewrite Nat.eqb_eq. split.
  - intros <-. now rewrite ascii_nat_embedding.
  - intros ->. now apply nat_ascii_embedding.
Qed.

(** The lower case of a byte is a byte outside ASCII only when the byte
    was that one. *)
Lemma lower_ascii_high (c : ascii) (n : nat) :
  (128 <= n)%nat -> is_byte n (lower_ascii c) = is_byte n c.
Proof.
  intros Hn. unfold lower_ascii, is_byte.
  destruct ((65 <=? nat_of_ascii c) && (nat_of_ascii c <=? 90))%nat eqn:Hup;
    [|reflexivity].
  apply andb_true_iff in Hup. destruct Hup as [Hl Hu].
  apply Nat.leb_le in Hl. apply Nat.leb_le in Hu.
  rewrite nat_ascii_embedding by lia.
  transitivity false; [|symmetry]; apply Nat.eqb_neq; lia.
Qed.

Lemma lower_ascii_fixes_high (c : ascii) :
  (128 <= nat_of_ascii c)%nat -> lower_ascii c = c.
Proof.
  intros Hn. unfold lower_ascii.
  destruct ((65 <=? nat_of_ascii c) && (nat_of_ascii c <=? 90))%nat eqn:Hup;
    [|reflexivity].
  apply andb_true_iff in Hup. destruct Hup as [_ Hu].
  apply Nat.leb_le in Hu. lia.
Qed.

(** A byte that starts neither of the two special characters is lowered on
    its own. *)
Lemma lower_cons (c : ascii) (s : string) :
  is_byte 196 c = false -> is_byte 226 c = false ->
  lower (String c s) = String (lower_ascii c) (lower s).
Proof.
  intros H1 H2. destruct s as [|c2 [|c3 s3]]; simpl; rewrite ?H1, ?H2;
    reflexivity.
Qed.

(** The first byte of a lowered string, when it lies outside ASCII, is the
    first byte of the string. *)
Lemma is_byte_low (n : nat) (c : ascii) :
  (nat_of_ascii c < 128 <= n)%nat -> is_byte n c = false.
Proof. intros Hn. unfold is_byte. apply Nat.eqb_neq. lia. Qed.

(** A lowered string starts with a byte outside ASCII only when the string
    starts with that byte. *)
Lemma lower_head (s : string) (n : nat) :
  (128 <= n)%nat ->
  match lower s, s with
  | String c' _, String c _ => is_byte n c = false -> is_byte n c' = false
  | EmptyString, EmptyString => True
  | _, _ => False
  end.
Proof.
  intros Hn. destruct s as [|c1 [|c2 s2]]; [exact I| |].
  - simpl. now rewrite lower_ascii_high.
  - cbn [lower].
    destruct (is_byte 196 c1 && is_byte 176 c2).
    { intros _. apply is_byte_low. vm_compute. lia. }
    destruct s2 as [|c3 s3]; [now rewrite lower_ascii_high|].
    destruct (is_byte 226 c1 && is_byte 132 c2 && is_byte 170 c3);
      [|now rewrite lower_ascii_high].
    intros _. apply is_byte_low. vm_compute. lia.
Qed.

Lemma lower_idempotent_upto (n : nat) : forall s : string,
  (String.length s <= n)%nat -> lower (lower s) = lower s.
Proof.
  induction n as [|n IH]; intros s Hlen.
  { destruct s; [reflexivity | simpl in Hlen; lia]. }
  destruct s as [|c1 s1]; [reflexivity|]. simpl in Hlen.
  assert (Hplain : is_byte 196 c1 = false -> is_byte 226 c1 = false ->
            lower (lower (String c1 s1)) = lower (String c1 s1)).
  { intros H1 H2. rewrite (lower_cons c1 s1 H1 H2).
    rewrite lower_cons.
    - rewrite lower_ascii_idempotent, IH by lia. reflexivity.
    - rewrite lower_ascii_high by lia. exact H1.
    - rewrite lower_ascii_high by lia. exact H2. }
  assert (Hkeep : forall c, (128 <= nat_of_ascii c)%nat ->
            lower (String c s1) = String c (lower s1) ->
            lower (String c (lower s1)) = String c (lower (lower s1)) ->
            lower (lower (String c s1)) = lower (String c s1)).
  { intros c Hc E1 E2. rewrite E1, E2, IH by lia. reflexivity. }
  destruct (is_byte 196 c1) eqn:H196.
  - (* the first byte of U+0130 *)
    apply (is_byte_spec 196 c1 ltac:(lia)) in H196. subst c1.
    destruct s1 as [|c2 s2]; [reflexivity|]. simpl in Hlen.
    destruct (is_byte 176 c2) eqn:H176.
    + apply (is_byte_spec 176 c2 ltac:(lia)) in H176. subst c2.
      change (lower (String (byte 196) (String (byte 176) s2)))
        with (String "i" (String (byte 204) (String (byte 135) (lower s2)))).
      rewrite !lower_cons by reflexivity.
      rewrite IH by lia. reflexivity.
    + apply Hkeep; [vm_compute; lia| |].
      * cbn [lower]. change (is_byte 196 (byte 196)) with true.
        rewrite H176. cbn [andb].
        destruct s2; reflexivity.
      * pose proof (lower_head (String c2 s2) 176 ltac:(lia)) as Hh.
        destruct (lower (String c2 s2)) as [|c' t] eqn:El; [destruct Hh|].
        specialize (Hh H176). cbn [lower].
        change (is_byte 196 (byte 196)) with true. rewrite Hh. cbn [andb].
        destruct t; reflexivity.
  - destruct (is_byte 226 c1) eqn:H226; [|now apply Hplain].
    (* the first byte of U+212A *)
    apply (is_byte_spec 226 c1 ltac:(lia)) in H226. subst c1.
    destruct s1 as [|c2 s2]; [reflexivity|]. simpl in Hlen.
    destruct s2 as [|c3 s3].
    { cbn [lower]. change (is_byte 196 (byte 226)) with false. cbn [andb].
      change (lower_ascii (byte 226)) with (byte 226).
      cbn [lower]. change (is_byte 196 (byte 226)) with false. cbn [andb].
      change (lower_ascii (byte 226)) with (byte 226).
      now rewrite lower_ascii_idempotent. }
    simpl in Hlen.
    destruct (is_byte 132 c2 && is_byte 170 c3) eqn:Hk.
    + apply andb_true_iff in Hk. destruct Hk as [H132 H170].
      apply (is_byte_spec 132 c2 ltac:(lia)) in H132.
      apply (is_byte_spec 170 c3 ltac:(lia)) in H170. subst c2 c3.
      change (lower (String (byte 226) (String (byte 132)
                                          (String (byte 170) s3))))
        with (String "k" (lower s3)).
      rewrite lower_cons by reflexivity.
      rewrite IH by lia. reflexivity.
    + apply Hkeep; [vm_compute; lia| |].
      * cbn [lower]. change (is_byte 196 (byte 226)) with false.
        change (is_byte 226 (byte 226)) with true. cbn [andb].
        rewrite Hk. reflexivity.
      * destruct (is_byte 132 c2) eqn:H132.
        -- apply (is_byte_spec 132 c2 ltac:(lia)) in H132. subst c2.
           change (is_byte 132 (byte 132)) with true in Hk. cbn [andb] in Hk.
           rewrite (lower_cons (byte 132) (String c3 s3)) by reflexivity.
           change (lower_ascii (byte 132)) with (byte 132).
           pose proof (lower_head (String c3 s3) 170 ltac:(lia)) as Hh.
           destruct (lower (String c3 s3)) as [|c' t]; [destruct Hh|].
           specialize (Hh Hk).
           set (rest := lower (String (byte 132) (String c' t))).
           cbn [lower]. change (is_byte 196 (byte 226)) with false.
           change (is_byte 226 (byte 226)) with true.
           change (is_byte 132 (byte 132)) with true.
           cbn [andb]. rewrite Hh. reflexivity.
        -- pose proof (lower_head (String c2 (String c3 s3)) 132 ltac:(lia))
             as Hh.
           destruct (lower (String c2 (String c3 s3))) as [|c' t] eqn:El;
             [destruct Hh|].
           specialize (Hh H132). cbn [lower].
           change (is_byte 196 (byte 226)) with false.
           change (is_byte 226 (byte 226)) with true. rewrite Hh.
           cbn [andb]. destruct t; reflexivity.
Qed.

Lemma lower_idempotent (s : string) : lower (lower s) = lower s.
Proof. exact (lower_idempotent_upto (String.length s) s (Nat.le_refl _)). Qed.

(** A motion of a run is a line of the animation. *)
Lemma run_steps_motions {W : Type} (move_to : Motor W) (steps : list step)
    (w : W) (servo : string) (position : Z) (duration : float)
    (r : outcome unit) :
  In (MoveTo servo position duration r)
     (events_of (run_steps move_to steps w)) ->
  In (Move servo position duration) steps.
Proof.
  revert w. induction steps as [|[s p d|secs] rest IH]; intros w; simpl.
  - intros [].
  - destruct (move_to s p d w) as [[[]|e] w1].
    + destruct (run_steps move_to rest w1) as [[r' w2] ms] eqn:Er.
      unfold events_of; simpl. intros [Hm|Hm].
      * inversion Hm; subst. now left.
      * right. apply (IH w1). rewrite Er. exact Hm.
    + unfold events_of; simpl. intros [Hm|[]].
      inversion Hm; subst. now left.
  - destruct (run_steps move_to rest w) as [[r' w2] ms] eqn:Er.
    unfold events_of; simpl. intros [Hm|Hm]; [discriminate|].
    right. apply (IH w). rewrite Er. exact Hm.
Qed.

Lemma animations_are_safe :
  forallb safe_step nod_steps = true
  /\ forallb safe_step curious_steps = true
  /\ forallb safe_step excited_steps = true
  /\ forallb safe_step sad_steps = true.
Proof. vm_compute. repeat split. Qed.

(** X13.  Whatever animation is asked for and whatever the motors do,
    every command [play_animation] sends goes to the head or the neck
    servo, with a position between 1000 and 3000 (the safe range of the
    comment at line 25) and a positive duration. *)
Theorem animations_stay_in_the_safe_range {W : Type}
    (motor_service : option (Motor W)) (animation_type : string) (w : W)
    (servo : string) (position : Z) (duration : float) (r : outcome unit) :
  In (MoveTo servo position duration r)
     (events_of (play_animation motor_service animation_type w)) ->
  (servo = "head_servo" \/ servo = "neck_servo")
  /\ (1000 <= position <= 3000)%Z
  /\ PrimFloat.ltb 0%float duration = true.
Proof.
  intros Hin.
  assert (Hstep : exists steps,
            forallb safe_step steps = true
            /\ In (Move servo position duration) steps).
  { unfold play_animation in Hin.
    destruct animations_are_safe as (Hnod & Hcur & Hexc & Hsad).
    assert (Hplay : forall steps,
              forallb safe_step steps = true ->
              In (MoveTo servo position duration r)
                 (events_of
                    match play steps motor_service w with
                    | (Ret _, w1, motions) =>
                        (Ret ("Played animation: " ++ animation_type)%string,
                         w1, motions)
                    | (Raise e, w1, motions) => (Raise e, w1, motions)
                    end) ->
              exists steps,
                forallb safe_step steps = true
                /\ In (Move servo position duration) steps).
    { intros steps Hsafe Hm. exists steps. split; [exact Hsafe|].
      unfold play in Hm. destruct motor_service as [move_to|].
      - apply (run_steps_motions move_to steps w servo position duration r).
        destruct (run_steps move_to steps w) as [[[[]|e] w1] ms]; exact Hm.
      - destruct Hm. }
    unfold anim_map, play_nod, play_curious, play_excited, play_sad in Hin.
    cbn [dict_lookup] in Hin.
    destruct (String.eqb "nod" (lower animation_type));
      [exact (Hplay _ Hnod Hin)|].
    destruct (String.eqb "curious" (lower animation_type));
      [exact (Hplay _ Hcur Hin)|].
    destruct (String.eqb "excited" (lower animation_type));
      [exact (Hplay _ Hexc Hin)|].
    destruct (String.eqb "sad" (lower animation_type));
      [exact (Hplay _ Hsad Hin)|].
    destruct Hin. }
  destruct Hstep as (steps & Hsafe & Hmove).
  rewrite forallb_forall in Hsafe. specialize (Hsafe _ Hmove).
  simpl in Hsafe.
  apply andb_true_iff in Hsafe. destruct Hsafe as [Hsafe Hd].
  apply andb_true_iff in Hsafe. destruct Hsafe as [Hsafe Hhi].
  apply andb_true_iff in Hsafe. destruct Hsafe as [Hservo Hlo].
  split; [|split; [|exact Hd]].
  - apply orb_true_iff in Hservo.
    destruct Hservo as [Hs|Hs]; apply String.eqb_eq in Hs; auto.
  - apply Z.leb_le in Hlo. apply Z.leb_le in Hhi. lia.
Qed.

Lemma run_steps_followed {W : Type} (move_to : Motor W) (steps : list step)
    (w : W) :
  (forall servo position duration w0,
     exists w1, move_to servo position duration w0 = (Ret tt, w1)) ->
  result_of (run_steps move_to steps w) = Ret tt
  /\ events_of (run_steps move_to steps w) = map followed steps.
Proof.
  intros Hobeys. revert w.
  induction steps as [|[s p d|secs] rest IH]; intros w; simpl.
  - split; reflexivity.
  - destruct (Hobeys s p d w) as (w1 & E). rewrite E.
    destruct (IH w1) as (Hr & He).
    destruct (run_steps move_to rest w1) as [[r' w2] ms].
    unfold result_of, events_of in *; simpl in *. subst. split; reflexivity.
  - destruct (IH w) as (Hr & He).
    destruct (run_steps move_to rest w) as [[r' w2] ms].
    unfold result_of, events_of in *; simpl in *. subst. split; reflexivity.
Qed.

(** X14.  An animation type that is none of nod, curious, excited and sad
    (in any letter case) moves nothing: [play_animation] answers with the
    list of the available types and sends no command. *)
Theorem unknown_animation_moves_nothing {W : Type}
    (motor_service : option (Motor W)) (animation_type : string) (w : W) :
  lower animation_type <> "nod" ->
  lower animation_type <> "curious" ->
  lower animation_type <> "excited" ->
  lower animation_type <> "sad" ->
  play_animation motor_service animation_type w
  = (Ret ("Unknown animation type: " ++ animation_type
          ++ ". Available: ['nod', 'curious', 'excited', 'sad']")%string,
     w, []).
Proof.
  intros Hnod Hcur Hexc Hsad. unfold play_animation, anim_map.
  cbn [dict_lookup].
  destruct (String.eqb_spec "nod" (lower animation_type)) as [E|_];
    [now elim Hnod|].
  destruct (String.eqb_spec "curious" (lower animation_type)) as [E|_];
    [now elim Hcur|].
  destruct (String.eqb_spec "excited" (lower animation_type)) as [E|_];
    [now elim Hexc|].
  destruct (String.eqb_spec "sad" (lower animation_type)) as [E|_];
    [now elim Hsad|].
  reflexivity.
Qed.

(** X15.  Without a motor service nothing moves, and [play_animation]
    still answers "Played animation: ..." for each of the four types: the
    answer does not tell whether the lamp moved. *)
Theorem without_motors_the_answer_is_the_same {W : Type}
    (animation_type : string) (w : W) :
  In (lower animation_type) ["nod"; "curious"; "excited"; "sad"] ->
  play_animation None animation_type w
  = (Ret ("Played animation: " ++ animation_type)%string, w, []).
Proof.
  intros Hknown. unfold play_animation, anim_map. cbn [dict_lookup].
  destruct Hknown as [E|[E|[E|[E|[]]]]]; rewrite <- E; reflexivity.
Qed.

(** X16.  The animation is chosen by the lower-cased type: the commands
    sent and the world left behind are those of the lower-cased type, and
    only the answer repeats the type as it was given. *)
Theorem animation_type_is_case_insensitive {W : Type}
    (motor_service : option (Motor W)) (animation_type : string) (w : W) :
  events_of (play_animation motor_service animation_type w)
  = events_of (play_animation motor_service (lower animation_type) w)
  /\ state_of (play_animation motor_service animation_type w)
     = state_of (play_animation motor_service (lower animation_type) w).
Proof.
  unfold play_animation. rewrite lower_idempotent.
  destruct (dict_lookup String.eqb anim_map (lower animation_type))
    as [action|]; [|split; reflexivity].
  destruct (action motor_service w) as [[[[]|e] w1] ms]; split; reflexivity.
Qed.

(** X17.  With motors that follow every command, nod ends with the head at
    the centre 2048 (the neck is not moved), curious and excited end with
    head and neck at 2048, and sad ends slumped, the head at 1300 and the
    neck at 1400: it is the one animation that does not return to the
    centre. *)
Theorem where_the_animations_end {W : Type} (move_to : Motor W)
    (animation_type : string) (w : W) :
  (forall servo position duration w0,
     exists w1, move_to servo position duration w0 = (Ret tt, w1)) ->
  let motions :=
    events_of (play_animation (Some move_to) animation_type w) in
  (lower animation_type = "nod" ->
   last_position "head_servo" motions = Some 2048%Z
   /\ last_position "neck_servo" motions = None)
  /\ (lower animation_type = "curious" \/ lower animation_type = "excited" ->
      last_position "head_servo" motions = Some 2048%Z
      /\ last_position "neck_servo" motions = Some 2048%Z)
  /\ (lower animation_type = "sad" ->
      last_position "head_servo" motions = Some 1300%Z
      /\ last_position "neck_servo" motions = Some 1400%Z).
Proof.
  intros Hobeys. cbv zeta.
  assert (Hplay : forall steps name,
            dict_lookup String.eqb (@anim_map W) name = Some (play steps) ->
            lower animation_type = name ->
            events_of (play_animation (Some move_to) animation_type w)
            = map followed steps).
  { intros steps name Hl Hn. unfold play_animation. rewrite Hn, Hl.
    unfold play.
    destruct (run_steps_followed move_to steps w Hobeys) as (Hr & He).
    destruct (run_steps move_to steps w) as [[r' w1] ms].
    unfold result_of, events_of in *; simpl in *. now subst. }
  split; [|split].
  - intros E. rewrite (Hplay nod_steps "nod" eq_refl E).
    vm_compute. split; reflexivity.
  - intros [E|E].
    + rewrite (Hplay curious_steps "curious" eq_refl E).
      vm_compute. split; reflexivity.
    + rewrite (Hplay excited_steps "excited" eq_refl E).
      vm_compute. split; reflexivity.
  - intros E. rewrite (Hplay sad_steps "sad" eq_refl E).
    vm_compute. split; reflexivity.
Qed.

(** X13 at work: the second command of "Excited" with obedient motors. *)
Lemma animations_stay_in_the_safe_range_witness :
  In (MoveTo "head_servo" 1900 0.1%float (Ret tt))
     (events_of (play_animation (Some obedient_motor) "Excited" 0%nat))
  /\ ("head_servo" = "head_servo" \/ "head_servo" = "neck_servo")
  /\ (1000 <= 1900 <= 3000)%Z
  /\ PrimFloat.ltb 0%float 0.1%float = true.
Proof.
  assert (Hin : In (MoveTo "head_servo" 1900 0.1%float (Ret tt))
                  (events_of (play_animation (Some obedient_motor)
                                "Excited" 0%nat))).
  { vm_compute. tauto. }
  split; [exact Hin|].
  exact (animations_stay_in_the_safe_range (Some obedient_motor) "Excited"
           0%nat "head_servo" 1900 0.1%float (Ret tt) Hin).
Defined.

(** X14 at work. *)
Lemma unknown_animation_moves_nothing_witness :
  play_animation (Some obedient_motor) "Dance" 0%nat
  = (Ret "Unknown animation type: Dance. Available: ['nod', 'curious', 'excited', 'sad']",
     0%nat, []).
Proof.
  apply (unknown_animation_moves_nothing (Some obedient_motor) "Dance" 0%nat);
    vm_compute; discriminate.
Defined.

(** X15 at work. *)
Lemma without_motors_the_answer_is_the_same_witness :
  play_animation None "NOD" 0%nat = (Ret "Played animation: NOD", 0%nat, []).
Proof.
  apply (without_motors_the_answer_is_the_same "NOD" 0%nat).
  vm_compute. tauto.
Defined.

(** X17 at work: sad with obedient motors. *)
Lemma where_the_animations_end_witness :
  last_position "head_servo"
    (events_of (play_animation (Some obedient_motor) "sad" 0%nat))
  = Some 1300%Z
  /\ last_position "neck_servo"
       (events_of (play_animation (Some obedient_motor) "sad" 0%nat))
     = Some 1400%Z.
Proof.
  apply (where_the_animations_end obedient_motor "sad" 0%nat).
  - intros servo position duration w0. exists (S w0). reflexivity.
  - reflexivity.
Defined.

(** * The tools of the agent *)

(** X18.  [play_recording] dispatches exactly when its gates allow it (the
    motors are not switched off, the animation service is there without
    the manual override, the lamp is awake or the recording is "sleep"):
    then it sends [("play", recording_name)] once and answers "Started
    playing recording: ..." when the dispatch returns and "Error playing
    recording ..." when it raises; otherwise it sends nothing, leaves the
    world as it is, and never answers "Started playing recording". *)
Theorem play_recording_dispatches_when_allowed {W : Type} (agent : Agent W)
    (recording_name : string) (w : W) :
  (may_play agent recording_name = true ->
   exists service rd w1,
     agent_animation_service agent = Some service
     /\ service_dispatch service "play" recording_name w = (rd, w1)
     /\ play_recording agent recording_name w
        = (match rd with
           | Ret _ => ("Started playing recording: " ++ recording_name)%string
           | Raise e =>
               ("Error playing recording " ++ recording_name ++ ": "
                ++ str_of_exn e)%string
           end,
           w1, [Dispatch "play" recording_name rd]))
  /\ (may_play agent recording_name = false ->
      exists answer,
        play_recording agent recording_name w = (answer, w, [])
        /\ answer <> ("Started playing recording: " ++ recording_name)%string).
Proof.
  unfold may_play, play_recording, _check_animation_enabled.
  destruct (get_or (motors_enabled agent) true); simpl.
  2:{ split; [discriminate|]. intros _. eexists. split; [reflexivity|].
      discriminate. }
  destruct (agent_animation_service agent) as [service|]; simpl.
  2:{ split; [discriminate|]. intros _. eexists. split; [reflexivity|].
      discriminate. }
  destruct (get_or (manual_control_override service) false); simpl.
  { split; [discriminate|]. intros _. eexists. split; [reflexivity|].
    discriminate. }
  destruct (is_sleeping agent); simpl.
  - destruct (String.eqb recording_name "sleep"); simpl.
    + split; [|discriminate]. intros _.
      destruct (service_dispatch service "play" recording_name w)
        as [[u|e] w1] eqn:Ed;
        [exists service, (Ret u), w1 | exists service, (Raise e), w1];
        rewrite Ed; repeat split.
    + split; [discriminate|]. intros _. eexists. split; [reflexivity|].
      discriminate.
  - split; [|discriminate]. intros _.
    destruct (service_dispatch service "play" recording_name w)
      as [[u|e] w1] eqn:Ed;
      [exists service, (Ret u), w1 | exists service, (Raise e), w1];
      rewrite Ed; repeat split.
Qed.

(** X20.  [set_dance_intensity] touches the modifier only for subtle,
    normal, energetic and crazy (in any letter case): every amplitude and
    every beat divisor it sets is positive, and the beat divisor is set
    only after the amplitude was.  For any other intensity nothing is
    set; and nothing is set when [get_modifier("music")] gives no
    modifier, be it that it returns none, that it raises, or that the
    animation service is missing. *)
Theorem dance_intensity_sets_positive_values {W : Type} (agent : Agent W)
    (intensity : string) (w : W) :
  let evs := events_of (set_dance_intensity agent intensity w) in
  (forall x r, In (SetAmplitude x r) evs -> PrimFloat.ltb 0%float x = true)
  /\ (forall x r, In (SetBeatDivisor x r) evs ->
        PrimFloat.ltb 0%float x = true
        /\ exists a, In (SetAmplitude a (Ret tt)) evs)
  /\ (intensity_settings (lower intensity) = None ->
      forall ev, In ev evs -> exists found, ev = GetModifier "music" found)
  /\ ((forall service music_mod w1,
         agent_animation_service agent = Some service ->
         get_modifier service "music" w <> (Ret (Some music_mod), w1)) ->
      forall ev, In ev evs -> exists found, ev = GetModifier "music" found).
Proof.
  cbv zeta. unfold set_dance_intensity.
  destruct (_check_animation_enabled agent) as [error|].
  { unfold events_of; simpl. repeat split; intros; contradiction. }
  destruct (agent_animation_service agent) as [service|].
  2:{ unfold events_of; simpl. repeat split; intros; contradiction. }
  destruct (get_modifier service "music" w) as [[[music_mod|]|e] w1] eqn:Hget.
  3:{ unfold events_of; simpl. split; [|split; [|split]].
      - intros x r [Hin|[]]. discriminate.
      - intros x r [Hin|[]]. discriminate.
      - intros _ ev [Hin|[]]. subst ev. eexists; reflexivity.
      - intros _ ev [Hin|[]]. subst ev. eexists; reflexivity. }
  2:{ unfold events_of; simpl. split; [|split; [|split]].
      - intros x r [Hin|[]]. discriminate.
      - intros x r [Hin|[]]. discriminate.
      - intros _ ev [Hin|[]]. subst ev. eexists; reflexivity.
      - intros _ ev [Hin|[]]. subst ev. eexists; reflexivity. }
  assert (Hmod : (forall service0 music_mod0 w0,
                    Some service = Some service0 ->
                    get_modifier service0 "music" w
                    <> (Ret (Some music_mod0), w0)) ->
                 False).
  { intros Hno. exact (Hno service music_mod w1 eq_refl Hget). }
  assert (Hpos : forall amplitude divisor answer,
            intensity_settings (lower intensity)
            = Some (amplitude, divisor, answer) ->
            PrimFloat.ltb 0%float amplitude = true
            /\ PrimFloat.ltb 0%float divisor = true).
  { intros amplitude divisor answer. unfold intensity_settings.
    destruct (String.eqb (lower intensity) "subtle");
      [intros E; inversion E; split; reflexivity|].
    destruct (String.eqb (lower intensity) "normal");
      [intros E; inversion E; split; reflexivity|].
    destruct (String.eqb (lower intensity) "energetic");
      [intros E; inversion E; split; reflexivity|].
    destruct (String.eqb (lower intensity) "crazy");
      [intros E; inversion E; split; reflexivity|].
    discriminate. }
  destruct (intensity_settings (lower intensity))
    as [[[amplitude divisor] answer]|] eqn:Hset.
  2:{ unfold events_of; simpl. split; [|split; [|split; [|intros Hno; elim (Hmod Hno)]]].
      - intros x r [Hin|[]]. discriminate.
      - intros x r [Hin|[]]. discriminate.
      - intros _ ev [Hin|[]]. subst ev. eexists; reflexivity. }
  destruct (Hpos amplitude divisor answer eq_refl) as [Ha Hd].
  destruct (set_amplitude music_mod amplitude w1) as [[[]|e] w2].
  2:{ unfold events_of; simpl. split; [|split; [|split; [|intros Hno; elim (Hmod Hno)]]].
      - intros x r [Hin|[Hin|[]]]; [discriminate|].
        inversion Hin; subst. exact Ha.
      - intros x r [Hin|[Hin|[]]]; discriminate.
      - discriminate. }
  destruct (set_beat_divisor music_mod divisor w2) as [[[]|e] w3];
    unfold events_of; simpl; (split; [|split; [|split; [|intros Hno; elim (Hmod Hno)]]]).
  - intros x r [Hin|[Hin|[Hin|[]]]]; try discriminate.
    inversion Hin; subst. exact Ha.
  - intros x r [Hin|[Hin|[Hin|[]]]]; try discriminate.
    inversion Hin; subst. split; [exact Hd|].
    exists amplitude. right. now left.
  - discriminate.
  - intros x r [Hin|[Hin|[Hin|[]]]]; try discriminate.
    inversion Hin; subst. exact Ha.
  - intros x r [Hin|[Hin|[Hin|[]]]]; try discriminate.
    inversion Hin; subst. split; [exact Hd|].
    exists amplitude. right. now left.
  - discriminate.
Qed.

(** X18 at work: asleep, "sleep" is played and "excited" is not. *)
Lemma play_recording_dispatches_when_allowed_witness :
  play_recording (lamp true) "sleep" 0%nat
  = ("Started playing recording: sleep", 1%nat,
     [Dispatch "play" "sleep" (Ret tt)])
  /\ exists answer,
       play_recording (lamp true) "excited" 0%nat = (answer, 0%nat, [])
       /\ answer <> "Started playing recording: excited".
Proof.
  split.
  - destruct (proj1 (play_recording_dispatches_when_allowed (lamp true)
                       "sleep" 0%nat) eq_refl)
      as (service & rd & w1 & Hs & Hd & E).
    inversion Hs; subst service. vm_compute in Hd. inversion Hd; subst rd w1.
    exact E.
  - exact (proj2 (play_recording_dispatches_when_allowed (lamp true)
                    "excited" 0%nat) eq_refl).
Defined.

(** X20 at work: "Crazy" sets 20 and 0.5. *)
Example crazy_sets_twenty_and_a_half :
  set_dance_intensity (lamp false) "Crazy" 0%nat
  = ("PARTY MODE ACTIVATED!", 2%nat,
     [GetModifier "music" (Ret true);
      SetAmplitude 20%float (Ret tt);
      SetBeatDivisor 0.5%float (Ret tt)]).
Proof. vm_compute. reflexivity. Qed.

(** * The party tools *)

Lemma append_assoc (a b c : string) :
  ((a ++ b) ++ c)%string = (a ++ (b ++ c))%string.
Proof. induction a as [|x a IH]; simpl; [reflexivity | now rewrite IH]. Qed.

Lemma startswith_iff (key s : string) :
  startswith key s = true <-> exists rest, s = (key ++ rest)%string.
Proof.
  revert s. induction key as [|a key IH]; intros s; simpl.
  - split; [intros _; now exists s | reflexivity].
  - destruct s as [|b s].
    + split; [discriminate | intros [rest E]; discriminate].
    + split.
      * intros Hs. apply andb_true_iff in Hs. destruct Hs as [Hab Hs].
        apply Ascii.eqb_eq in Hab. subst b.
        apply IH in Hs. destruct Hs as [rest E]. exists rest. now rewrite E.
      * intros [rest E]. inversion E; subst.
        apply andb_true_iff. split; [apply Ascii.eqb_refl|].
        apply IH. now exists rest.
Qed.

(** [key in s] holds exactly when [s] is some text, [key], some text. *)
Lemma contains_iff (key s : string) :
  contains key s = true
  <-> exists before rest, s = (before ++ key ++ rest)%string.
Proof.
  induction s as [|b s IH]; simpl.
  - rewrite orb_false_r. rewrite startswith_iff. split.
    + intros [rest E]. exists EmptyString, rest. exact E.
    + intros (before & rest & E). destruct before as [|x before].
      * now exists rest.
      * discriminate.
  - rewrite orb_true_iff, startswith_iff, IH. split.
    + intros [[rest E] | (before & rest & E)].
      * exists EmptyString, rest. exact E.
      * exists (String b before), rest. simpl. now rewrite E.
    + intros (before & rest & E). destruct before as [|x before].
      * left. now exists rest.
      * right. inversion E; subst. now exists before, rest.
Qed.

(** Occurrence is transitive: what holds a text holds what the text
    holds. *)
Lemma contains_trans (a b c : string) :
  contains a b = true -> contains b c = true -> contains a c = true.
Proof.
  rewrite !contains_iff.
  intros (p1 & r1 & E1) (p2 & r2 & E2). subst b c.
  exists (p2 ++ p1)%string, (r1 ++ r2)%string.
  now rewrite !append_assoc.
Qed.

(** X21.  The entry for "kids birthday" is never chosen: "birthday" stands
    before it in the table and occurs in every theme "kids birthday"
    occurs in.  A theme that holds "kids birthday", in any letter case,
    gets the query "birthday party hits", and no theme gets "kids party
    music" from the table. *)
Theorem kids_birthday_gets_the_birthday_hits (party_theme : string) :
  (forall key, matching_entry (lower party_theme)
               <> Some (key, "kids party music"))
  /\ (contains "kids birthday" (lower party_theme) = true ->
      search_query_for party_theme = "birthday party hits").
Proof.
  assert (Hkids : contains "kids birthday" (lower party_theme) = true ->
                  contains "birthday" (lower party_theme) = true).
  { apply contains_trans. reflexivity. }
  split.
  - intros key. unfold matching_entry, search_queries. cbn [find fst].
    destruct (contains "birthday" (lower party_theme)) eqn:Hb;
      [discriminate|].
    destruct (contains "kids birthday" (lower party_theme)) eqn:Hk.
    { specialize (Hkids eq_refl). discriminate. }
    repeat match goal with
           | |- context [contains ?k (lower party_theme)] =>
               destruct (contains k (lower party_theme)); [discriminate|]
           end.
    discriminate.
  - intros Hk. unfold search_query_for, matching_entry, search_queries.
    cbn [find fst]. rewrite (Hkids Hk). reflexivity.
Qed.

(** The docstring's own example. *)
Example kids_birthday_example :
  search_query_for "Kids Birthday" = "birthday party hits".
Proof. vm_compute. reflexivity. Qed.

Lemma search_query_is_not_empty (party_theme : string) :
  str_truthy (search_query_for party_theme) = true.
Proof.
  assert (Hdefault : str_truthy (party_theme ++ " party music")%string = true).
  { destruct party_theme; reflexivity. }
  unfold search_query_for.
  destruct (matching_entry (lower party_theme)) as [[key query]|];
    [|exact Hdefault].
  destruct (str_truthy query) eqn:Hq; [exact Hq | exact Hdefault].
Qed.

(** X22.  [play_party_music] at its edges.  When the agent has its own
    [play_party_music_internal], the tool is that method and Spotify is not
    touched.  Otherwise the tool raises nothing; without a Spotify service,
    or with one that lacks [_sp], it answers that Spotify is not connected
    and searches nothing; and a search it starts is for the query of the
    theme, which is never empty. *)
Theorem party_music_at_its_edges {W : Type} (agent : PartyAgent W)
    (party_theme : string) (w : W) :
  (forall internal,
     play_party_music_internal agent = Some internal ->
     play_party_music agent party_theme w
     = (fst (internal party_theme w), snd (internal party_theme w),
        [Internal party_theme]))
  /\ (play_party_music_internal agent = None ->
      (exists answer,
         result_of (play_party_music agent party_theme w) = Ret answer)
      /\ (match spotify_service agent with
          | Some spotify => has_sp spotify = false
          | None => True
          end ->
          play_party_music agent party_theme w
          = (Ret "Spotify is not connected. Please set up Spotify first to play party music.",
             w, []))
      /\ forall query r,
           In (PlaySearch query r)
              (events_of (play_party_music agent party_theme w)) ->
           query = search_query_for party_theme
           /\ str_truthy query = true).
Proof.
  unfold play_party_music. split.
  - intros internal Hi. rewrite Hi.
    destruct (internal party_theme w) as [r w1]. reflexivity.
  - intros Hnone. rewrite Hnone.
    pose proof (search_query_is_not_empty party_theme) as Hq.
    destruct (spotify_service agent) as [spotify|].
    2:{ split; [eexists; reflexivity|]. split; [reflexivity|].
        intros query r []. }
    destruct (has_sp spotify).
    2:{ split; [eexists; reflexivity|]. split; [reflexivity|].
        intros query r []. }
    destruct (play_search spotify (search_query_for party_theme) w)
      as [[[]|e] w1].
    + destruct (get_current_track spotify w1) as [[[track|]|e] w2].
      * destruct (track_name track) as [name|];
          [destruct (track_artist track) as [artist|]|];
          (split; [eexists; reflexivity|]);
          (split; [discriminate|]);
          intros query r Hin;
          unfold events_of in Hin; simpl in Hin;
          destruct Hin as [Hin|[Hin|[Hin|[]]]]; try discriminate;
          inversion Hin; subst; (split; [reflexivity | exact Hq]).
      * split; [eexists; reflexivity|]. split; [discriminate|].
        intros query r Hin. unfold events_of in Hin; simpl in Hin.
        destruct Hin as [Hin|[Hin|[Hin|[]]]]; try discriminate.
        inversion Hin; subst. split; [reflexivity | exact Hq].
      * split; [eexists; reflexivity|]. split; [discriminate|].
        intros query r Hin. unfold events_of in Hin; simpl in Hin.
        destruct Hin as [Hin|[Hin|[Hin|[]]]]; try discriminate.
        inversion Hin; subst. split; [reflexivity | exact Hq].
    + split; [eexists; reflexivity|]. split; [discriminate|].
      intros query r Hin. unfold events_of in Hin; simpl in Hin.
      destruct Hin as [Hin|[]].
      inversion Hin; subst. split; [reflexivity | exact Hq].
    + split; [eexists; reflexivity|]. split; [discriminate|].
      intros query r Hin. unfold events_of in Hin; simpl in Hin.
      destruct Hin as [Hin|[]].
      inversion Hin; subst. split; [reflexivity | exact Hq].
Qed.

(** A theme no key occurs in is searched as it was given. *)
Example unknown_theme_is_searched_as_given :
  play_party_music connected_agent "Pirate" 0%nat
  = (Ret "Party music started! Now playing: Celebration by The Band", 1%nat,
     [PlaySearch "Pirate party music" (Ret true);
      SleepOneSecond; GetCurrentTrack]).
Proof. vm_compute. reflexivity. Qed.

(** The plan of every theme is one of five animations with colour
    components of a byte. *)
Lemma rgb_plan_is_valid (theme_lower : string) :
  let '(animation, red, green, blue, _) := rgb_plan theme_lower in
  In animation ["party"; "pulse"; "ripple"; "burst"; "wave"]
  /\ (0 <= red <= 255)%Z /\ (0 <= green <= 255)%Z /\ (0 <= blue <= 255)%Z.
Proof.
  unfold rgb_plan.
  repeat match goal with
         | |- context [contains ?k theme_lower] =>
             destruct (contains k theme_lower); cbn [orb]
         end;
    cbv iota beta; (split; [simpl; tauto | lia]).
Qed.

(** X23.  For every theme [party_rgb_animation] calls
    [play_rgb_animation] exactly once, with one of the animations party,
    pulse, ripple, burst and wave and with red, green and blue between 0
    and 255; and the letter case of the theme changes nothing at all. *)
Theorem party_lights_are_one_valid_call {W : Type}
    (play_rgb_animation : string -> Z -> Z -> Z -> W -> outcome string * W)
    (party_theme : string) (w : W) :
  (exists animation red green blue r,
     events_of (party_rgb_animation play_rgb_animation party_theme w)
     = [PlayRgbAnimation animation red green blue r]
     /\ In animation ["party"; "pulse"; "ripple"; "burst"; "wave"]
     /\ (0 <= red <= 255)%Z /\ (0 <= green <= 255)%Z
     /\ (0 <= blue <= 255)%Z)
  /\ party_rgb_animation play_rgb_animation party_theme w
     = party_rgb_animation play_rgb_animation (lower party_theme) w.
Proof.
  split.
  - unfold party_rgb_animation.
    pose proof (rgb_plan_is_valid (lower party_theme)) as Hvalid.
    destruct (rgb_plan (lower party_theme))
      as [[[[animation red] green] blue] opening].
    destruct (play_rgb_animation animation red green blue w) as [[result|e] w1];
      exists animation, red, green, blue; eexists;
      (split; [reflexivity | exact Hvalid]).
  - unfold party_rgb_animation. now rewrite lower_idempotent.
Qed.

(** A theme with both "birthday" and "christmas" gets the birthday
    lights. *)
Example birthday_comes_before_christmas :
  rgb_plan (lower "Christmas Birthday")
  = ("party", 255, 100, 200,
     "Party lights activated! Colorful celebration mode with rainbow animations! ")%Z.
Proof. vm_compute. reflexivity. Qed.

(** * Rock, paper, scissors *)

Lemma extended_fingers_at_most_four (landmark_y : nat -> float) :
  (extended_fingers landmark_y <= 4)%nat.
Proof.
  unfold extended_fingers.
  eapply Nat.le_trans; [apply filter_length_le|]. simpl. lia.
Qed.

(** X24.  Whatever the landmarks of the hand are, the move read off them
    is Rock, Paper or Scissors, never "Unknown": Paper exactly when all
    four fingers are extended, Scissors exactly when two are (whichever
    two), and Rock otherwise, three extended fingers included. *)
Theorem hand_is_read_as_a_move (landmark_y : nat -> float) :
  let n := extended_fingers landmark_y in
  In (user_move_of n) moves
  /\ (user_move_of n = "Paper" <-> n = 4%nat)
  /\ (user_move_of n = "Scissors" <-> n = 2%nat)
  /\ (user_move_of n = "Rock" <-> n <> 4%nat /\ n <> 2%nat).
Proof.
  cbv zeta. pose proof (extended_fingers_at_most_four landmark_y) as Hle.
  destruct (extended_fingers landmark_y) as [|[|[|[|[|n]]]]]; simpl;
    try lia;
    (split; [tauto|]);
    repeat split; intros; try discriminate; try lia; try tauto.
Qed.

(** X25.  The referee is fair.  For any two moves of the game the verdict
    is a tie exactly when the moves are equal; the user wins exactly when
    the lamp would lose with the roles exchanged; and apart from ties each
    game has one winner. *)
Theorem the_referee_is_fair (user_move bot_move : string) :
  In user_move moves ->
  In bot_move moves ->
  (judge user_move bot_move = "It's a Tie!" <-> user_move = bot_move)
  /\ (judge user_move bot_move = "You Win!"
      <-> judge bot_move user_move = "I Win!")
  /\ (judge user_move bot_move = "I Win!"
      <-> judge bot_move user_move = "You Win!").
Proof.
  intros Hu Hb. unfold moves in *. simpl in Hu, Hb.
  destruct Hu as [<-|[<-|[<-|[]]]]; destruct Hb as [<-|[<-|[<-|[]]]];
    vm_compute; repeat split; intros; try discriminate; reflexivity.
Qed.

Lemma choice_is_a_move (index : nat) : In (choice index) moves.
Proof.
  unfold choice, moves.
  pose proof (Nat.mod_upper_bound index 3) as Hlt.
  destruct (index mod 3)%nat as [|[|[|n]]]; simpl; try tauto.
  lia.
Qed.

Lemma read_frames_inside {W : Type} (vision : Vision W) (n : nat) (w : W) :
  forallb inside_the_game (events_of (read_frames vision n w)) = true.
Proof.
  revert w. induction n as [|n IH]; intros w; simpl; [reflexivity|].
  destruct (cap_read vision w) as [[[]|e] w1]; try reflexivity.
  specialize (IH w1).
  destruct (read_frames vision n w1) as [[r w2] evs].
  unfold events_of in *; simpl in *. exact IH.
Qed.

Lemma play_round_inside {W : Type} (vision : Vision W)
    (landmark_y : nat -> float) (w : W) :
  forallb inside_the_game (events_of (play_round vision landmark_y w)) = true.
Proof.
  unfold play_round.
  destruct (random_index vision w) as [index w1].
  destruct (rps_animation_service vision) as [service_dispatch|];
    [|reflexivity].
  destruct (service_dispatch "play" _ w1) as [[u|e] w2]; reflexivity.
Qed.

Lemma look_and_play_inside {W : Type} (vision : Vision W) (w : W) :
  forallb inside_the_game (events_of (look_and_play vision w)) = true.
Proof.
  unfold look_and_play.
  destruct (hands_enter vision w) as [[u|e] w1]; [|reflexivity].
  pose proof (read_frames_inside vision 5 w1) as Hreads.
  destruct (read_frames vision 5 w1) as [[ret w2] reads].
  unfold events_of in Hreads; simpl in Hreads.
  destruct ret as [[]|e]; try exact Hreads.
  destruct (cvt_color vision w2) as [[u'|e] w3].
  2:{ unfold events_of; simpl. now rewrite forallb_app, Hreads. }
  destruct (hands_process vision w3) as [[[landmark_y|]|e] w4].
  - pose proof (play_round_inside vision landmark_y w4) as Hround.
    destruct (play_round vision landmark_y w4) as [[r w5] evs].
    unfold events_of in *; simpl in *.
    rewrite forallb_app, Hreads. simpl. exact Hround.
  - unfold events_of; simpl. now rewrite forallb_app, Hreads.
  - unfold events_of; simpl. now rewrite forallb_app, Hreads.
Qed.

Lemma inside_is_not_a_release (evs : list camera_event) (r : outcome unit) :
  forallb inside_the_game evs = true -> ~ In (Release r) evs.
Proof.
  intros Hin Hr. rewrite forallb_forall in Hin.
  specialize (Hin _ Hr). discriminate.
Qed.

(** X26.  The camera is released exactly when it was opened.  When
    [isOpened()] was true, [cap.release()] is the last call of the game and
    the only release, whatever happened in between, an exception
    included; when the lamp sleeps nothing is called at all; and when the
    camera could not be opened it is not released. *)
Theorem camera_is_released_when_opened {W : Type} (vision : Vision W)
    (sleeping : bool) (w : W) :
  let evs := events_of (play_rock_paper_scissors vision sleeping w) in
  (sleeping = true -> evs = [])
  /\ (In (IsOpened true) evs ->
      exists u between r,
        evs = VideoCapture (Ret u) :: IsOpened true :: between ++ [Release r]
        /\ forallb inside_the_game between = true)
  /\ (~ In (IsOpened true) evs -> forall r, ~ In (Release r) evs).
Proof.
  cbv zeta. unfold play_rock_paper_scissors.
  destruct (import_animation_service vision w) as [[u0|e] w0].
  2:{ unfold events_of; simpl. split; [reflexivity|].
      split; [intros [] | intros _ r []]. }
  destruct sleeping.
  { unfold events_of; simpl. split; [reflexivity|].
    split; [intros [] | intros _ r []]. }
  split; [discriminate|].
  destruct (solutions_hands vision w0) as [[u1|e] w1].
  2:{ unfold events_of; simpl. split; [intros [] | intros _ r []]. }
  destruct (video_capture vision w1) as [[u|e] w2].
  2:{ unfold events_of; simpl. split.
      - intros [Hin|[]]. discriminate.
      - intros _ r [Hin|[]]. discriminate. }
  destruct (is_opened vision w2) as [[[]|e] w3]; simpl.
  3:{ unfold events_of; simpl. split.
      - intros [Hin|[]]. discriminate.
      - intros _ r [Hin|[]]. discriminate. }
  2:{ unfold events_of; simpl. split.
      - intros [Hin|[Hin|[]]]; discriminate.
      - intros _ r [Hin|[Hin|[]]]; discriminate. }
  pose proof (look_and_play_inside vision w3) as Hinside.
  destruct (look_and_play vision w3) as [[r w4] evs].
  unfold events_of in Hinside; simpl in Hinside.
  destruct (cap_release vision w4) as [[u'|e] w5];
    unfold events_of; simpl; (split;
      [ intros _; exists u, evs; eexists; split; [reflexivity | exact Hinside]
      | intros Hno; elim Hno; right; now left ]).
Qed.

(** Inside the [try] block a call that raises ends the block with its
    exception. *)
Lemma read_frames_failure {W : Type} (vision : Vision W) (n : nat) (w : W)
    (ev : camera_event) (e : exn) :
  In ev (events_of (read_frames vision n w)) -> failure ev = Some e ->
  result_of (read_frames vision n w) = Raise e.
Proof.
  revert w. induction n as [|n IH]; intros w; simpl; [intros []|].
  destruct (cap_read vision w) as [[[]|e'] w1].
  - specialize (IH w1). destruct (read_frames vision n w1) as [[r w2] evs].
    unfold events_of, result_of in *; simpl in *.
    intros [<-|Hin] Hf; [discriminate | now apply IH].
  - unfold events_of, result_of; simpl. intros [<-|[]] Hf. discriminate.
  - unfold events_of, result_of; simpl. intros [<-|[]] Hf.
    simpl in Hf. now inversion Hf.
Qed.

Lemma play_round_failure {W : Type} (vision : Vision W)
    (landmark_y : nat -> float) (w : W) (ev : camera_event) (e : exn) :
  In ev (events_of (play_round vision landmark_y w)) -> failure ev = Some e ->
  result_of (play_round vision landmark_y w) = Raise e.
Proof.
  unfold play_round.
  destruct (random_index vision w) as [index w1].
  destruct (rps_animation_service vision) as [service_dispatch|].
  - destruct (service_dispatch "play" _ w1) as [[u|e'] w2];
      unfold events_of, result_of; simpl;
      intros [<-|[<-|[]]] Hf; try discriminate.
    simpl in Hf. now inversion Hf.
  - unfold events_of, result_of; simpl. intros [<-|[]] Hf. discriminate.
Qed.

Lemma look_and_play_failure {W : Type} (vision : Vision W) (w : W)
    (ev : camera_event) (e : exn) :
  In ev (events_of (look_and_play vision w)) -> failure ev = Some e ->
  result_of (look_and_play vision w) = Raise e.
Proof.
  unfold look_and_play.
  destruct (hands_enter vision w) as [[u|e'] w1].
  2:{ unfold events_of, result_of; simpl. intros [<-|[]] Hf.
      simpl in Hf. now inversion Hf. }
  pose proof (read_frames_failure vision 5 w1) as Hreads.
  destruct (read_frames vision 5 w1) as [[ret w2] reads].
  unfold events_of, result_of in Hreads; simpl in Hreads.
  assert (Hok : forall b ev0 e0, ret = Ret b -> In ev0 reads ->
            failure ev0 = Some e0 -> False).
  { intros b ev0 e0 -> Hin Hf. specialize (Hreads ev0 e0 Hin Hf).
    discriminate. }
  destruct ret as [[]|e'].
  3:{ unfold events_of, result_of; simpl. intros [<-|Hin] Hf;
        [discriminate|].
      specialize (Hreads ev e Hin Hf). now inversion Hreads. }
  2:{ unfold events_of, result_of; simpl. intros [<-|Hin] Hf;
        [discriminate | now elim (Hok false ev e eq_refl Hin Hf)]. }
  destruct (cvt_color vision w2) as [[u'|e'] w3].
  2:{ unfold events_of, result_of; simpl. intros [<-|Hin] Hf;
        [discriminate|].
      apply in_app_or in Hin. destruct Hin as [Hin|[<-|[]]].
      - now elim (Hok true ev e eq_refl Hin Hf).
      - simpl in Hf. now inversion Hf. }
  destruct (hands_process vision w3) as [[[landmark_y|]|e'] w4].
  - pose proof (play_round_failure vision landmark_y w4) as Hround.
    destruct (play_round vision landmark_y w4) as [[r w5] evs].
    unfold events_of, result_of in *; simpl in *.
    intros [<-|Hin] Hf; [discriminate|].
    apply in_app_or in Hin. destruct Hin as [Hin|[<-|[<-|Hin]]];
      try discriminate.
    + now elim (Hok true ev e eq_refl Hin Hf).
    + now apply (Hround ev e).
  - unfold events_of, result_of; simpl. intros [<-|Hin] Hf;
      [discriminate|].
    apply in_app_or in Hin. destruct Hin as [Hin|[<-|[<-|[]]]];
      try discriminate.
    now elim (Hok true ev e eq_refl Hin Hf).
  - unfold events_of, result_of; simpl. intros [<-|Hin] Hf;
      [discriminate|].
    apply in_app_or in Hin. destruct Hin as [Hin|[<-|[<-|[]]]];
      try discriminate.
    + now elim (Hok true ev e eq_refl Hin Hf).
    + simpl in Hf. now inversion Hf.
Qed.

(** X27.  An exception leaves [play_rock_paper_scissors] only from a
    statement outside the [try] block: the import of line 35, the lookup
    [mp.solutions.hands], [cv2.VideoCapture], [cap.isOpened] or
    [cap.release].  An exception of [cap.isOpened] does leave it, and the
    camera is then not released.  Every exception raised inside the [try]
    block becomes the answer "Oops, something went wrong while playing:"
    with its message, once the camera is released. *)
Theorem only_the_camera_can_make_the_game_raise {W : Type}
    (vision : Vision W) (sleeping : bool) (w : W) :
  let run := play_rock_paper_scissors vision sleeping w in
  (forall e,
     result_of run = Raise e ->
     (exists w0, import_animation_service vision w = (Raise e, w0))
     \/ (exists u0 w0 w1,
           import_animation_service vision w = (Ret u0, w0)
           /\ solutions_hands vision w0 = (Raise e, w1))
     \/ In (VideoCapture (Raise e)) (events_of run)
     \/ (exists u0 w0 u1 w1 u2 w2 w3,
           import_animation_service vision w = (Ret u0, w0)
           /\ solutions_hands vision w0 = (Ret u1, w1)
           /\ video_capture vision w1 = (Ret u2, w2)
           /\ is_opened vision w2 = (Raise e, w3))
     \/ In (Release (Raise e)) (events_of run))
  /\ (forall e u0 w0 u1 w1 u2 w2 w3,
        sleeping = false ->
        import_animation_service vision w = (Ret u0, w0) ->
        solutions_hands vision w0 = (Ret u1, w1) ->
        video_capture vision w1 = (Ret u2, w2) ->
        is_opened vision w2 = (Raise e, w3) ->
        result_of run = Raise e
        /\ forall r, ~ In (Release r) (events_of run))
  /\ (forall ev e u,
        In ev (events_of run) ->
        failure ev = Some e ->
        In (Release (Ret u)) (events_of run) ->
        result_of run
        = Ret ("Oops, something went wrong while playing: "
               ++ str_of_exn e)%string).
Proof.
  cbv zeta. unfold play_rock_paper_scissors.
  destruct (import_animation_service vision w) as [[u0|e0] w0] eqn:Ei.
  2:{ unfold result_of, events_of; simpl. split; [|split].
      - intros e E. inversion E; subst. left. now exists w0.
      - intros; congruence.
      - intros ev e u []. }
  destruct sleeping.
  { unfold result_of, events_of; simpl. split; [|split].
    - discriminate.
    - discriminate.
    - intros ev e u []. }
  destruct (solutions_hands vision w0) as [[u1|e1] w1] eqn:Es.
  2:{ unfold result_of, events_of; simpl. split; [|split].
      - intros e E. inversion E; subst. right. left.
        exists u0, w0, w1. split; [reflexivity | exact Es].
      - intros e u0' w0' u1 w1' u2 w2 w3 _ E0 E1. congruence.
      - intros ev e u []. }
  destruct (video_capture vision w1) as [[u2|e2] w2] eqn:Ev.
  2:{ unfold result_of, events_of; simpl. split; [|split].
      - intros e E. inversion E; subst. right. right. left. now left.
      - intros e u0' w0' u1' w1' u2 w2' w3 _ E0 E1 E2. congruence.
      - intros ev e u [<-|[]]. discriminate. }
  destruct (is_opened vision w2) as [[[]|e3] w3] eqn:Eo.
  3:{ unfold result_of, events_of; simpl. split; [|split].
      - intros e E. inversion E; subst. right. right. right. left.
        exists u0, w0, u1, w1, u2, w2, w3.
        split; [reflexivity|]. split; [exact Es|]. split; [exact Ev|].
        exact Eo.
      - intros e u0' w0' u1' w1' u2' w2' w3' _ E0 E1 E2 E3.
        assert (E : e3 = e) by congruence. subst e3.
        split; [reflexivity|].
        intros r [Hin|[]]. discriminate.
      - intros ev e u [<-|[]]. discriminate. }
  2:{ unfold result_of, events_of; simpl. split; [|split].
      - discriminate.
      - intros e u0' w0' u1' w1' u2' w2' w3' _ E0 E1 E2 E3. congruence.
      - intros ev e u [<-|[<-|[]]]; discriminate. }
  pose proof (look_and_play_failure vision w3) as Hfail.
  pose proof (look_and_play_inside vision w3) as Hinside.
  destruct (look_and_play vision w3) as [[r w4] evs].
  unfold events_of, result_of in Hfail, Hinside; simpl in Hfail, Hinside.
  destruct (cap_release vision w4) as [[u'|e'] w5];
    unfold result_of, events_of; simpl; (split; [|split]).
  - destruct r; discriminate.
  - intros e u0' w0' u1' w1' u2' w2' w3' _ E0 E1 E2 E3. congruence.
  - intros ev e u [<-|[<-|Hin]] Hf _; try discriminate.
    apply in_app_or in Hin. destruct Hin as [Hin|[<-|[]]];
      [|discriminate].
    now rewrite (Hfail ev e Hin Hf).
  - intros e E. inversion E; subst. right. right. right. right. right.
    right. apply in_or_app. right. now left.
  - intros e u0' w0' u1' w1' u2' w2' w3' _ E0 E1 E2 E3. congruence.
  - intros ev e u _ _ [Hin|[Hin|Hin]]; try discriminate.
    apply in_app_or in Hin. destruct Hin as [Hin|[Hin|[]]];
      [|discriminate].
    now elim (inside_is_not_a_release evs (Ret u) Hinside).
Qed.

(** X28.  The lamp answers with the animation of its own move: a game
    plays at most one recording, and it is head_down, wake_up or
    happy_wiggle according to whether the lamp drew Rock, Paper or
    Scissors. *)
Theorem the_lamp_plays_its_own_move {W : Type} (vision : Vision W)
    (sleeping : bool) (w : W) :
  let evs := events_of (play_rock_paper_scissors vision sleeping w) in
  (List.length (filter is_play evs) <= 1)%nat
  /\ forall name r,
       In (Play name r) evs ->
       exists bot_move,
         In (Choice bot_move) evs
         /\ In bot_move moves
         /\ dict_lookup String.eqb rps_anim_map bot_move = Some name.
Proof.
  cbv zeta.
  assert (Hround : forall landmark_y w0,
            let evs := events_of (play_round vision landmark_y w0) in
            (List.length (filter is_play evs) <= 1)%nat
            /\ forall name r,
                 In (Play name r) evs ->
                 exists bot_move,
                   In (Choice bot_move) evs
                   /\ In bot_move moves
                   /\ dict_lookup String.eqb rps_anim_map bot_move
                      = Some name).
  { intros landmark_y w0. cbv zeta. unfold play_round.
    destruct (random_index vision w0) as [index w1].
    pose proof (choice_is_a_move index) as Hmove.
    assert (Hanim : dict_lookup String.eqb rps_anim_map (choice index)
                    = Some (dict_get String.eqb rps_anim_map (choice index)
                              EmptyString)).
    { unfold moves in Hmove. simpl in Hmove.
      destruct Hmove as [<-|[<-|[<-|[]]]]; reflexivity. }
    destruct (rps_animation_service vision) as [service_dispatch|].
    - destruct (service_dispatch "play" _ w1) as [[u|e] w2];
        unfold events_of; simpl; (split; [lia|]);
        intros name r [Hin|[Hin|[]]]; try discriminate;
        inversion Hin; subst; exists (choice index);
        (split; [now left|]); split; assumption.
    - unfold events_of; simpl. split; [lia|].
      intros name r [Hin|[]]. discriminate. }
  assert (Hreads : forall n w0,
            filter is_play (events_of (read_frames vision n w0)) = []).
  { induction n as [|n IH]; intros w0; simpl; [reflexivity|].
    destruct (cap_read vision w0) as [[[]|e] w1]; try reflexivity.
    specialize (IH w1). destruct (read_frames vision n w1) as [[r w2] evs].
    unfold events_of in *; simpl in *. exact IH. }
  assert (Hnoplay : forall evs name r,
            filter is_play evs = [] -> ~ In (Play name r) evs).
  { intros evs name r Hf Hin.
    assert (Hp : In (Play name r) (filter is_play evs)).
    { apply filter_In. split; [exact Hin | reflexivity]. }
    rewrite Hf in Hp. destruct Hp. }
  assert (Hlook : forall w0,
            let evs := events_of (look_and_play vision w0) in
            (List.length (filter is_play evs) <= 1)%nat
            /\ forall name r,
                 In (Play name r) evs ->
                 exists bot_move,
                   In (Choice bot_move) evs
                   /\ In bot_move moves
                   /\ dict_lookup String.eqb rps_anim_map bot_move
                      = Some name).
  { intros w0. cbv zeta. unfold look_and_play.
    destruct (hands_enter vision w0) as [[u|e] w1].
    2:{ unfold events_of; simpl. split; [lia|].
        intros name r [Hin|[]]. discriminate. }
    specialize (Hreads 5%nat w1).
    destruct (read_frames vision 5 w1) as [[ret w2] reads].
    unfold events_of in Hreads; simpl in Hreads.
    assert (Hquiet : forall tail,
              filter is_play tail = [] ->
              (List.length (filter is_play (Hands (Ret u) :: reads ++ tail))
               <= 1)%nat
              /\ forall name r,
                   In (Play name r) (Hands (Ret u) :: reads ++ tail) ->
                   exists bot_move,
                     In (Choice bot_move) (Hands (Ret u) :: reads ++ tail)
                     /\ In bot_move moves
                     /\ dict_lookup String.eqb rps_anim_map bot_move
                        = Some name).
    { intros tail Ht. simpl. rewrite filter_app, Hreads, Ht. simpl.
      split; [lia|]. intros name r [Hin|Hin]; [discriminate|].
      apply in_app_or in Hin. destruct Hin as [Hin|Hin].
      - now elim (Hnoplay reads name r Hreads).
      - now elim (Hnoplay tail name r Ht). }
    destruct ret as [[]|e].
    3:{ unfold events_of; simpl.
        rewrite <- (app_nil_r reads). apply (Hquiet []). reflexivity. }
    2:{ unfold events_of; simpl.
        rewrite <- (app_nil_r reads). apply (Hquiet []). reflexivity. }
    destruct (cvt_color vision w2) as [[u'|e] w3].
    2:{ unfold events_of; simpl. apply Hquiet. reflexivity. }
    destruct (hands_process vision w3) as [[[landmark_y|]|e] w4].
    2:{ unfold events_of; simpl. apply Hquiet. reflexivity. }
    2:{ unfold events_of; simpl. apply Hquiet. reflexivity. }
    destruct (Hround landmark_y w4) as [Hone Hplay].
    destruct (play_round vision landmark_y w4) as [[r w5] evs].
    unfold events_of in *; simpl in *.
    rewrite filter_app, Hreads. simpl. split; [exact Hone|].
    intros name r0 [Hin|Hin]; [discriminate|].
    apply in_app_or in Hin. destruct Hin as [Hin|Hin].
    { now elim (Hnoplay reads name r0 Hreads). }
    destruct Hin as [Hin|[Hin|Hin]]; try discriminate.
    destruct (Hplay name r0 Hin) as (bot & Hc & Hm & Ha).
    exists bot. split; [|split; assumption].
    right. apply in_or_app. right. right. right. exact Hc. }
  unfold play_rock_paper_scissors.
  destruct (import_animation_service vision w) as [[u0|e] w0].
  2:{ unfold events_of; simpl. split; [lia | intros name r []]. }
  destruct sleeping.
  { unfold events_of; simpl. split; [lia | intros name r []]. }
  destruct (solutions_hands vision w0) as [[u1|e] w1].
  2:{ unfold events_of; simpl. split; [lia | intros name r []]. }
  destruct (video_capture vision w1) as [[u|e] w2].
  2:{ unfold events_of; simpl. split; [lia|].
      intros name r [Hin|[]]. discriminate. }
  destruct (is_opened vision w2) as [[[]|e] w3]; simpl.
  3:{ unfold events_of; simpl. split; [lia|].
      intros name r [Hin|[]]. discriminate. }
  2:{ unfold events_of; simpl. split; [lia|].
      intros name r [Hin|[Hin|[]]]; discriminate. }
  destruct (Hlook w3) as [Hone Hplay].
  destruct (look_and_play vision w3) as [[r w4] evs].
  unfold events_of in Hone, Hplay; simpl in Hone, Hplay.
  assert (Hfinal : forall last,
            is_play last = false ->
            (List.length
               (filter is_play
                  (VideoCapture (Ret u) :: IsOpened true :: evs ++ [last]))
             <= 1)%nat
            /\ forall name r0,
                 In (Play name r0)
                    (VideoCapture (Ret u) :: IsOpened true :: evs ++ [last]) ->
                 exists bot_move,
                   In (Choice bot_move)
                      (VideoCapture (Ret u) :: IsOpened true :: evs ++ [last])
                   /\ In bot_move moves
                   /\ dict_lookup String.eqb rps_anim_map bot_move
                      = Some name).
  { intros last Hlast. simpl. rewrite filter_app. simpl. rewrite Hlast.
    rewrite app_nil_r. split; [exact Hone|].
    intros name r0 [Hin|[Hin|Hin]]; try discriminate.
    apply in_app_or in Hin. destruct Hin as [Hin|[Hin|[]]].
    - destruct (Hplay name r0 Hin) as (bot & Hc & Hm & Ha).
      exists bot. split; [|split; assumption].
      right. right. apply in_or_app. now left.
    - subst last. discriminate. }
  destruct (cap_release vision w4) as [[u'|e] w5];
    unfold events_of; simpl; apply Hfinal; reflexivity.
Qed.

(** A game in the laboratory: the victory sign against a drawn Paper. *)
Example scissors_cut_paper :
  play_rock_paper_scissors (seeing victory_sign 1) false 0%nat
  = (Ret "You showed Scissors. I chose Paper (wake_up action). You Win!",
     0%nat,
     [ VideoCapture (Ret tt); IsOpened true; Hands (Ret tt);
       Read (Ret true); Read (Ret true); Read (Ret true); Read (Ret true);
       Read (Ret true); CvtColor (Ret tt); HandsProcess (Ret true);
       Choice "Paper"; Play "wake_up" (Ret tt); Release (Ret tt) ]).
Proof. vm_compute. reflexivity. Qed.

(** X25 at work. *)
Lemma the_referee_is_fair_witness :
  (judge "Scissors" "Paper" = "It's a Tie!" <-> "Scissors" = "Paper")
  /\ (judge "Scissors" "Paper" = "You Win!"
      <-> judge "Paper" "Scissors" = "I Win!")
  /\ (judge "Scissors" "Paper" = "I Win!"
      <-> judge "Paper" "Scissors" = "You Win!").
Proof.
  apply (the_referee_is_fair "Scissors" "Paper"); vm_compute; tauto.
Defined.

(** X27 at work: the exception of [isOpened] leaves the game, and the
    missing model of the hands becomes an answer. *)
Lemma only_the_camera_can_make_the_game_raise_witness :
  (result_of (play_rock_paper_scissors busy_camera false 0%nat)
   = Raise (Exception "camera busy")
   /\ forall r,
        ~ In (Release r)
            (events_of (play_rock_paper_scissors busy_camera false 0%nat)))
  /\ result_of (play_rock_paper_scissors camera_without_model false 0%nat)
     = Ret "Oops, something went wrong while playing: no model".
Proof.
  split.
  - apply (proj1 (proj2 (only_the_camera_can_make_the_game_raise
                           busy_camera false 0%nat))
             (Exception "camera busy") tt 0%nat tt 0%nat tt 0%nat 0%nat);
      reflexivity.
  - apply (proj2 (proj2 (only_the_camera_can_make_the_game_raise
                           camera_without_model false 0%nat))
             (Hands (Raise (Exception "no model"))) (Exception "no model") tt).
    + vm_compute. tauto.
    + reflexivity.
    + vm_compute. tauto.
Defined.
